(** * Reference resolution of mongoengine (dereference.py) and the async
      database switch (async_context_managers.py)

    A shallow embedding of [DeReference], [AsyncDeReference] and
    [async_switch_db].  Python values are a tree type [value]; dicts keep
    their insertion order (association lists), sets are [gset], the Object
    Map is a [gmap].  Exceptions are the [Err] results of a small error
    monad.  The recursive methods take a [fuel] argument: the materialising
    branch of the attacher recurses on the result of [_from_son], which is
    not a part of its argument.

    Scope of the model.
    - A QuerySet given as [items] is represented by the list of its rows.
    - SON is a dict subclass and is represented as a plain dict.
    - Documents are trees: two positions never share one document object.
      The attacher's in-place writes to [_data] appear as the updated
      document in its result.
    - Owner instances are documents with at least one stored field, hence
      truthy. *)

From Stdlib Require Import ZArith Lia Ascii String.
From stdpp Require Import base option list strings gmap pretty.

Set Warnings "-register-all".
Local Open Scope string_scope.

(** ** Exceptions and the error monad

    Every Python error of the model is a subclass of [Exception], so
    [except Exception] catches each of them; cancellation of a task is
    not modelled. *)

Inductive error : Type :=
| OutOfFuel        (* the model's recursion budget ran out; not a Python error *)
| Unsupported      (* a call outside the modelled domain *)
| TypeError
| AttributeError
| KeyError
| NotRegistered    (* _DocumentRegistry.get on an unknown name *)
| DoesNotExist     (* queryset get without a match *)
| TransportError.  (* the driver failed *)

Inductive result (A : Type) : Type :=
| Ok (a : A)
| Err (e : error).
Arguments Ok {A} a.
Arguments Err {A} e.

Definition bind {A B : Type} (m : result A) (k : A -> result B) : result B :=
  match m with
  | Ok a => k a
  | Err e => Err e
  end.

Notation "'let*' x ':=' m 'in' k" := (bind m (fun x => k))
  (at level 10, x pattern, m at level 100, k at level 200).

(** [for x in xs: acc = step(acc, x)], stopping at the first exception. *)
Fixpoint foldM {A S : Type} (step : S -> A -> result S) (acc : S) (xs : list A)
  : result S :=
  match xs with
  | [] => Ok acc
  | x :: rest => let* acc' := step acc x in foldM step acc' rest
  end.

(** [[f(x) for x in xs]], stopping at the first exception. *)
Fixpoint mapM_r {A B : Type} (f : A -> result B) (xs : list A) : result (list B) :=
  match xs with
  | [] => Ok []
  | x :: rest =>
      let* y := f x in
      let* ys := mapM_r f rest in
      Ok (y :: ys)
  end.

(** ** Schema: document classes and field declarations *)

Definition oid := nat.

Definition DEFAULT_CONNECTION_NAME : string := "default".

(** What the resolver reads from a document class. *)
Record doc_class : Type := {
  cls_name : string;
  cls_collection : string;       (* cls._get_collection_name() *)
  cls_objects : bool;            (* getattr(cls, "objects", None) is not None *)
  cls_async_in_bulk : bool;      (* hasattr(cls.objects, "async_in_bulk") *)
  cls_toplevel : bool;           (* isinstance(cls, TopLevelDocumentMetaclass) *)
  cls_db_alias : option string   (* cls._meta.get("db_alias") *)
}.

Inductive complex_kind : Type := ListField | DictField | MapField.

(** Field declarations, by the attributes the resolver looks at:
    [document_type], [dbref] and the inner [field] of a complex field. *)
Inductive field_decl : Type :=
| ReferenceField (document_type : doc_class) (dbref : bool)
| ComplexField (kind : complex_kind) (field : option field_decl)
| TypedField (document_type : doc_class)   (* has document_type, is no ReferenceField *)
| PlainField.                              (* neither [field] nor [document_type] *)

(** The identity and schema of a document instance: its class and
    [_fields]. *)
Record doc_head : Type := {
  doc_handle : nat;
  doc_cls : doc_class;
  doc_fields : list (string * field_decl)
}.

(** ** Values *)

Inductive list_kind : Type :=
| PyList
| PyTuple
| BaseList (instance : doc_head) (name : option string)
| EmbeddedDocumentList (instance : doc_head) (name : option string).

Inductive dict_kind : Type :=
| PyDict
| BaseDict (instance : doc_head) (name : option string).

Inductive value : Type :=
| VNone
| VStr (s : string)
| ObjectId (i : oid)                               (* a bare identifier *)
| DBRef (collection : string) (id : oid)
| LazyReference (collection : string) (id : oid)   (* subclass of DBRef *)
| VList (k : list_kind) (elems : list value)
| VDict (k : dict_kind) (entries : list (string * value))
| VDoc (h : doc_head) (_data : list (string * value))
| AsyncReferenceProxy (h : doc_head) (instance_data : list (string * value)).
                                                   (* the proxy's .instance *)

Global Instance doc_class_eq_dec : EqDecision doc_class.
Proof. solve_decision. Defined.

Global Instance complex_kind_eq_dec : EqDecision complex_kind.
Proof. solve_decision. Defined.

(** ** Dict primitives on association lists *)

Section Dict.
Context {V : Type}.

(** [d.get(key)] *)
Fixpoint dict_get (key : string) (d : list (string * V)) : option V :=
  match d with
  | [] => None
  | (k, v) :: rest => if String.eqb k key then Some v else dict_get key rest
  end.

(** [key in d] *)
Definition dict_has (key : string) (d : list (string * V)) : bool :=
  match dict_get key d with Some _ => true | None => false end.

(** [d[key] = v]: overwrite in place, or append a new key. *)
Fixpoint dict_set (key : string) (v : V) (d : list (string * V))
  : list (string * V) :=
  match d with
  | [] => [(key, v)]
  | (k, w) :: rest =>
      if String.eqb k key then (k, v) :: rest else (k, w) :: dict_set key v rest
  end.

(** [del d[key]] *)
Fixpoint dict_del (key : string) (d : list (string * V)) : list (string * V) :=
  match d with
  | [] => []
  | (k, w) :: rest =>
      if String.eqb k key then rest else (k, w) :: dict_del key rest
  end.
End Dict.

(** [d.get(key, None)] on values *)
Definition get_or_None (key : string) (d : list (string * value)) : value :=
  match dict_get key d with Some v => v | None => VNone end.

(** ** Python predicates on values *)

(** [bool(v)].  Only consulted on the values a call receives as [items]. *)
Definition truthy (v : value) : bool :=
  match v with
  | VNone => false
  | VStr s => negb (String.eqb s EmptyString)
  | VList _ xs => match xs with [] => false | _ => true end
  | VDict _ kvs => match kvs with [] => false | _ => true end
  | VDoc _ d => match d with [] => false | _ => true end
  | _ => true
  end.

(** [bool(name)] for a name that is [None] or a string *)
Definition name_truthy (name : option string) : bool :=
  match name with
  | Some s => negb (String.eqb s EmptyString)
  | None => false
  end.

(** [f"{name}"] *)
Definition fmt_name (name : option string) : string :=
  match name with Some s => s | None => "None" end.

(** [v.id]: the identifier of a pointer, the primary key of a document
    (the field ["id"]).  What a bare identifier answers, if it has the
    attribute, is not modelled. *)
Definition attr_id (v : value) : result oid :=
  match v with
  | DBRef _ i | LazyReference _ i => Ok i
  | VDoc _ d =>
      match dict_get "id" d with
      | Some (ObjectId i) => Ok i
      | _ => Err Unsupported
      end
  | ObjectId _ | AsyncReferenceProxy _ _ => Err Unsupported
  | _ => Err AttributeError
  end.

(** [v.collection] *)
Definition attr_collection (v : value) : result string :=
  match v with
  | DBRef c _ | LazyReference c _ => Ok c
  | _ => Err AttributeError
  end.

(** [d[key]] *)
Definition getitem (key : string) (d : list (string * value)) : result value :=
  match dict_get key d with
  | Some v => Ok v
  | None => Err KeyError
  end.

(** [field.document_type] *)
Definition field_document_type (f : field_decl) : result doc_class :=
  match f with
  | ReferenceField t _ | TypedField t => Ok t
  | _ => Err AttributeError
  end.

(** [getattr(getattr(field, "field", None), "document_type", None)] *)
Definition field_cls_of (f : field_decl) : option doc_class :=
  match f with
  | ComplexField _ (Some (ReferenceField t _)) => Some t
  | ComplexField _ (Some (TypedField t)) => Some t
  | _ => None
  end.

(** ** The Reference Map *)

(** Keys are document classes or raw collection names. *)
Inductive rkey : Type :=
| KClass (c : doc_class)
| KName (collection : string).

Global Instance rkey_eq_dec : EqDecision rkey.
Proof. solve_decision. Defined.

(** A Python dict from keys to sets of identifiers, in insertion order. *)
Definition refmap : Type := list (rkey * gset oid).

(** [reference_map.setdefault(key, set()).update(refs)] *)
Fixpoint setdefault_update (key : rkey) (refs : gset oid) (rm : refmap) : refmap :=
  match rm with
  | [] => [(key, refs)]
  | (k, s) :: rest =>
      if decide (k = key) then (k, s ∪ refs) :: rest
      else (k, s) :: setdefault_update key refs rest
  end.

(** [reference_map.setdefault(key, set()).add(i)] *)
Definition setdefault_add (key : rkey) (i : oid) (rm : refmap) : refmap :=
  setdefault_update key {[ i ]} rm.

(** [reference_map.get(key, set())] *)
Fixpoint bucket (key : rkey) (rm : refmap) : gset oid :=
  match rm with
  | [] => ∅
  | (k, s) :: rest => if decide (k = key) then s else bucket key rest
  end.

(** ** Iteration *)

(** The characters of a string, as one-character strings *)
Fixpoint str_chars (s : string) : list value :=
  match s with
  | EmptyString => []
  | String c rest => VStr (String c EmptyString) :: str_chars rest
  end.

(** [isinstance(v, (dict, list, tuple))] *)
Definition is_container (v : value) : bool :=
  match v with
  | VList _ _ | VDict _ _ => true
  | _ => false
  end.

(** [isinstance(v, DBRef)]: true of a LazyReference too *)
Definition is_DBRef (v : value) : bool :=
  match v with
  | DBRef _ _ | LazyReference _ _ => true
  | _ => false
  end.

(** The scanner's iterator: [items.values()] for a dict, else [items]. *)
Definition scan_iterator (items : value) : result (list value) :=
  match items with
  | VDict _ kvs => Ok (map snd kvs)
  | VList _ xs => Ok xs
  | VStr s => Ok (str_chars s)
  | VNone | ObjectId _ | DBRef _ _ | LazyReference _ _ => Err TypeError
  | VDoc _ _ | AsyncReferenceProxy _ _ => Err Unsupported
  end.

(** ** The Reference Scanner *)

Section Scanner.
(** [_DocumentRegistry.get], [None] where it raises NotRegistered *)
Variable registry : string -> option doc_class.
(** [hasattr(x, "id")] for a bare identifier [x] *)
Variable objectid_has_id : bool.
(** [self.max_depth] *)
Variable max_depth : Z.

Definition registry_get (name : value) : result doc_class :=
  match name with
  | VStr s =>
      match registry s with
      | Some c => Ok c
      | None => Err NotRegistered
      end
  | VList _ _ | VDict _ _ => Err TypeError
  | _ => Err NotRegistered
  end.

(** [reference_map.setdefault(_DocumentRegistry.get(v["_cls"]), set())
      .add(v["_ref"].id)] *)
Definition scan_tagged (v : list (string * value)) (rm : refmap) : result refmap :=
  let* cls_name := getitem "_cls" v in
  let* c := registry_get cls_name in
  let* r := getitem "_ref" v in
  let* i := attr_id r in
  Ok (setdefault_add (KClass c) i rm).

(** [for key, refs in references.items(): ...
      reference_map.setdefault(key, set()).update(refs)],
    with [key = field_cls] when [field_cls] is a top-level class. *)
Definition merge_references (field_cls : option doc_class)
    (references : refmap) (rm : refmap) : refmap :=
  fold_left
    (fun acc '(key, refs) =>
       let key' :=
         match field_cls with
         | Some c => if cls_toplevel c then KClass c else key
         | None => key
         end in
       setdefault_update key' refs acc)
    references rm.

(** The body of the loop over [item._fields.items()] in
    [DeReference._find_references], lines 130-150.  [rec] is
    [self._find_references]; [depth] is already incremented. *)
Definition scan_field (rec : value -> Z -> result refmap) (depth : Z)
    (_data : list (string * value)) (rm : refmap)
    (fld : string * field_decl) : result refmap :=
  let '(field_name, field) := fld in
  let v := get_or_None field_name _data in
  let nested :=
    if (depth <=? max_depth)%Z then
      let field_cls := field_cls_of field in
      let* references := rec v depth in
      Ok (merge_references field_cls references rm)
    else Ok rm in
  match v with
  | LazyReference _ _ => Ok rm
  | DBRef _ i =>
      let* t := field_document_type field in
      Ok (setdefault_add (KClass t) i rm)
  | VDict _ kvs =>
      if dict_has "_ref" kvs then scan_tagged kvs rm else nested
  | VList _ _ => nested
  | _ => Ok rm
  end.

(** The same loop body in [AsyncDeReference._find_references], lines
    478-511: the proxy branch comes first, the rest is unchanged. *)
Definition async_scan_field (rec : value -> Z -> result refmap) (depth : Z)
    (_data : list (string * value)) (rm : refmap)
    (fld : string * field_decl) : result refmap :=
  let '(field_name, field) := fld in
  let v := get_or_None field_name _data in
  match v with
  | AsyncReferenceProxy _ instance_data =>
      let actual_ref := get_or_None field_name instance_data in
      match actual_ref with
      | DBRef _ i | LazyReference _ i =>
          let* t := field_document_type field in
          Ok (setdefault_add (KClass t) i rm)
      | ObjectId i =>
          if objectid_has_id then
            let* t := field_document_type field in
            Ok (setdefault_add (KClass t) i rm)
          else Ok rm
      | VDoc _ _ =>
          (* a document has an id; the set would hold the document itself *)
          let* t := field_document_type field in
          Err Unsupported
      | AsyncReferenceProxy _ _ => Err Unsupported
      | _ => Ok rm
      end
  | _ => scan_field rec depth _data rm fld
  end.

(** The type of a per-field loop body of the scanner *)
Definition scan_field_step : Type :=
  (value -> Z -> result refmap) -> Z ->
  list (string * value) -> refmap -> string * field_decl -> result refmap.

(** The body of the loop over the iterator, lines 127-163.  [field_step]
    is the per-field body, which the async subclass overrides. *)
Definition scan_item (field_step : scan_field_step)
    (rec : value -> Z -> result refmap) (depth : Z)
    (rm : refmap) (item : value) : result refmap :=
  let nested :=
    if (depth - 1 <=? max_depth)%Z then
      let* references := rec item (depth - 1)%Z in
      Ok (merge_references None references rm)
    else Ok rm in
  match item with
  | VDoc h _data => foldM (field_step rec depth _data) rm (doc_fields h)
  | LazyReference _ _ => Ok rm
  | DBRef c i => Ok (setdefault_add (KName c) i rm)
  | VDict _ kvs =>
      if dict_has "_ref" kvs then scan_tagged kvs rm else nested
  | VList _ _ => nested
  | _ => Ok rm
  end.

(** The body of [_find_references(self, items, depth=0)], lines 115-165,
    with [rec] for [self._find_references]. *)
Definition find_references_body (field_step : scan_field_step)
    (rec : value -> Z -> result refmap) (items : value) (depth : Z)
  : result refmap :=
  if negb (truthy items) || (max_depth <=? depth)%Z then Ok []
  else
    let* iterator := scan_iterator items in
    let depth := (depth + 1)%Z in
    foldM (scan_item field_step rec depth) [] iterator.

(** [_find_references], with a recursion budget *)
Fixpoint find_references_with (field_step : scan_field_step)
    (fuel : nat) (items : value) (depth : Z) : result refmap :=
  match fuel with
  | O => Err OutOfFuel
  | S fuel' =>
      find_references_body field_step
        (find_references_with field_step fuel') items depth
  end.

(** [DeReference._find_references] *)
Definition find_references : nat -> value -> Z -> result refmap :=
  find_references_with scan_field.

(** [AsyncDeReference._find_references] *)
Definition async_find_references : nat -> value -> Z -> result refmap :=
  find_references_with async_scan_field.
End Scanner.

(** ** The Object Attacher *)

(** The Object Map: [(collection name, identifier)] to resolved object. *)
Abbreviation objmap := (gmap (string * oid) value).

(** [isinstance(items, (BaseDict, BaseList))] *)
Definition is_tracked (items : value) : bool :=
  match items with
  | VList (BaseList _ _) _ | VList (EmbeddedDocumentList _ _) _ => true
  | VDict (BaseDict _ _) _ => true
  | _ => false
  end.

(** [enumerate(xs)], each index rendered as in an f-string *)
Definition enumerate (xs : list value) : list (string * value) :=
  imap (fun k v => (pretty k, v)) xs.

(** The attacher's iterator: [items.items()] when [items] has that
    attribute, else [enumerate(items)].  Keys are kept as [f"{k}"]. *)
Definition attach_iterator (items : value) : result (list (string * value)) :=
  match items with
  | VDict _ kvs => Ok kvs
  | VList _ xs => Ok (enumerate xs)
  | VStr s => Ok (enumerate (str_chars s))
  | VNone | ObjectId _ | DBRef _ _ | LazyReference _ _ => Err TypeError
  | VDoc _ _ | AsyncReferenceProxy _ _ => Err Unsupported
  end.

(** [BaseList(items, instance, name)] on a falsy non-dict [items] *)
Definition empty_BaseList (items : value) (instance : doc_head)
    (name : option string) : result value :=
  match items with
  | VList _ xs => Ok (VList (BaseList instance name) xs)
  | VStr s => Ok (VList (BaseList instance name) (str_chars s))
  | VNone => Err TypeError
  | _ => Err Unsupported
  end.

(** Lines 225-233: the early returns for falsy [items]; [None] when the
    code falls through. *)
Definition attach_falsy (items : value) (instance : option doc_head)
    (name : option string) : option (result value) :=
  if truthy items then None
  else if is_tracked items then Some (Ok items)
  else match instance with
       | Some inst =>
           match items with
           | VDict _ kvs => Some (Ok (VDict (BaseDict inst name) kvs))
           | _ => Some (empty_BaseList items inst name)
           end
       | None => None
       end.

(** Lines 299-304: the container that is returned for the rebuilt
    [data]. *)
Definition rewrap (items : value) (data : list (string * value))
    (instance : option doc_head) (name : option string) : value :=
  let plain :=
    match items with
    | VDict _ _ => VDict PyDict data
    | _ => VList PyList (map snd data)
    end in
  match instance with
  | Some inst =>
      if name_truthy name then
        match items with
        | VDict _ _ => VDict (BaseDict inst name) data
        | VList PyTuple _ => VList PyTuple (map snd data)
        | VList (EmbeddedDocumentList _ _) _ =>
            VList (EmbeddedDocumentList inst name) (map snd data)
        | _ => VList (BaseList inst name) (map snd data)
        end
      else plain
  | None => plain
  end.

Section Attacher.
Variable registry : string -> option doc_class.
(** [cls._from_son(son)]: the new document's head and [_data] *)
Variable from_son :
  doc_class -> list (string * value) ->
  result (doc_head * list (string * value)).
Variable objectid_has_id : bool.
(** [self.object_map] and [self.max_depth] *)
Variable object_map : objmap.
Variable max_depth : Z.

(** [self.object_map.get((c, i), default)] *)
Definition om_get (c : string) (i : oid) (default : value) : value :=
  match object_map !! (c, i) with
  | Some o => o
  | None => default
  end.

(** [self.object_map.get((r.collection, r.id), default)] *)
Definition lookup_ref (r : value) (default : value) : result value :=
  let* c := attr_collection r in
  let* i := attr_id r in
  Ok (om_get c i default).

(** The type of [self._attach_objects] *)
Definition attach_fn : Type :=
  value -> Z -> option doc_head -> option string -> result value.

(** The body of the loop over [v._fields] in
    [DeReference._attach_objects], lines 272-290.  [_data] is the
    document's field store, written in place by the source. *)
Definition attach_field (rec : attach_fn) (depth : Z)
    (instance : option doc_head) (name : option string) (k : string)
    (_data : list (string * value)) (fld : string * field_decl)
  : result (list (string * value)) :=
  let '(field_name, _) := fld in
  let field_value := get_or_None field_name _data in
  let nested :=
    if (depth <=? max_depth)%Z then
      let item_name := fmt_name name ++ "." ++ k ++ "." ++ field_name in
      let* r := rec field_value depth instance (Some item_name) in
      Ok (dict_set field_name r _data)
    else Ok _data in
  match field_value with
  | DBRef c i | LazyReference c i =>
      Ok (dict_set field_name (om_get c i field_value) _data)
  | VDict _ kvs =>
      if dict_has "_ref" kvs then
        let* r := getitem "_ref" kvs in
        let* o := lookup_ref r field_value in
        Ok (dict_set field_name o _data)
      else nested
  | VList _ _ => nested
  | _ => Ok _data
  end.

(** The same loop body in [AsyncDeReference._attach_objects], lines
    580-614: the proxy branch comes first, the rest is unchanged. *)
Definition async_attach_field (rec : attach_fn) (depth : Z)
    (instance : option doc_head) (name : option string) (k : string)
    (_data : list (string * value)) (fld : string * field_decl)
  : result (list (string * value)) :=
  let '(field_name, field) := fld in
  let field_value := get_or_None field_name _data in
  let substitute (col_name : string) (ref_id : oid) :=
    match object_map !! (col_name, ref_id) with
    | Some o => dict_set field_name o _data
    | None => _data
    end in
  match field_value with
  | AsyncReferenceProxy _ instance_data =>
      let actual_ref := get_or_None field_name instance_data in
      match actual_ref with
      | DBRef c i | LazyReference c i => Ok (substitute c i)
      | ObjectId i =>
          if objectid_has_id then
            let* t := field_document_type field in
            Ok (substitute (cls_collection t) i)
          else Ok _data
      | VDoc _ _ =>
          (* a document has an id; the key would hold the document itself *)
          let* t := field_document_type field in
          Err Unsupported
      | AsyncReferenceProxy _ _ => Err Unsupported
      | _ => Ok _data
      end
  | _ => attach_field rec depth instance name k _data fld
  end.

(** The type of a per-field loop body of the attacher *)
Definition attach_field_step : Type :=
  attach_fn -> Z -> option doc_head -> option string ->
  string -> list (string * value) ->
  string * field_decl -> result (list (string * value)).

(** The body of the loop over the iterator, lines 263-297, for one
    [(k, v)]: the value stored at [data[k]].  The test
    [k in self.object_map and not is_list] is false: the keys of the
    Object Map are pairs, [k] is an index or a string. *)
Definition attach_item (field_step : attach_field_step)
    (rec : attach_fn) (depth : Z)
    (instance : option doc_head) (name : option string)
    (kv : string * value) : result value :=
  let '(k, v) := kv in
  let nested :=
    if (depth <=? max_depth)%Z then
      let item_name :=
        if name_truthy name then Some (fmt_name name ++ "." ++ k) else name in
      rec v (depth - 1)%Z instance item_name
    else Ok v in
  match v with
  | VDoc h _data =>
      let* d := foldM (field_step rec depth instance name k) _data (doc_fields h) in
      Ok (VDoc h d)
  | VList _ _ | VDict _ _ => nested
  | DBRef c i | LazyReference c i => Ok (om_get c i v)
  | _ => Ok v
  end.

(** Lines 240-247: a mapping with a discriminator and no ["_ref"] is
    materialised through the registry.  [del items["_cls"]] writes to
    the input mapping only and is not visible in the result. *)
Definition materialise (rec : attach_fn) (items : list (string * value))
    (depth : Z) : result value :=
  let* cls_name := getitem "_cls" items in
  let* c := registry_get registry cls_name in
  let* (h, d) := from_son c items in
  let _cls := get_or_None "_cls" d in
  let d1 := dict_del "_cls" d in
  let* r := rec (VDict PyDict d1) depth (Some h) None in
  let* d2 := match r with
             | VDict _ kvs => Ok kvs
             | _ => Err Unsupported
             end in
  Ok (VDoc h (match _cls with
              | VNone => d2
              | _ => dict_set "_cls" _cls d2
              end)).

(** Lines 235-247: the early returns for a tagged mapping. *)
Definition attach_tagged (rec : attach_fn) (items : value) (depth : Z)
  : option (result value) :=
  match items with
  | VDict _ kvs =>
      if dict_has "_ref" kvs then
        Some (let* r := getitem "_ref" kvs in lookup_ref r items)
      else if dict_has "_cls" kvs then Some (materialise rec kvs depth)
      else None
  | _ => None
  end.

(** Lines 262-297: the loop, giving the rebuilt [data] with its keys *)
Definition attach_loop (field_step : attach_field_step) (rec : attach_fn)
    (depth : Z) (instance : option doc_head) (name : option string)
    (iterator : list (string * value)) : result (list (string * value)) :=
  mapM_r (fun kv =>
            let* v := attach_item field_step rec depth instance name kv in
            Ok (fst kv, v))
         iterator.

(** The body of [_attach_objects(self, items, depth=0, instance=None,
    name=None)], lines 225-304, with [rec] for [self._attach_objects]. *)
Definition attach_body (field_step : attach_field_step) (rec : attach_fn)
    (items : value) (depth : Z)
    (instance : option doc_head) (name : option string) : result value :=
  match attach_falsy items instance name with
  | Some r => r
  | None =>
      match attach_tagged rec items depth with
      | Some r => r
      | None =>
          let* iterator := attach_iterator items in
          let depth := (depth + 1)%Z in
          let* data := attach_loop field_step rec depth instance name iterator in
          Ok (rewrap items data instance name)
      end
  end.

(** [_attach_objects], with a recursion budget *)
Fixpoint attach_objects_with (field_step : attach_field_step)
    (fuel : nat) (items : value) (depth : Z)
    (instance : option doc_head) (name : option string) : result value :=
  match fuel with
  | O => Err OutOfFuel
  | S fuel' =>
      attach_body field_step (attach_objects_with field_step fuel')
                  items depth instance name
  end.

(** [DeReference._attach_objects] *)
Definition attach_objects
  : nat -> value -> Z -> option doc_head -> option string -> result value :=
  attach_objects_with attach_field.

(** [AsyncDeReference._attach_objects] *)
Definition async_attach_objects
  : nat -> value -> Z -> option doc_head -> option string -> result value :=
  attach_objects_with async_attach_field.
End Attacher.

(** ** The Batch Fetcher *)

(** The [doc_type] argument of the fetchers: a document class or a field
    declaration. *)
Inductive dtype : Type :=
| DTClass (c : doc_class)
| DTField (f : field_decl).

(** [isinstance(doc_type, (ListField, DictField, MapField))] *)
Definition is_complex_dtype (doc_type : option dtype) : bool :=
  match doc_type with
  | Some (DTField (ComplexField _ _)) => true
  | _ => false
  end.

(** Database handles *)
Inductive db_handle : Type :=
| ClassDb (c : doc_class)     (* doc_type._get_db() *)
| SyncDb (alias : string)     (* get_db(alias) *)
| AsyncDb (alias : string).   (* get_async_db(alias) *)

(** The calls a fetcher issues, in the order it issues them. *)
Inductive io_call : Type :=
| InBulk (c : doc_class) (refs : list oid)        (* c.objects.in_bulk(refs) *)
| AsyncInBulk (c : doc_class) (refs : list oid)   (* c.objects.async_in_bulk(refs) *)
| AsyncGet (c : doc_class) (ref_id : oid)         (* c.objects.async_get(id=ref_id) *)
| Find (db : db_handle) (collection : string) (refs : list oid).
                             (* db[collection].find({"_id": {"$in": refs}}) *)

(** The physical collection a call reads and the identifiers it asks for *)
Definition call_collection (c : io_call) : string :=
  match c with
  | InBulk k _ | AsyncInBulk k _ | AsyncGet k _ => cls_collection k
  | Find _ col _ => col
  end.

Definition call_ids (c : io_call) : list oid :=
  match c with
  | InBulk _ refs | AsyncInBulk _ refs | Find _ _ refs => refs
  | AsyncGet _ i => [i]
  end.

(** *** [x.capitalize()] and [collection.split("_")] on ASCII strings *)

Definition upper (c : ascii) : ascii :=
  let n := nat_of_ascii c in
  if (97 <=? n)%nat && (n <=? 122)%nat then ascii_of_nat (n - 32) else c.

Definition lower (c : ascii) : ascii :=
  let n := nat_of_ascii c in
  if (65 <=? n)%nat && (n <=? 90)%nat then ascii_of_nat (n + 32) else c.

Fixpoint map_string (f : ascii -> ascii) (s : string) : string :=
  match s with
  | EmptyString => EmptyString
  | String c rest => String (f c) (map_string f rest)
  end.

Definition capitalize (s : string) : string :=
  match s with
  | EmptyString => EmptyString
  | String c rest => String (upper c) (map_string lower rest)
  end.

(** [s.split("_")], with the piece read so far in [cur] *)
Fixpoint split_underscore_from (cur : string) (s : string) : list string :=
  match s with
  | EmptyString => [cur]
  | String c rest =>
      if Ascii.eqb c "_"%char then cur :: split_underscore_from EmptyString rest
      else split_underscore_from (cur ++ String c EmptyString) rest
  end.

Definition split_underscore (s : string) : list string :=
  split_underscore_from EmptyString s.

(** The pieces of [collection.split("_")], each capitalized, joined
    without a separator *)
Definition class_name_of_collection (collection : string) : string :=
  fold_right String.append EmptyString (map capitalize (split_underscore collection)).

Section Fetcher.
Variable registry : string -> option doc_class.
Variable from_son :
  doc_class -> list (string * value) ->
  result (doc_head * list (string * value)).
(** The query primitives: what each call returns *)
Variable in_bulk : doc_class -> list oid -> result (list (oid * value)).
Variable async_in_bulk : doc_class -> list oid -> result (list (oid * value)).
Variable async_get : doc_class -> oid -> result value.
Variable find : db_handle -> string -> list oid -> result (list (list (string * value))).

(** The fetcher's local state: [object_map], and the calls issued. *)
Definition fetch_state : Type := objmap * list io_call.

(** [[dbref for dbref in dbrefs if (col_name, dbref) not in object_map]];
    the set is read in the order of [elements]. *)
Definition pending (col_name : string) (dbrefs : gset oid) (object_map : objmap)
  : list oid :=
  filter (fun dbref => object_map !! (col_name, dbref) = None) (elements dbrefs).

(** [for key, doc in references.items(): object_map[(col_name, key)] = doc] *)
Definition store_references (col_name : string)
    (references : list (oid * value)) (object_map : objmap) : objmap :=
  fold_left (fun om '(key, doc) => <[(col_name, key) := doc]> om)
            references object_map.

(** [cls._from_son(ref)] as a document value *)
Definition materialise_row (c : doc_class) (ref : list (string * value))
  : result value :=
  let* (h, d) := from_son c ref in
  Ok (VDoc h d).

(** [object_map[(collection, doc.id)] = doc] *)
Definition store_doc (collection : string) (doc : value) (object_map : objmap)
  : result objmap :=
  let* i := attr_id doc in
  Ok (<[(collection, i) := doc]> object_map).

(** Lines 195-197 and 439-441: rows of a typed generic query *)
Definition store_typed_rows (c : doc_class) (collection : string)
    (rows : list (list (string * value))) (object_map : objmap) : result objmap :=
  foldM (fun om ref =>
           let* doc := materialise_row c ref in
           store_doc collection doc om)
        object_map rows.

(** Lines 202-211 and 447-456: rows of an untyped generic query, where
    [doc_type] is falsy, here [None]. *)
Definition store_untyped_rows (collection : string)
    (rows : list (list (string * value))) (object_map : objmap) : result objmap :=
  foldM (fun om ref =>
           let* c :=
             if dict_has "_cls" ref then
               let* cls_name := getitem "_cls" ref in
               registry_get registry cls_name
             else
               registry_get registry (VStr (class_name_of_collection collection)) in
           let* doc := materialise_row c ref in
           store_doc collection doc om)
        object_map rows.

(** [db[collection]]: the name must be a string *)
Definition collection_name_of_key (collection : rkey) : result string :=
  match collection with
  | KName s => Ok s
  | KClass _ => Err TypeError
  end.

(** Lines 183-211 and 424-456: a bucket whose key has no [objects].
    [typed_db] is the database of a truthy [doc_type], [default_db] the
    one used without it; the two fetchers differ in these only. *)
Definition fetch_generic (typed_db : doc_class -> db_handle)
    (default_db : db_handle) (doc_type : option dtype) (st : fetch_state)
    (collection : rkey) (dbrefs : gset oid) : result fetch_state :=
  let '(object_map, calls) := st in
  if is_complex_dtype doc_type then Ok st
  else
    match doc_type with
    | Some (DTClass t) =>
        let* name := collection_name_of_key collection in
        let refs := pending name dbrefs object_map in
        let* references := find (typed_db t) name refs in
        let* om := store_typed_rows t name references object_map in
        Ok (om, app calls [Find (typed_db t) name refs])
    | Some (DTField _) => Err AttributeError
    | None =>
        let* name := collection_name_of_key collection in
        let refs := pending name dbrefs object_map in
        let* references := find default_db name refs in
        let* om := store_untyped_rows name references object_map in
        Ok (om, app calls [Find default_db name refs])
    end.

(** [getattr(collection, "objects", None) is not None] *)
Definition ref_document_cls_exists (collection : rkey) : option doc_class :=
  match collection with
  | KClass c => if cls_objects c then Some c else None
  | KName _ => None
  end.

(** One round of the loop of [DeReference._fetch_objects], lines
    170-211. *)
Definition fetch_bucket (doc_type : option dtype) (st : fetch_state)
    (b : rkey * gset oid) : result fetch_state :=
  let '(collection, dbrefs) := b in
  match ref_document_cls_exists collection with
  | Some c =>
      let '(object_map, calls) := st in
      let col_name := cls_collection c in
      let refs := pending col_name dbrefs object_map in
      let* references := in_bulk c refs in
      Ok (store_references col_name references object_map,
          app calls [InBulk c refs])
  | None =>
      fetch_generic ClassDb (SyncDb DEFAULT_CONNECTION_NAME)
                    doc_type st collection dbrefs
  end.

(** [DeReference._fetch_objects(self, doc_type=None)], reading
    [self.reference_map] *)
Definition fetch_objects (reference_map : refmap) (doc_type : option dtype)
  : result fetch_state :=
  foldM (fetch_bucket doc_type) (∅, []) reference_map.

(** Lines 413-420: the one-at-a-time fallback.  An exception of
    [async_get] is caught and the identifier is skipped. *)
Fixpoint fetch_individually (c : doc_class) (refs : list oid)
  : list (oid * value) :=
  match refs with
  | [] => []
  | ref_id :: rest =>
      match async_get c ref_id with
      | Ok doc => (ref_id, doc) :: fetch_individually c rest
      | Err _ => fetch_individually c rest
      end
  end.

(** [doc_type._meta.get("db_alias", DEFAULT_CONNECTION_NAME)] *)
Definition meta_db_alias (c : doc_class) : string :=
  match cls_db_alias c with
  | Some a => a
  | None => DEFAULT_CONNECTION_NAME
  end.

(** One round of the loop of [AsyncDeReference._async_fetch_objects],
    lines 401-456. *)
Definition async_fetch_bucket (doc_type : option dtype) (st : fetch_state)
    (b : rkey * gset oid) : result fetch_state :=
  let '(collection, dbrefs) := b in
  match ref_document_cls_exists collection with
  | Some c =>
      let '(object_map, calls) := st in
      let col_name := cls_collection c in
      let refs := pending col_name dbrefs object_map in
      if cls_async_in_bulk c then
        let* references := async_in_bulk c refs in
        Ok (store_references col_name references object_map,
            app calls [AsyncInBulk c refs])
      else
        let references := fetch_individually c refs in
        Ok (store_references col_name references object_map,
            app calls (map (AsyncGet c) refs))
  | None =>
      fetch_generic (fun t => AsyncDb (meta_db_alias t))
                    (AsyncDb DEFAULT_CONNECTION_NAME)
                    doc_type st collection dbrefs
  end.

(** [AsyncDeReference._async_fetch_objects(self, doc_type=None)] *)
Definition async_fetch_objects (reference_map : refmap) (doc_type : option dtype)
  : result fetch_state :=
  foldM (async_fetch_bucket doc_type) (∅, []) reference_map.
End Fetcher.

(** ** The entry point [DeReference.__call__] *)

(** [while hasattr(doc_type, "field"): doc_type = doc_type.field] *)
Fixpoint unwrap_field (doc_type : field_decl) : option field_decl :=
  match doc_type with
  | ComplexField _ (Some inner) => unwrap_field inner
  | ComplexField _ None => None
  | _ => Some doc_type
  end.

(** [i.__class__ == doc_type] *)
Definition has_class (doc_type : doc_class) (i : value) : bool :=
  match i with
  | VDoc h _ => bool_decide (doc_cls h = doc_type)
  | _ => false
  end.

(** [isinstance(v, (DBRef, Document))] *)
Definition is_DBRef_or_Document (v : value) : bool :=
  match v with
  | DBRef _ _ | LazyReference _ _ => true
  | VDoc h _ => cls_toplevel (doc_cls h)
  | _ => false
  end.

Section Call.
Variable registry : string -> option doc_class.
Variable from_son :
  doc_class -> list (string * value) ->
  result (doc_head * list (string * value)).
Variable in_bulk : doc_class -> list oid -> result (list (oid * value)).
Variable find : db_handle -> string -> list oid -> result (list (list (string * value))).
(** [field.to_python(v)] of the ReferenceField with this target and
    [dbref] flag *)
Variable to_python : doc_class -> bool -> value -> result value.

(** Lines 73-97: [_get_items_from_list] and [_get_items_from_dict], on
    one element [v].  A tuple is no list. *)
Fixpoint get_items_from (fuel : nat) (t : doc_class) (dbref : bool) (v : value)
  : result value :=
  match fuel with
  | O => Err OutOfFuel
  | S fuel' =>
      match v with
      | VDict _ kvs =>
          let* new_items :=
            mapM_r (fun kv => let* w := get_items_from fuel' t dbref (snd kv) in
                              Ok (fst kv, w)) kvs in
          Ok (VDict PyDict new_items)
      | VList PyTuple _ => to_python t dbref v
      | VList _ xs =>
          let* new_items := mapM_r (get_items_from fuel' t dbref) xs in
          Ok (VList PyList new_items)
      | _ => if is_DBRef_or_Document v then Ok v else to_python t dbref v
      end
  end.

(** Lines 99-102: the conversion applied to [items] itself *)
Definition get_items (fuel : nat) (t : doc_class) (dbref : bool) (items : value)
  : result value :=
  match items with
  | VDict _ _ => get_items_from fuel t dbref items
  | _ =>
      let* xs := scan_iterator items in
      let* new_items := mapM_r (get_items_from fuel t dbref) xs in
      Ok (VList PyList new_items)
  end.

(** [DeReference.__call__(self, items, max_depth=1, instance=None,
    name=None)].  The instance is a document or a document class. *)
Definition dereference (fuel : nat) (items : value) (max_depth : Z)
    (instance : option doc_head) (name : option string) : result value :=
  match items with
  | VNone | VStr _ => Ok items
  | _ =>
      let resolve (items : value) (doc_type : option dtype) :=
        let* reference_map :=
          find_references registry max_depth fuel items 0%Z in
        let* (object_map, _) :=
          fetch_objects registry from_son in_bulk find reference_map doc_type in
        attach_objects registry from_son object_map max_depth
                       fuel items 0%Z instance name in
      match instance with
      | Some inst =>
          let doc_type :=
            match name with
            | Some n =>
                match dict_get n (doc_fields inst) with
                | Some f => unwrap_field f
                | None => None
                end
            | None => None
            end in
          match doc_type with
          | Some (ReferenceField t dbref) =>
              let* elems := scan_iterator items in
              if forallb (has_class t) elems then Ok items
              else if negb dbref then
                let* items' := get_items fuel t dbref items in
                resolve items' (Some (DTClass t))
              else resolve items (Some (DTClass t))
          | Some f => resolve items (Some (DTField f))
          | None => resolve items None
          end
      | None => resolve items None
      end
  end.
End Call.

(** ** [async_switch_db] *)

(** The state of a document class the context manager touches: [_meta]
    and the class attributes.  Cached collections are opaque handles;
    [None] is the Python value [None]. *)
Record class_state : Type := {
  meta : gmap string string;
  attrs : gmap string (option nat)
}.

(** The context manager object *)
Record switch_db : Type := {
  sw_collection : option nat;
  sw_async_collection : option nat;
  sw_db_alias : string;
  sw_ori_db_alias : string
}.

(** [getattr(cls, attr, None)] *)
Definition getattr_or_None (cls : class_state) (attr : string) : option nat :=
  match attrs cls !! attr with
  | Some v => v
  | None => None
  end.

(** [hasattr(cls, attr)] *)
Definition hasattr (cls : class_state) (attr : string) : bool :=
  bool_decide (is_Some (attrs cls !! attr)).

(** [cls._meta.get("db_alias", DEFAULT_CONNECTION_NAME)] *)
Definition state_db_alias (cls : class_state) : string :=
  match meta cls !! "db_alias" with
  | Some a => a
  | None => DEFAULT_CONNECTION_NAME
  end.

(** [cls.attr = v] *)
Definition setattr (cls : class_state) (attr : string) (v : option nat) : class_state :=
  {| meta := meta cls; attrs := <[attr := v]> (attrs cls) |}.

(** [cls._meta["db_alias"] = alias] *)
Definition set_db_alias (cls : class_state) (alias : string) : class_state :=
  {| meta := <["db_alias" := alias]> (meta cls); attrs := attrs cls |}.

Section SwitchDb.
(** [ensure_async_connection(alias)] raises when the connection is not
    an async one. *)
Variable ensure_async_connection : string -> result unit.

(** [async_switch_db.__init__(self, cls, db_alias)] *)
Definition switch_db_init (cls : class_state) (db_alias : string) : switch_db :=
  {| sw_collection := None;
     sw_async_collection := None;
     sw_db_alias := db_alias;
     sw_ori_db_alias := state_db_alias cls |}.

(** [async_switch_db.__aenter__(self)]: the updated manager and class *)
Definition switch_db_aenter (self : switch_db) (cls : class_state)
  : result (switch_db * class_state) :=
  let* _ := ensure_async_connection (sw_db_alias self) in
  let self' :=
    {| sw_collection := getattr_or_None cls "_collection";
       sw_async_collection := getattr_or_None cls "_async_collection";
       sw_db_alias := sw_db_alias self;
       sw_ori_db_alias := sw_ori_db_alias self |} in
  let cls1 := set_db_alias cls (sw_db_alias self) in
  let cls2 := setattr cls1 "_collection" None in
  let cls3 :=
    if hasattr cls2 "_async_collection"
    then setattr cls2 "_async_collection" None
    else cls2 in
  Ok (self', cls3).

(** [async_switch_db.__aexit__(self, exc_type, exc_val, exc_tb)].
    [exc] is the exception of the body, if any; it is not read. *)
Definition switch_db_aexit (self : switch_db) (exc : option error)
    (cls : class_state) : class_state :=
  let cls1 := set_db_alias cls (sw_ori_db_alias self) in
  let cls2 := setattr cls1 "_collection" (sw_collection self) in
  if hasattr cls2 "_async_collection"
  then setattr cls2 "_async_collection" (sw_async_collection self)
  else cls2.
End SwitchDb.

(** ** Notions used to state the properties *)

(** Two fetch results carry the same Object Map (the same keys with the
    same values), or fail with the same exception. *)
Definition same_object_map (r1 r2 : result (objmap * list io_call)) : Prop :=
  match r1, r2 with
  | Ok (om1, _), Ok (om2, _) => om1 = om2
  | Err e1, Err e2 => e1 = e2
  | _, _ => False
  end.

(** A call asks collection [collection] for identifier [i]. *)
Definition requests (collection : string) (i : oid) (call : io_call) : bool :=
  String.eqb (call_collection call) collection
  && bool_decide (i ∈ call_ids call).

(** The number of calls that ask for [(collection, i)] *)
Definition times_requested (collection : string) (i : oid) (calls : list io_call)
  : nat :=
  length (List.filter (requests collection i) calls).

(** The nesting height of a value: a budget above it is enough for the
    scanner and, without materialisation, for the attacher. *)
Fixpoint height (v : value) : nat :=
  match v with
  | VList _ xs => S (foldr (fun x acc => Nat.max (height x) acc) 0 xs)
  | VDict _ kvs => S (foldr (fun kv acc => Nat.max (height (snd kv)) acc) 0 kvs)
  | VDoc _ d => S (foldr (fun kv acc => Nat.max (height (snd kv)) acc) 0 d)
  | _ => 0
  end.

(** Trees the attacher takes without an exception of its own: a mapping
    with a ["_ref"] key holds a pointer under it, no mapping carries a
    discriminator alone (nothing is materialised through [_from_son]),
    and the field names of a document are distinct, as the keys of
    [_fields] are. *)
Fixpoint well_formed (v : value) : bool :=
  match v with
  | VList _ xs => forallb well_formed xs
  | VDict _ kvs =>
      match dict_get "_ref" kvs with
      | Some r => is_DBRef r
      | None =>
          negb (dict_has "_cls" kvs)
          && forallb (fun kv => well_formed (snd kv)) kvs
      end
  | VDoc h d =>
      bool_decide (NoDup (doc_fields h).*1)
      && forallb (fun kv => well_formed (snd kv)) d
  | _ => true
  end.

(** Positions in a tree: an index of a list, a key of a mapping, a field
    of a document. *)
Inductive step : Type :=
| Idx (k : nat)
| Key (s : string)
| Field (f : string).

(** The pointer at a position, if there is one.  A mapping with a
    ["_ref"] key is one tagged pointer: only that key leads on. *)
Fixpoint pointer_at (p : list step) (v : value) : option value :=
  match p with
  | [] => if is_DBRef v then Some v else None
  | s :: p' =>
      match s, v with
      | Idx k, VList _ xs =>
          match xs !! k with
          | Some x => pointer_at p' x
          | None => None
          end
      | Key key, VDict _ kvs =>
          if dict_has "_ref" kvs && negb (String.eqb key "_ref") then None
          else match dict_get key kvs with
               | Some x => pointer_at p' x
               | None => None
               end
      | Field f, VDoc _ d =>
          match dict_get f d with
          | Some x => pointer_at p' x
          | None => None
          end
      | _, _ => None
      end
  end.

(** The pointer's key is absent from the Object Map. *)
Definition missing (om : objmap) (ptr : value) : Prop :=
  match ptr with
  | DBRef c i | LazyReference c i => om !! (c, i) = None
  | _ => False
  end.

(** Every pointer of [v] that is missing from the Object Map is at the
    same position in [v']. *)
Definition keeps_missing (om : objmap) (v v' : value) : Prop :=
  forall p ptr,
    pointer_at p v = Some ptr -> missing om ptr -> pointer_at p v' = Some ptr.

(** The kind of a container and the number of its elements *)
Definition container_kind (v : value) : option (list_kind + dict_kind) :=
  match v with
  | VList k _ => Some (inl k)
  | VDict k _ => Some (inr k)
  | _ => None
  end.

Definition container_size (v : value) : nat :=
  match v with
  | VList _ xs => length xs
  | VDict _ kvs => length kvs
  | _ => 0
  end.

(** A mapping with a ["_ref"] key: one tagged pointer *)
Definition is_tagged (v : value) : bool :=
  match v with
  | VDict _ kvs => dict_has "_ref" kvs
  | _ => false
  end.

(** A mapping that carries a discriminator and no ["_ref"]: the attacher
    materialises it. *)
Definition is_discriminated (v : value) : bool :=
  match v with
  | VDict _ kvs => negb (dict_has "_ref" kvs) && dict_has "_cls" kvs
  | _ => false
  end.

(** The kind of the container a call with this owner and field name
    returns for [items]: with both, a tuple stays a tuple and every other
    container is tracked by the owner and name of the call; without one of
    them the container is a plain list or dict. *)
Definition result_kind (instance : option doc_head) (name : option string)
    (items : value) : option (list_kind + dict_kind) :=
  match instance with
  | Some inst =>
      if name_truthy name then
        match items with
        | VList PyTuple _ => Some (inl PyTuple)
        | VList (EmbeddedDocumentList _ _) _ =>
            Some (inl (EmbeddedDocumentList inst name))
        | VList _ _ => Some (inl (BaseList inst name))
        | VDict _ _ => Some (inr (BaseDict inst name))
        | _ => None
        end
      else
        match items with
        | VList _ _ => Some (inl PyList)
        | VDict _ _ => Some (inr PyDict)
        | _ => None
        end
  | None =>
      match items with
      | VList _ _ => Some (inl PyList)
      | VDict _ _ => Some (inr PyDict)
      | _ => None
      end
  end.

(** What is assumed of the recursive method on values below [bound] *)
Definition rec_ok (object_map : objmap) (rec : attach_fn) (bound : nat) : Prop :=
  forall v depth inst name,
    is_container v = true -> well_formed v = true -> height v < bound ->
    exists out, rec v depth inst name = Ok out /\ keeps_missing object_map v out.

(** The value a field holds after the loop, against its first value *)
Definition field_kept (object_map : objmap) (d d2 : list (string * value))
    (f : string) : Prop :=
  match dict_get f d with
  | Some v => exists y, dict_get f d2 = Some y /\ keeps_missing object_map v y
  | None => dict_get f d2 = None
  end.

(** [om'] has every key of [om]. *)
Definition grows (om om' : objmap) : Prop :=
  forall key, is_Some (om !! key) -> is_Some (om' !! key).

(** What one round of the loop adds to the calls: at most one call, for
    identifiers that are pending, each once. *)
Definition round_ok (om : objmap) (later : list io_call) : Prop :=
  forall call, call ∈ later ->
    NoDup (call_ids call)
    /\ forall i, i ∈ call_ids call -> om !! (call_collection call, i) = None.

(** ** A small schema, registry and store used by the examples *)

Module Fixture.
Definition User : doc_class :=
  {| cls_name := "User"; cls_collection := "users"; cls_objects := true;
     cls_async_in_bulk := true; cls_toplevel := true; cls_db_alias := None |}.

Definition Post : doc_class :=
  {| cls_name := "Post"; cls_collection := "posts"; cls_objects := true;
     cls_async_in_bulk := false; cls_toplevel := true; cls_db_alias := None |}.

(** An older record type: no [async_in_bulk] on its queryset *)
Definition Member : doc_class :=
  {| cls_name := "Member"; cls_collection := "users"; cls_objects := true;
     cls_async_in_bulk := false; cls_toplevel := true; cls_db_alias := None |}.

Definition registry (name : string) : option doc_class :=
  if String.eqb name "User" then Some User
  else if String.eqb name "Post" then Some Post
  else if String.eqb name "Member" then Some Member
  else None.

Definition user_fields : list (string * field_decl) :=
  [("id", PlainField); ("name", PlainField)].

Definition post_fields : list (string * field_decl) :=
  [("id", PlainField);
   ("author", ReferenceField User true);
   ("reviewer", TypedField User);   (* a LazyReferenceField *)
   ("likes", ComplexField ListField (Some (ReferenceField User true)))].

Definition user_head (handle : nat) : doc_head :=
  {| doc_handle := handle; doc_cls := User; doc_fields := user_fields |}.

Definition post_head : doc_head :=
  {| doc_handle := 10; doc_cls := Post; doc_fields := post_fields |}.

Definition alice : value :=
  VDoc (user_head 1) [("id", ObjectId 1); ("name", VStr "alice")].

(** The stored documents: user 1 is stored, nothing else is. *)
Definition stored (c : doc_class) (i : oid) : option value :=
  if String.eqb (cls_collection c) "users" && Nat.eqb i 1 then Some alice
  else None.

Definition in_bulk (c : doc_class) (refs : list oid)
  : result (list (oid * value)) :=
  Ok (omap (fun i => match stored c i with
                     | Some d => Some (i, d)
                     | None => None
                     end) refs).

Definition async_get (c : doc_class) (i : oid) : result value :=
  match stored c i with
  | Some d => Ok d
  | None => Err DoesNotExist
  end.

(** A queryset whose [async_get] fails in the driver for identifier 2 *)
Definition flaky_get (c : doc_class) (i : oid) : result value :=
  if Nat.eqb i 2 then Err TransportError else async_get c i.

(** Raw rows: the row of user 1 in collection "users" of any database *)
Definition find (db : db_handle) (collection : string) (refs : list oid)
  : result (list (list (string * value))) :=
  Ok (omap (fun i =>
              if String.eqb collection "users" && Nat.eqb i 1
              then Some [("_id", ObjectId 1); ("name", VStr "alice")]
              else None) refs).

(** [_from_son]: the primary key ["_id"] is stored as field ["id"]. *)
Definition from_son (c : doc_class) (son : list (string * value))
  : result (doc_head * list (string * value)) :=
  Ok ({| doc_handle := 0; doc_cls := c;
         doc_fields := if String.eqb (cls_name c) "User" then user_fields else [] |},
      map (fun kv => (if String.eqb (fst kv) "_id" then "id" else fst kv, snd kv)) son).

(** [ReferenceField.to_python]: a bare identifier becomes a DBRef. *)
Definition to_python (t : doc_class) (dbref : bool) (v : value) : result value :=
  match v with
  | ObjectId i => Ok (DBRef (cls_collection t) i)
  | _ => Ok v
  end.

(** A post whose author and reviewer are the same user; the reviewer is
    a deferred pointer. *)
Definition post : value :=
  VDoc post_head
    [("id", ObjectId 10);
     ("author", DBRef "users" 1);
     ("reviewer", LazyReference "users" 1);
     ("likes", VList PyList [DBRef "users" 1; DBRef "users" 2])].

Definition object_map : objmap := {[ ("users", 1) := alice ]}.

(** A class state for the database switch *)
Definition group_state : class_state :=
  {| meta := {[ "collection" := "group" ]};
     attrs := {[ "_collection" := Some 3 ]} |}.
End Fixture.

(** A post whose author is a user that is not stored, next to a bare
    pointer to the same user. *)
Definition orphan_post : value :=
  VDoc Fixture.post_head [("id", ObjectId 11); ("author", DBRef "users" 5)].

Definition orphan_tree : value :=
  VList PyList [orphan_post; DBRef "users" 5].


(** The class inside [async with async_switch_db(Group, "testdb-1")], and
    after the body cached a collection *)
Definition group_entered : class_state :=
  setattr (set_db_alias Fixture.group_state "testdb-1") "_collection" None.

Definition group_after_body : class_state :=
  setattr group_entered "_collection" (Some 4).

Definition always_async (alias : string) : result unit := Ok tt.

(** ** [async_switch_collection] *)

(** A document class as [async_switch_collection] sees it: the state of
    [class_state] and the classmethod [_get_collection_name], given by the
    name it returns for a state of the class. *)
Record named_class : Type := {
  nc_state : class_state;
  nc_get_collection_name : class_state -> string
}.

(** [cls._get_collection_name()] *)
Definition collection_name_of (cls : named_class) : string :=
  nc_get_collection_name cls (nc_state cls).

(** The context manager object.  [ori_async_collection] is first assigned
    in [__aenter__]: [None] stands for the attribute not being set. *)
Record switch_collection : Type := {
  sc_ori_collection : option nat;
  sc_ori_async_collection : option (option nat);
  sc_ori_get_collection_name : class_state -> string;
  sc_collection_name : string
}.

Section SwitchCollection.
Variable ensure_async_connection : string -> result unit.
(** [cls._get_db_alias()] *)
Variable get_db_alias : class_state -> string.

(** [async_switch_collection.__init__(self, cls, collection_name)] *)
Definition switch_collection_init (cls : named_class) (collection_name : string)
  : switch_collection :=
  {| sc_ori_collection := None;
     sc_ori_async_collection := None;
     sc_ori_get_collection_name := nc_get_collection_name cls;
     sc_collection_name := collection_name |}.

(** [async_switch_collection.__aenter__(self)] *)
Definition switch_collection_aenter (self : switch_collection) (cls : named_class)
  : result (switch_collection * named_class) :=
  let* _ := ensure_async_connection (get_db_alias (nc_state cls)) in
  let self' :=
    {| sc_ori_collection := getattr_or_None (nc_state cls) "_collection";
       sc_ori_async_collection :=
         Some (getattr_or_None (nc_state cls) "_async_collection");
       sc_ori_get_collection_name := sc_ori_get_collection_name self;
       sc_collection_name := sc_collection_name self |} in
  let st2 := setattr (nc_state cls) "_collection" None in
  let st3 :=
    if hasattr st2 "_async_collection"
    then setattr st2 "_async_collection" None
    else st2 in
  Ok (self',
      {| nc_state := st3;
         nc_get_collection_name := fun _ => sc_collection_name self |}).

(** [async_switch_collection.__aexit__(self, exc_type, exc_val, exc_tb)].
    Reading [self.ori_async_collection] before [__aenter__] assigned it
    raises AttributeError. *)
Definition switch_collection_aexit (self : switch_collection) (exc : option error)
    (cls : named_class) : result named_class :=
  let st1 := setattr (nc_state cls) "_collection" (sc_ori_collection self) in
  let* st2 :=
    if hasattr st1 "_async_collection" then
      match sc_ori_async_collection self with
      | Some c => Ok (setattr st1 "_async_collection" c)
      | None => Err AttributeError
      end
    else Ok st1 in
  Ok {| nc_state := st2;
        nc_get_collection_name := sc_ori_get_collection_name self |}.
End SwitchCollection.

(** The class of the fixture with its collection name read from
    [_meta["collection"]] *)
Definition meta_collection (cls : class_state) : string :=
  match meta cls !! "collection" with
  | Some n => n
  | None => "None"
  end.

Definition group_class : named_class :=
  {| nc_state := Fixture.group_state; nc_get_collection_name := meta_collection |}.

(** The class inside [async with async_switch_collection(Group,
    "group_backup")], and after a body that cached a collection and
    replaced the name getter *)
Definition group_switched : named_class :=
  {| nc_state := setattr Fixture.group_state "_collection" None;
     nc_get_collection_name := fun _ => "group_backup" |}.

Definition group_switched_after_body : named_class :=
  {| nc_state := setattr (nc_state group_switched) "_collection" (Some 9);
     nc_get_collection_name := fun _ => "elsewhere" |}.

Definition group_switch : switch_collection :=
  {| sc_ori_collection := Some 3;
     sc_ori_async_collection := Some None;
     sc_ori_get_collection_name := meta_collection;
     sc_collection_name := "group_backup" |}.

(** ** Notions for the further properties *)

(** [c in s] for a character *)
Fixpoint has_char (c : ascii) (s : string) : bool :=
  match s with
  | EmptyString => false
  | String d rest => Ascii.eqb d c || has_char c rest
  end.

(** Every bucket of the Reference Map is keyed by a document class that
    has [objects]. *)
Definition typed_buckets (rm : refmap) : Prop :=
  forall key ids, (key, ids) ∈ rm ->
    exists c, key = KClass c /\ cls_objects c = true.

(** The identifier is asked for by a bucket on this collection. *)
Definition requested_in (rm : refmap) (collection : string) (i : oid) : Prop :=
  exists c ids, (KClass c, ids) ∈ rm /\ cls_collection c = collection /\ i ∈ ids.

(** The state of the blocking fetcher's loop after the buckets [done_],
    against the documents [stored] in each collection: every identifier
    of a processed bucket reads as it is stored, and nothing else is in
    the Object Map. *)
Definition fetched (stored : string -> oid -> option value)
    (done_ : refmap) (om : objmap) : Prop :=
  (forall c ids i, (KClass c, ids) ∈ done_ -> i ∈ ids ->
     om !! (cls_collection c, i) = stored (cls_collection c) i)
  /\ (forall col i o, om !! (col, i) = Some o ->
        stored col i = Some o /\ requested_in done_ col i).

(** The fixture's store by collection name *)
Definition stored_by_collection (collection : string) (i : oid) : option value :=
  if String.eqb collection "users" && Nat.eqb i 1 then Some Fixture.alice
  else None.

(** ** Which pointers the scanner collects *)

(** The key a bucket of a nested scan is merged under, lines 145-150 *)
Definition rekey (field_cls : option doc_class) (key : rkey) : rkey :=
  match field_cls with
  | Some c => if cls_toplevel c then KClass c else key
  | None => key
  end.

(** The element of a container that a step leads to *)
Definition element (s : step) (items : value) : option value :=
  match s, items with
  | Idx k, VList _ xs => xs !! k
  | Key key, VDict _ kvs => dict_get key kvs
  | _, _ => None
  end.

(** The bucket key and identifier of a mapping tagged with ["_ref"] *)
Definition tagged_entry (registry : string -> option doc_class)
    (kvs : list (string * value)) : option (rkey * oid) :=
  match getitem "_cls" kvs with
  | Ok cls_name =>
      match registry_get registry cls_name with
      | Ok c =>
          match getitem "_ref" kvs with
          | Ok r =>
              match attr_id r with
              | Ok i => Some (KClass c, i)
              | Err _ => None
              end
          | Err _ => None
          end
      | Err _ => None
      end
  | Err _ => None
  end.

(** [p = [Key "_ref"]] *)
Definition is_ref_step (p : list step) : bool :=
  match p with
  | [Key key] => String.eqb key "_ref"
  | _ => false
  end.

(** The pointer at position [p] of [items], seen from a scan of [items] at
    [depth], with the bucket key it is collected under; [None] when the
    scan does not get there.  The position of a tagged mapping's pointer
    ends in [Key "_ref"].
    - Nothing is collected from [items] at [depth >= max_depth].
    - A container nested in a container is read at the same depth.
    - A record is read where it is an element of a container: its pointer
      fields are collected under the declared type, its container fields
      are read one level deeper and their buckets merged under the inner
      declared type when that is a top-level class.
    - A deferred pointer is not collected. *)
Fixpoint collected_at (registry : string -> option doc_class) (max_depth : Z)
    (p : list step) (items : value) (depth : Z) : option (rkey * oid) :=
  if (max_depth <=? depth)%Z then None
  else
    match p with
    | [] => None
    | s :: p' =>
        match element s items with
        | Some (DBRef c i) =>
            match p' with [] => Some (KName c, i) | _ => None end
        | Some (VList k xs) => collected_at registry max_depth p' (VList k xs) depth
        | Some (VDict k kvs) =>
            if dict_has "_ref" kvs then
              if is_ref_step p' then tagged_entry registry kvs else None
            else collected_at registry max_depth p' (VDict k kvs) depth
        | Some (VDoc h d) =>
            match p' with
            | Field f :: p'' =>
                match dict_get f (doc_fields h) with
                | Some fd =>
                    match get_or_None f d with
                    | DBRef c i =>
                        match p'', field_document_type fd with
                        | [], Ok t => Some (KClass t, i)
                        | _, _ => None
                        end
                    | VList k xs =>
                        if (depth + 1 <=? max_depth)%Z then
                          match collected_at registry max_depth p'' (VList k xs)
                                             (depth + 1)%Z with
                          | Some (key, i) => Some (rekey (field_cls_of fd) key, i)
                          | None => None
                          end
                        else None
                    | VDict k kvs =>
                        if dict_has "_ref" kvs then
                          if is_ref_step p'' then tagged_entry registry kvs else None
                        else if (depth + 1 <=? max_depth)%Z then
                          match collected_at registry max_depth p'' (VDict k kvs)
                                             (depth + 1)%Z with
                          | Some (key, i) => Some (rekey (field_cls_of fd) key, i)
                          | None => None
                          end
                        else None
                    | _ => None
                    end
                | None => None
                end
            | _ => None
            end
        | _ => None
        end
    end.

(** Every bucket of [rm] is within the bucket of the same key of [rm']. *)
Definition buckets_le (rm rm' : refmap) : Prop :=
  forall key, bucket key rm ⊆ bucket key rm'.

(** [collected_at] from an element [x] of the container, for the rest
    [p'] of the position *)
Definition collected_from (registry : string -> option doc_class) (max_depth : Z)
    (p' : list step) (x : value) (depth : Z) : option (rkey * oid) :=
  match x with
  | DBRef c i => match p' with [] => Some (KName c, i) | _ => None end
  | VList k xs => collected_at registry max_depth p' (VList k xs) depth
  | VDict k kvs =>
      if dict_has "_ref" kvs then
        if is_ref_step p' then tagged_entry registry kvs else None
      else collected_at registry max_depth p' (VDict k kvs) depth
  | VDoc h d =>
      match p' with
      | Field f :: p'' =>
          match dict_get f (doc_fields h) with
          | Some fd =>
              match get_or_None f d with
              | DBRef c i =>
                  match p'', field_document_type fd with
                  | [], Ok t => Some (KClass t, i)
                  | _, _ => None
                  end
              | VList k xs =>
                  if (depth + 1 <=? max_depth)%Z then
                    match collected_at registry max_depth p'' (VList k xs)
                                       (depth + 1)%Z with
                    | Some (key, i) => Some (rekey (field_cls_of fd) key, i)
                    | None => None
                    end
                  else None
              | VDict k kvs =>
                  if dict_has "_ref" kvs then
                    if is_ref_step p'' then tagged_entry registry kvs else None
                  else if (depth + 1 <=? max_depth)%Z then
                    match collected_at registry max_depth p'' (VDict k kvs)
                                       (depth + 1)%Z with
                    | Some (key, i) => Some (rekey (field_cls_of fd) key, i)
                    | None => None
                    end
                  else None
              | _ => None
              end
          | None => None
          end
      | _ => None
      end
  | _ => None
  end.

(** The keys of every mapping and the field names of every record are
    pairwise distinct, as the keys of a Python dict are. *)
Fixpoint distinct_keys (v : value) : bool :=
  match v with
  | VList _ xs => forallb distinct_keys xs
  | VDict _ kvs =>
      bool_decide (NoDup kvs.*1) && forallb (fun kv => distinct_keys (snd kv)) kvs
  | VDoc h d =>
      bool_decide (NoDup (doc_fields h).*1)
      && forallb (fun kv => distinct_keys (snd kv)) d
  | _ => true
  end.

(** Trees the scanner takes without an exception: a tagged mapping names
    a registered class and holds a value with an identifier under
    ["_ref"], and a field that holds a pointer is declared with a
    document type. *)
Fixpoint scannable (registry : string -> option doc_class) (v : value) : bool :=
  match v with
  | VList _ xs => forallb (scannable registry) xs
  | VDict _ kvs =>
      (if dict_has "_ref" kvs
       then match tagged_entry registry kvs with Some _ => true | None => false end
       else true)
      && forallb (fun kv => scannable registry (snd kv)) kvs
  | VDoc h d =>
      forallb (fun fld =>
                 match get_or_None (fst fld) d with
                 | DBRef _ _ =>
                     match field_document_type (snd fld) with
                     | Ok _ => true
                     | Err _ => false
                     end
                 | _ => true
                 end) (doc_fields h)
      && forallb (fun kv => scannable registry (snd kv)) d
  | _ => true
  end.

(** No deferred reference proxy occurs in the tree. *)
Fixpoint proxy_free (v : value) : bool :=
  match v with
  | VList _ xs => forallb proxy_free xs
  | VDict _ kvs => forallb (fun kv => proxy_free (snd kv)) kvs
  | VDoc _ d => forallb (fun kv => proxy_free (snd kv)) d
  | AsyncReferenceProxy _ _ => false
  | _ => true
  end.

(** The identifier is in a bucket of [rm] under [key]. *)
Definition collected (rm : refmap) (key : rkey) (i : oid) : Prop :=
  exists s, (key, s) ∈ rm /\ i ∈ s.
(** ** Which pointers the attacher replaces *)

(** The field names of every record are pairwise distinct, as the keys
    of [_fields] are. *)
Fixpoint distinct_fields (v : value) : bool :=
  match v with
  | VList _ xs => forallb distinct_fields xs
  | VDict _ kvs => forallb (fun kv => distinct_fields (snd kv)) kvs
  | VDoc h d =>
      bool_decide (NoDup (doc_fields h).*1)
      && forallb (fun kv => distinct_fields (snd kv)) d
  | _ => true
  end.

(** The value at a position of a tree *)
Fixpoint value_at (p : list step) (v : value) : option value :=
  match p with
  | [] => Some v
  | s :: p' =>
      match s, v with
      | Idx k, VList _ xs =>
          match xs !! k with
          | Some x => value_at p' x
          | None => None
          end
      | Key key, VDict _ kvs =>
          match dict_get key kvs with
          | Some x => value_at p' x
          | None => None
          end
      | Field f, VDoc _ d =>
          match dict_get f d with
          | Some x => value_at p' x
          | None => None
          end
      | _, _ => None
      end
  end.

(** The position that is written for the pointer at [p]: the position of
    the tagged mapping for a pointer under ["_ref"], else [p]. *)
Fixpoint site (p : list step) : list step :=
  match p with
  | [] => []
  | s :: p' =>
      match s, p' with
      | Key key, [] => if String.eqb key "_ref" then [] else [s]
      | _, _ => s :: site p'
      end
  end.

(** What a pointer or a tagged mapping is replaced by:
    [self.object_map.get((v.collection, v.id), v)] and
    [self.object_map.get((v["_ref"].collection, v["_ref"].id), v)] *)
Definition substitute (om : objmap) (v : value) : option value :=
  match v with
  | DBRef c i | LazyReference c i => Some (om_get om c i v)
  | VDict _ kvs =>
      match dict_get "_ref" kvs with
      | Some r =>
          match lookup_ref om r v with
          | Ok o => Some o
          | Err _ => None
          end
      | None => None
      end
  | _ => None
  end.

(** The value written for the pointer at position [p] of [items] by a
    call of the attacher on [items] at [depth]; [None] when the call does
    not get there.  The position of a tagged mapping's pointer ends in
    [Key "_ref"].
    - A tagged mapping is replaced as a whole.
    - A pointer that is an element of the container is replaced.
    - A container nested in the container is entered at the same depth
      when [depth + 1 <= max_depth].
    - A record is read where it is an element of the container: the
      pointers and tagged mappings its declared fields hold are replaced,
      the containers they hold are entered one level deeper when
      [depth + 1 <= max_depth]. *)
Fixpoint attached_at (om : objmap) (max_depth : Z)
    (p : list step) (items : value) (depth : Z) : option value :=
  if is_tagged items then
    if is_ref_step p then substitute om items else None
  else if is_discriminated items then None
  else
    match p with
    | [] => None
    | s :: p' =>
        match element s items with
        | Some (DBRef c i) =>
            match p' with [] => substitute om (DBRef c i) | _ => None end
        | Some (LazyReference c i) =>
            match p' with [] => substitute om (LazyReference c i) | _ => None end
        | Some (VList k xs) =>
            if (depth + 1 <=? max_depth)%Z
            then attached_at om max_depth p' (VList k xs) depth else None
        | Some (VDict k kvs) =>
            if (depth + 1 <=? max_depth)%Z
            then attached_at om max_depth p' (VDict k kvs) depth else None
        | Some (VDoc h d) =>
            match p' with
            | Field f :: p'' =>
                if dict_has f (doc_fields h) then
                  match get_or_None f d with
                  | DBRef c i =>
                      match p'' with
                      | [] => substitute om (DBRef c i)
                      | _ => None
                      end
                  | LazyReference c i =>
                      match p'' with
                      | [] => substitute om (LazyReference c i)
                      | _ => None
                      end
                  | VList k xs =>
                      if (depth + 1 <=? max_depth)%Z
                      then attached_at om max_depth p'' (VList k xs) (depth + 1)%Z
                      else None
                  | VDict k kvs =>
                      if dict_has "_ref" kvs then
                        if is_ref_step p'' then substitute om (VDict k kvs) else None
                      else if (depth + 1 <=? max_depth)%Z
                      then attached_at om max_depth p'' (VDict k kvs) (depth + 1)%Z
                      else None
                  | _ => None
                  end
                else None
            | _ => None
            end
        | _ => None
        end
    end.

(** No bucket of the Reference Map is empty. *)
Definition nonempty_buckets (rm : refmap) : Prop :=
  forall key s, (key, s) ∈ rm -> exists i : oid, i ∈ s.
(** ** The entry point [AsyncDeReference.__call__] *)

Section AsyncCall.
Variable registry : string -> option doc_class.
Variable from_son :
  doc_class -> list (string * value) ->
  result (doc_head * list (string * value)).
Variable async_in_bulk : doc_class -> list oid -> result (list (oid * value)).
Variable async_get : doc_class -> oid -> result value.
Variable find : db_handle -> string -> list oid -> result (list (list (string * value))).
Variable to_python : doc_class -> bool -> value -> result value.
Variable objectid_has_id : bool.

(** [AsyncDeReference.__call__(self, items, max_depth=1, instance=None,
    name=None)], lines 310-390, on [items] that is no QuerySet: the body
    of [DeReference.__call__] with the scanner and the attacher of the
    subclass and [_async_fetch_objects]. *)
Definition async_dereference (fuel : nat) (items : value) (max_depth : Z)
    (instance : option doc_head) (name : option string) : result value :=
  match items with
  | VNone | VStr _ => Ok items
  | _ =>
      let resolve (items : value) (doc_type : option dtype) :=
        let* reference_map :=
          async_find_references registry objectid_has_id max_depth
                                fuel items 0%Z in
        let* (object_map, _) :=
          async_fetch_objects registry from_son async_in_bulk async_get find
                              reference_map doc_type in
        async_attach_objects registry from_son objectid_has_id object_map
                             max_depth fuel items 0%Z instance name in
      match instance with
      | Some inst =>
          let doc_type :=
            match name with
            | Some n =>
                match dict_get n (doc_fields inst) with
                | Some f => unwrap_field f
                | None => None
                end
            | None => None
            end in
          match doc_type with
          | Some (ReferenceField t dbref) =>
              let* elems := scan_iterator items in
              if forallb (has_class t) elems then Ok items
              else if negb dbref then
                let* items' := get_items to_python fuel t dbref items in
                resolve items' (Some (DTClass t))
              else resolve items (Some (DTClass t))
          | Some f => resolve items (Some (DTField f))
          | None => resolve items None
          end
      | None => resolve items None
      end
  end.
End AsyncCall.

(** ** Positions in the conversion of bare identifiers *)

(** The value at a position that [_get_items_from_list] and
    [_get_items_from_dict] reach: through lists and mappings, down to a
    value that is neither.  A tuple is not entered. *)
Fixpoint leaf_at (p : list step) (v : value) : option value :=
  match p with
  | [] =>
      match v with
      | VDict _ _ => None
      | VList PyTuple _ => Some v
      | VList _ _ => None
      | _ => Some v
      end
  | s :: p' =>
      match s, v with
      | Idx _, VList PyTuple _ => None
      | Idx k, VList _ xs =>
          match xs !! k with
          | Some x => leaf_at p' x
          | None => None
          end
      | Key key, VDict _ kvs =>
          match dict_get key kvs with
          | Some x => leaf_at p' x
          | None => None
          end
      | _, _ => None
      end
  end.

(** What the conversion puts in the place of a value that is neither a
    list nor a mapping *)
Definition converted (to_python : doc_class -> bool -> value -> result value)
    (t : doc_class) (dbref : bool) (x : value) : result value :=
  if is_DBRef_or_Document x then Ok x else to_python t dbref x.
(** ** Notions for the generic branch of the fetcher *)

(** Every bucket of the Reference Map is keyed by a collection name. *)
Definition named_buckets (rm : refmap) : Prop :=
  forall key ids, (key, ids) ∈ rm -> exists name, key = KName name.

(** The identifier is asked for by a bucket on this collection name. *)
Definition requested_by_name (rm : refmap) (name : string) (i : oid) : Prop :=
  exists ids, (KName name, ids) ∈ rm /\ i ∈ ids.

(** The database the generic branch queries, lines 192 and 198 *)
Definition generic_db (doc_type : option dtype) : db_handle :=
  match doc_type with
  | Some (DTClass t) => ClassDb t
  | _ => SyncDb DEFAULT_CONNECTION_NAME
  end.

(** The class a raw row is materialised with, lines 195 and 202-210:
    [doc_type] when it is given, else the class the row's ["_cls"] names,
    else the class named after the collection. *)
Definition row_class (registry : string -> option doc_class)
    (doc_type : option dtype) (collection : string)
    (row : list (string * value)) : result doc_class :=
  match doc_type with
  | Some (DTClass t) => Ok t
  | _ =>
      if dict_has "_cls" row then
        let* cls_name := getitem "_cls" row in
        registry_get registry cls_name
      else registry_get registry (VStr (class_name_of_collection collection))
  end.

(** The document of the row stored in a collection under an identifier *)
Definition doc_of (registry : string -> option doc_class)
    (from_son : doc_class -> list (string * value) ->
                result (doc_head * list (string * value)))
    (rows_of : string -> oid -> option (list (string * value)))
    (doc_type : option dtype) (collection : string) (i : oid) : option value :=
  match rows_of collection i with
  | Some row =>
      match row_class registry doc_type collection row with
      | Ok c =>
          match from_son c row with
          | Ok (h, d) => Some (VDoc h d)
          | Err _ => None
          end
      | Err _ => None
      end
  | None => None
  end.

(** The state of the fetcher's loop after the buckets [done_] of the
    generic branch: every identifier of a processed bucket reads as the
    document of its stored row, and nothing else is in the Object Map. *)
Definition fetched_rows (doc_at : string -> oid -> option value)
    (done_ : refmap) (om : objmap) : Prop :=
  (forall name ids i, (KName name, ids) ∈ done_ -> i ∈ ids ->
     om !! (name, i) = doc_at name i)
  /\ (forall col i o, om !! (col, i) = Some o ->
        doc_at col i = Some o /\ requested_by_name done_ col i).

(** Raw rows that carry a discriminator: the row of user 1 in collection
    "users", and a [find] that answers from them *)
Definition fixture_rows (collection : string) (i : oid)
  : option (list (string * value)) :=
  if String.eqb collection "users" && Nat.eqb i 1
  then Some [("_id", ObjectId 1); ("_cls", VStr "User"); ("name", VStr "alice")]
  else None.

Definition fixture_find_rows (db : db_handle) (collection : string)
    (refs : list oid) : result (list (list (string * value))) :=
  Ok (omap (fixture_rows collection) refs).

(** A record type whose field [fans] is a list of references stored as
    bare identifiers *)
Definition album_head : doc_head :=
  {| doc_handle := 20; doc_cls := Fixture.Post;
     doc_fields :=
       [("id", PlainField);
        ("fans", ComplexField ListField (Some (ReferenceField Fixture.User false)))] |}.
(** ** Further fixtures and notions *)

(** The fixture's class after its alias was changed to ["a2"]: the state
    a manager meets when it is entered later than it was built *)
Definition group_on_a2 : class_state := set_db_alias Fixture.group_state "a2".

(** The fixture's class with a cached asynchronous collection, and the
    same class after a body that deleted the attribute *)
Definition group_async : class_state :=
  setattr Fixture.group_state "_async_collection" (Some 7).

Definition group_async_deleted : class_state :=
  {| meta := meta group_async;
     attrs := delete "_async_collection" (attrs group_async) |}.

(** The fixture's named class after its name getter was replaced: the
    class a collection switch meets when it is entered later than it was
    built *)
Definition group_renamed : named_class :=
  {| nc_state := Fixture.group_state;
     nc_get_collection_name := fun _ => "group_v2" |}.


(** The value a field of a record holds after the attacher's loop body
    ran at a depth beyond the bound: a pointer or a tagged mapping held
    by a declared field is replaced by its entry of the Object Map, if
    there is one; everything else, a container included, is as it
    was. *)
Definition field_after (om : objmap) (declared : bool) (v : value) : value :=
  if declared then
    match substitute om v with
    | Some o => o
    | None => v
    end
  else v.

(** The element [y] of the result for the element [x] of a container the
    attacher was called on at or beyond the bound: a pointer is replaced
    by its entry of the Object Map, if there is one; a record keeps its
    head and its fields are as [field_after] says; a nested container,
    tagged or not, and every other value is as it was. *)
Definition item_after (om : objmap) (x y : value) : Prop :=
  match x with
  | DBRef c i | LazyReference c i => y = om_get om c i x
  | VDoc h d =>
      exists d', y = VDoc h d'
                 /\ forall f, dict_get f d'
                              = field_after om (dict_has f (doc_fields h))
                                  <$> dict_get f d
  | _ => y = x
  end.

(** A tree three levels deep, seen where a field's list is reached at the
    bound: a nested list, a bare pointer and a record *)
Definition bound_tree : value :=
  VList PyList [VList PyList [DBRef "users" 1]; DBRef "users" 1; Fixture.post].

(** ** Facts about the error monad and the loops *)

Lemma bind_Ok {A B : Type} (m : result A) (k : A -> result B) (b : B) :
  bind m k = Ok b -> exists a, m = Ok a /\ k a = Ok b.
Proof. destruct m as [a|e]; simpl; [eauto | discriminate]. Qed.

Lemma foldM_app {A S : Type} (step : S -> A -> result S) (acc : S) (xs ys : list A) :
  foldM step acc (xs ++ ys) = let* mid := foldM step acc xs in foldM step mid ys.
Proof.
  revert acc. induction xs as [|x xs IH]; intros acc; simpl; [done|].
  destruct (step acc x) as [acc'|e]; simpl; [apply IH | done].
Qed.

Lemma foldM_ext {A S : Type} (f g : S -> A -> result S) (acc : S) (xs : list A) :
  (forall s x, x ∈ xs -> f s x = g s x) -> foldM f acc xs = foldM g acc xs.
Proof.
  revert acc. induction xs as [|x xs IH]; intros acc Hfg; simpl; [done|].
  rewrite Hfg by apply list_elem_of_here.
  destruct (g acc x) as [acc'|e]; simpl; [|done].
  apply IH. intros s y Hy. apply Hfg. by apply list_elem_of_further.
Qed.

Lemma mapM_r_ext {A B : Type} (f g : A -> result B) (xs : list A) :
  (forall x, x ∈ xs -> f x = g x) -> mapM_r f xs = mapM_r g xs.
Proof.
  induction xs as [|x xs IH]; intros Hfg; simpl; [done|].
  rewrite Hfg by apply list_elem_of_here.
  rewrite IH; [done|]. intros y Hy. apply Hfg. by apply list_elem_of_further.
Qed.

Lemma mapM_r_Ok {A B : Type} (f : A -> result B) (xs : list A) (ys : list B) :
  mapM_r f xs = Ok ys ->
  length ys = length xs /\
  forall k x, xs !! k = Some x -> exists y, ys !! k = Some y /\ f x = Ok y.
Proof.
  revert ys. induction xs as [|x xs IH]; intros ys; simpl.
  - intros [= <-]. split; [done|]. intros k x Hk. by destruct k.
  - intros H. apply bind_Ok in H as (y & Hy & H).
    apply bind_Ok in H as (ys' & Hys & [= <-]).
    destruct (IH _ Hys) as [Hlen Hall]. split; [simpl; congruence|].
    intros [|k] x' Hk; simpl in *.
    + injection Hk as <-. eauto.
    + by apply Hall.
Qed.

Lemma mapM_r_total {A B : Type} (f : A -> result B) (xs : list A) :
  (forall x, x ∈ xs -> exists y, f x = Ok y) -> exists ys, mapM_r f xs = Ok ys.
Proof.
  induction xs as [|x xs IH]; intros Hf; simpl; [eauto|].
  destruct (Hf x) as [y Hy]; [apply list_elem_of_here|]. rewrite Hy; simpl.
  destruct IH as [ys Hys].
  { intros z Hz. apply Hf. by apply list_elem_of_further. }
  rewrite Hys; simpl. eauto.
Qed.

(** ** Facts about dicts *)

Lemma dict_has_get {V : Type} (key : string) (d : list (string * V)) :
  dict_has key d = true <-> is_Some (dict_get key d).
Proof.
  unfold dict_has. destruct (dict_get key d); split; intros H; eauto.
  - discriminate.
  - by destruct H.
Qed.

Lemma dict_get_elem_of {V : Type} (key : string) (d : list (string * V)) (v : V) :
  dict_get key d = Some v -> (key, v) ∈ d.
Proof.
  induction d as [|[k w] rest IH]; simpl; [done|].
  destruct (String.eqb k key) eqn:Hk.
  - apply String.eqb_eq in Hk as ->. intros [= ->]. apply list_elem_of_here.
  - intros H. apply list_elem_of_further. by apply IH.
Qed.

Lemma dict_get_set_eq {V : Type} (key : string) (v : V) (d : list (string * V)) :
  dict_get key (dict_set key v d) = Some v.
Proof.
  induction d as [|[k w] rest IH]; simpl.
  - by rewrite String.eqb_refl.
  - destruct (String.eqb k key) eqn:Hk; simpl; by rewrite Hk.
Qed.

Lemma dict_get_set_ne {V : Type} (key key' : string) (v : V) (d : list (string * V)) :
  key ≠ key' -> dict_get key' (dict_set key v d) = dict_get key' d.
Proof.
  intros Hne. induction d as [|[k w] rest IH]; simpl.
  - destruct (String.eqb key key') eqn:Hk; [|done].
    by apply String.eqb_eq in Hk.
  - destruct (String.eqb k key) eqn:Hk; simpl.
    + apply String.eqb_eq in Hk as ->.
      destruct (String.eqb key key') eqn:Hk'; [|done].
      by apply String.eqb_eq in Hk'.
    + by rewrite IH.
Qed.

(** A write of the value a key already holds changes nothing. *)
Lemma dict_set_same {V : Type} (key : string) (v : V) (d : list (string * V)) :
  dict_get key d = Some v -> dict_set key v d = d.
Proof.
  induction d as [|[k w] rest IH]; simpl; [done|].
  destruct (String.eqb k key) eqn:Hk.
  - by intros [= ->].
  - intros H. by rewrite IH.
Qed.

(** ** Facts about height and well-formedness *)

Lemma height_elem (k : list_kind) (xs : list value) (x : value) :
  x ∈ xs -> height x < height (VList k xs).
Proof.
  simpl. induction xs as [|y xs IH]; intros Hin.
  - by apply elem_of_nil in Hin.
  - apply elem_of_cons in Hin as [->|Hin]; simpl; [lia|].
    specialize (IH Hin). lia.
Qed.

Lemma height_entries (kvs : list (string * value)) (key : string) (v : value) :
  (key, v) ∈ kvs ->
  height v < S (foldr (fun kv acc => Nat.max (height (snd kv)) acc) 0 kvs).
Proof.
  induction kvs as [|[k w] kvs IH]; intros Hin.
  - by apply elem_of_nil in Hin.
  - apply elem_of_cons in Hin as [[= <- <-]|Hin]; simpl; [lia|].
    specialize (IH Hin). lia.
Qed.

Lemma forallb_elem_of {A : Type} (f : A -> bool) (xs : list A) (x : A) :
  forallb f xs = true -> x ∈ xs -> f x = true.
Proof.
  induction xs as [|y xs IH]; simpl; intros Hall Hin.
  - by apply elem_of_nil in Hin.
  - apply andb_true_iff in Hall as [Hy Hall].
    apply elem_of_cons in Hin as [->|Hin]; [done|by apply IH].
Qed.

(** ** Facts about pointers that are missing from the Object Map *)

Lemma keeps_missing_refl (om : objmap) (v : value) : keeps_missing om v v.
Proof. by intros p ptr. Qed.

(** The substitution rule [object_map.get((c, i), v)] for a pointer [v] *)
Lemma keeps_missing_pointer (om : objmap) (v : value) (c : string) (i : oid) :
  v = DBRef c i \/ v = LazyReference c i ->
  keeps_missing om v (om_get om c i v).
Proof.
  intros Hv p ptr Hp Hmiss.
  assert (Hptr : p = [] /\ ptr = v).
  { destruct Hv as [-> | ->]; destruct p as [|[]]; simpl in Hp;
      (done || (injection Hp as <-; done)). }
  destruct Hptr as [-> ->]. unfold om_get.
  destruct Hv as [-> | ->]; simpl in Hmiss; by rewrite Hmiss.
Qed.

(** The same rule for a mapping tagged with ["_ref"] *)
Lemma keeps_missing_tagged (om : objmap) (k : dict_kind)
    (kvs : list (string * value)) (r : value) (c : string) (i : oid) :
  dict_get "_ref" kvs = Some r ->
  r = DBRef c i \/ r = LazyReference c i ->
  keeps_missing om (VDict k kvs) (om_get om c i (VDict k kvs)).
Proof.
  intros Hget Hr p ptr Hp Hmiss. unfold om_get.
  destruct (om !! (c, i)) eqn:Hom; [|done].
  exfalso. destruct p as [|[j|key|f] p']; simpl in Hp; try done.
  assert (Hhas : dict_has "_ref" kvs = true) by (apply dict_has_get; eauto).
  rewrite Hhas in Hp. destruct (String.eqb key "_ref") eqn:Hkey; simpl in Hp; [|done].
  apply String.eqb_eq in Hkey as ->. rewrite Hget in Hp.
  destruct Hr as [-> | ->]; destruct p' as [|[]]; simpl in Hp; try done;
    injection Hp as <-; simpl in Hmiss; congruence.
Qed.

(** ** The attacher on well-formed trees *)

Lemma dict_get_Forall2 (R : value -> value -> Prop)
    (kvs data : list (string * value)) (key : string) :
  Forall2 (fun a b => fst a = fst b /\ R (snd a) (snd b)) kvs data ->
  match dict_get key kvs with
  | Some x => exists y, dict_get key data = Some y /\ R x y
  | None => dict_get key data = None
  end.
Proof.
  induction 1 as [|[k x] [k' y] kvs data [Hk HR] _ IH]; simpl in *; [done|].
  subst k'. destruct (String.eqb k key); [eauto | exact IH].
Qed.

Lemma elem_of_enumerate (xs : list value) (k : string) (x : value) :
  (k, x) ∈ enumerate xs -> x ∈ xs.
Proof.
  unfold enumerate. intros Hin.
  apply list_elem_of_lookup in Hin as [j Hj].
  rewrite list_lookup_imap in Hj.
  destruct (xs !! j) as [y|] eqn:Hy; simpl in Hj; [|done].
  injection Hj as _ <-. apply list_elem_of_lookup. eauto.
Qed.

Lemma snd_enumerate (xs : list value) : map snd (enumerate xs) = xs.
Proof.
  unfold enumerate. apply list_eq. intros j.
  change (map snd ?l) with (snd <$> l).
  rewrite list_lookup_fmap, list_lookup_imap.
  by destruct (xs !! j).
Qed.

Section AttachSpec.
Variable registry : string -> option doc_class.
Variable from_son :
  doc_class -> list (string * value) ->
  result (doc_head * list (string * value)).
Variable object_map : objmap.
Variable max_depth : Z.

Lemma tagged_ref_pointer (kvs : list (string * value)) (r : value) :
  dict_get "_ref" kvs = Some r ->
  match dict_get "_ref" kvs with
  | Some r => is_DBRef r
  | None => negb (dict_has "_cls" kvs)
            && forallb (fun kv => well_formed (snd kv)) kvs
  end = true ->
  exists c i, (r = DBRef c i \/ r = LazyReference c i)
              /\ forall default, lookup_ref object_map r default
                                 = Ok (om_get object_map c i default).
Proof.
  intros -> Hr. destruct r; try done; eexists _, _; split; eauto.
Qed.

Lemma attach_field_ok (rec : attach_fn) (bound : nat) (depth : Z)
    (inst : option doc_head) (name : option string) (k : string)
    (d : list (string * value)) (f : string) (fd : field_decl) :
  rec_ok object_map rec bound ->
  (forall v, dict_get f d = Some v -> well_formed v = true /\ height v < bound) ->
  exists d',
    attach_field object_map max_depth rec depth inst name k d (f, fd) = Ok d'
    /\ (forall f', f ≠ f' -> dict_get f' d' = dict_get f' d)
    /\ match dict_get f d with
       | Some v => exists y, dict_get f d' = Some y /\ keeps_missing object_map v y
       | None => dict_get f d' = None
       end.
Proof.
  intros Hrec Hv. unfold attach_field, get_or_None.
  destruct (dict_get f d) as [v|] eqn:Hget.
  2:{ exists d. rewrite Hget. done. }
  destruct (Hv v eq_refl) as [Hwf Hh].
  assert (Hsame : exists d', Ok d = Ok d'
            /\ (forall f', f ≠ f' -> dict_get f' d' = dict_get f' d)
            /\ exists y, dict_get f d' = Some y /\ keeps_missing object_map v y).
  { exists d. split; [done|]. split; [done|]. exists v. split; [done|].
    apply keeps_missing_refl. }
  assert (Hwrite : forall y, keeps_missing object_map v y ->
            exists d', Ok (dict_set f y d) = Ok d'
            /\ (forall f', f ≠ f' -> dict_get f' d' = dict_get f' d)
            /\ exists y, dict_get f d' = Some y /\ keeps_missing object_map v y).
  { intros y Hy. exists (dict_set f y d). split; [done|]. split.
    - intros f' Hne. by apply dict_get_set_ne.
    - exists y. split; [apply dict_get_set_eq | done]. }
  assert (Hnested : is_container v = true ->
            exists d',
              (if (depth <=? max_depth)%Z
               then let* r := rec v depth inst
                                  (Some (fmt_name name ++ "." ++ k ++ "." ++ f)) in
                    Ok (dict_set f r d)
               else Ok d) = Ok d'
            /\ (forall f', f ≠ f' -> dict_get f' d' = dict_get f' d)
            /\ exists y, dict_get f d' = Some y /\ keeps_missing object_map v y).
  { intros Hc. destruct (depth <=? max_depth)%Z; [|exact Hsame].
    destruct (Hrec v depth inst (Some (fmt_name name ++ "." ++ k ++ "." ++ f))
                Hc Hwf Hh) as (r & -> & Hr).
    simpl. by apply Hwrite. }
  destruct v; try exact Hsame.
  - apply Hwrite. apply keeps_missing_pointer. eauto.
  - apply Hwrite. apply keeps_missing_pointer. eauto.
  - by apply Hnested.
  - destruct (dict_has "_ref" entries) eqn:Hhas; [|by apply Hnested].
    apply dict_has_get in Hhas as [r Hr]. unfold getitem. rewrite Hr. simpl.
    simpl in Hwf.
    destruct (tagged_ref_pointer entries r Hr Hwf) as (c & i & Hptr & Hlookup).
    rewrite Hlookup. simpl. apply Hwrite.
    by eapply keeps_missing_tagged.
Qed.

Lemma field_kept_refl (d : list (string * value)) (f : string) : field_kept object_map d d f.
Proof.
  unfold field_kept. destruct (dict_get f d); [|done].
  eexists. split; [done|]. apply keeps_missing_refl.
Qed.

Lemma attach_fields_from (rec : attach_fn) (bound : nat) (depth : Z)
    (inst : option doc_head) (name : option string) (k : string)
    (d : list (string * value)) (fields : list (string * field_decl)) :
  rec_ok object_map rec bound ->
  (forall f v, dict_get f d = Some v -> well_formed v = true /\ height v < bound) ->
  NoDup fields.*1 ->
  forall d_cur : list (string * value),
    (forall f, f ∈ fields.*1 -> dict_get f d_cur = dict_get f d) ->
    (forall f, f ∉ fields.*1 -> field_kept object_map d d_cur f) ->
    exists d',
      foldM (attach_field object_map max_depth rec depth inst name k) d_cur fields
      = Ok d'
      /\ forall f, field_kept object_map d d' f.
Proof.
  intros Hrec Hd. induction fields as [|[g gd] rest IH]; intros Hnd d_cur Htodo Hdone.
  - exists d_cur. split; [done|]. intros f. apply Hdone. apply not_elem_of_nil.
  - simpl in Hnd. apply NoDup_cons in Hnd as [Hnotin Hnd].
    assert (Hg : dict_get g d_cur = dict_get g d).
    { apply Htodo. simpl. apply list_elem_of_here. }
    destruct (attach_field_ok rec bound depth inst name k d_cur g gd Hrec)
      as (d3 & Hstep & Hother & Hat).
    { intros v Hv. apply (Hd g). by rewrite <- Hg. }
    cbn [foldM]. rewrite Hstep. cbn [bind]. apply IH; [done| |].
    + intros f Hin. rewrite Hother.
      * apply Htodo. simpl. by apply list_elem_of_further.
      * intros ->. done.
    + intros f Hf. unfold field_kept.
      destruct (decide (g = f)) as [<-|Hne].
      * rewrite <- Hg. exact Hat.
      * rewrite Hother by done. apply Hdone. simpl.
        apply not_elem_of_cons. split; [congruence | done].
Qed.

Lemma attach_fields_ok (rec : attach_fn) (bound : nat) (depth : Z)
    (inst : option doc_head) (name : option string) (k : string)
    (d : list (string * value)) (fields : list (string * field_decl)) :
  rec_ok object_map rec bound ->
  (forall f v, dict_get f d = Some v -> well_formed v = true /\ height v < bound) ->
  NoDup fields.*1 ->
  exists d',
    foldM (attach_field object_map max_depth rec depth inst name k) d fields = Ok d'
    /\ forall f, field_kept object_map d d' f.
Proof.
  intros Hrec Hd Hnd.
  apply (attach_fields_from rec bound depth inst name k d fields); try done.
  intros f _. apply field_kept_refl.
Qed.
Lemma keeps_missing_list (k k' : list_kind) (xs ys : list value) :
  Forall2 (keeps_missing object_map) xs ys ->
  keeps_missing object_map (VList k xs) (VList k' ys).
Proof.
  intros Hall p ptr Hp Hmiss.
  destruct p as [|[j|key|f] p']; simpl in *; try done.
  destruct (xs !! j) as [x|] eqn:Hx; [|done].
  destruct (Forall2_lookup_l _ _ _ _ _ Hall Hx) as (y & -> & Hxy).
  by apply Hxy.
Qed.

Lemma keeps_missing_dict (k k' : dict_kind) (kvs data : list (string * value)) :
  Forall2 (fun a b => fst a = fst b /\ keeps_missing object_map (snd a) (snd b))
          kvs data ->
  keeps_missing object_map (VDict k kvs) (VDict k' data).
Proof.
  intros Hall p ptr Hp Hmiss.
  destruct p as [|[j|key|f] p']; simpl in *; try done.
  assert (Hhas : dict_has "_ref" data = dict_has "_ref" kvs).
  { unfold dict_has.
    pose proof (dict_get_Forall2 _ kvs data "_ref" Hall) as H.
    destruct (dict_get "_ref" kvs); [by destruct H as (y & -> & _) | by rewrite H]. }
  rewrite Hhas.
  destruct (dict_has "_ref" kvs && negb (String.eqb key "_ref")); [done|].
  pose proof (dict_get_Forall2 _ kvs data key Hall) as H.
  destruct (dict_get key kvs) as [x|]; [|done].
  destruct H as (y & -> & Hxy). by apply Hxy.
Qed.

Lemma keeps_missing_doc (h : doc_head) (d d' : list (string * value)) :
  (forall f, field_kept object_map d d' f) ->
  keeps_missing object_map (VDoc h d) (VDoc h d').
Proof.
  intros Hall p ptr Hp Hmiss.
  destruct p as [|[j|key|f] p']; simpl in *; try done.
  specialize (Hall f). unfold field_kept in Hall.
  destruct (dict_get f d) as [x|]; [|done].
  destruct Hall as (y & -> & Hxy). by apply Hxy.
Qed.

Lemma attach_item_ok (rec : attach_fn) (bound : nat) (depth : Z)
    (inst : option doc_head) (name : option string) (k : string) (x : value) :
  rec_ok object_map rec bound ->
  well_formed x = true -> height x < bound ->
  exists y,
    attach_item object_map max_depth (attach_field object_map max_depth) rec depth inst name (k, x) = Ok y
    /\ keeps_missing object_map x y.
Proof.
  intros Hrec Hwf Hh. unfold attach_item.
  assert (Hnested : is_container x = true ->
            exists y,
              (if (depth <=? max_depth)%Z
               then rec x (depth - 1)%Z inst
                        (if name_truthy name
                         then Some (fmt_name name ++ "." ++ k) else name)
               else Ok x) = Ok y
              /\ keeps_missing object_map x y).
  { intros Hc. destruct (depth <=? max_depth)%Z.
    - by apply Hrec.
    - exists x. split; [done|]. apply keeps_missing_refl. }
  destruct x; try (eexists; split; [reflexivity|]; apply keeps_missing_refl).
  - eexists. split; [reflexivity|]. apply keeps_missing_pointer. eauto.
  - eexists. split; [reflexivity|]. apply keeps_missing_pointer. eauto.
  - by apply Hnested.
  - by apply Hnested.
  - simpl in Hwf. apply andb_true_iff in Hwf as [Hnd Hwf].
    apply bool_decide_eq_true in Hnd.
    destruct (attach_fields_ok rec bound depth inst name k _data (doc_fields h) Hrec)
      as (d' & -> & Hkept); [|done|].
    + intros f v Hv. apply dict_get_elem_of in Hv. split.
      * by apply (forallb_elem_of _ _ (f, v) Hwf).
      * pose proof (height_entries _ _ _ Hv) as Hlt. simpl in Hh. lia.
    + simpl. eexists. split; [reflexivity|]. by apply keeps_missing_doc.
Qed.

Lemma attach_loop_ok (rec : attach_fn) (bound : nat) (depth : Z)
    (inst : option doc_head) (name : option string)
    (iterator : list (string * value)) :
  rec_ok object_map rec bound ->
  (forall k x, (k, x) ∈ iterator -> well_formed x = true /\ height x < bound) ->
  exists data,
    attach_loop object_map max_depth (attach_field object_map max_depth)
                rec depth inst name iterator
    = Ok data
    /\ Forall2 (fun a b => fst a = fst b
                           /\ keeps_missing object_map (snd a) (snd b))
               iterator data.
Proof.
  intros Hrec. unfold attach_loop.
  induction iterator as [|[k x] rest IH]; intros Hall; cbn [mapM_r].
  - exists []. split; [done|]. constructor.
  - destruct (Hall k x) as [Hwf Hh]; [apply list_elem_of_here|].
    destruct (attach_item_ok rec bound depth inst name k x Hrec Hwf Hh)
      as (y & -> & Hxy).
    destruct IH as (data & -> & Hdata).
    { intros k' x' Hin. apply (Hall k' x'). by apply list_elem_of_further. }
    cbn. exists ((k, y) :: data). split; [done|]. constructor; [by split|done].
Qed.

Lemma rewrap_list (k : list_kind) (xs : list value) (data : list (string * value))
    (inst : option doc_head) (name : option string) :
  exists k', rewrap (VList k xs) data inst name = VList k' (map snd data).
Proof.
  unfold rewrap. destruct inst as [i|]; [|eauto].
  destruct (name_truthy name); [|eauto]. destruct k; eauto.
Qed.

Lemma rewrap_dict (k : dict_kind) (kvs data : list (string * value))
    (inst : option doc_head) (name : option string) :
  exists k', rewrap (VDict k kvs) data inst name = VDict k' data.
Proof.
  unfold rewrap. destruct inst as [i|]; [|eauto].
  destruct (name_truthy name); eauto.
Qed.

Lemma attach_body_ok (rec : attach_fn) (bound : nat) (items : value) (depth : Z)
    (inst : option doc_head) (name : option string) :
  rec_ok object_map rec bound ->
  is_container items = true -> well_formed items = true -> height items <= bound ->
  exists out,
    attach_body registry from_son object_map max_depth
                (attach_field object_map max_depth) rec
                items depth inst name = Ok out
    /\ keeps_missing object_map items out.
Proof.
  intros Hrec Hc Hwf Hh. destruct items as [| | | | |k xs|k kvs| |]; try done.
  - (* a list *)
    destruct (attach_loop_ok rec bound (depth + 1)%Z inst name (enumerate xs) Hrec)
      as (data & Hloop & Hdata).
    { intros j x Hin. apply elem_of_enumerate in Hin. split.
      - by apply (forallb_elem_of _ _ x Hwf).
      - pose proof (height_elem k _ _ Hin). lia. }
    assert (Hys : Forall2 (keeps_missing object_map) xs (map snd data)).
    { rewrite <- (snd_enumerate xs) at 1.
      apply Forall2_fmap. eapply Forall2_impl; [exact Hdata|].
      by intros a b [_ H]. }
    unfold attach_body.
    destruct (attach_falsy (VList k xs) inst name) as [r|] eqn:Hfalsy.
    + unfold attach_falsy in Hfalsy. destruct xs as [|x xs]; [|done].
      simpl in Hfalsy.
      assert (Hempty : forall k', keeps_missing object_map (VList k []) (VList k' [])).
      { intros k'. apply keeps_missing_list. constructor. }
      destruct k; simpl in Hfalsy;
        try (injection Hfalsy as <-; eexists; split; [done|]; apply Hempty);
        destruct inst; try done; injection Hfalsy as <-;
        eexists; (split; [done|]); apply Hempty.
    + simpl. rewrite Hloop. cbn [bind].
      destruct (rewrap_list k xs data inst name) as [k' ->].
      eexists. split; [done|]. by apply keeps_missing_list.
  - (* a mapping *)
    unfold attach_body.
    destruct (attach_falsy (VDict k kvs) inst name) as [r|] eqn:Hfalsy.
    + unfold attach_falsy in Hfalsy. destruct kvs as [|kv kvs]; [|done].
      simpl in Hfalsy.
      assert (Hempty : forall k', keeps_missing object_map (VDict k []) (VDict k' [])).
      { intros k'. apply keeps_missing_dict. constructor. }
      destruct k; simpl in Hfalsy;
        try (injection Hfalsy as <-; eexists; split; [done|]; apply Hempty);
        destruct inst; try done; injection Hfalsy as <-;
        eexists; (split; [done|]); apply Hempty.
    + simpl. simpl in Hwf.
      destruct (dict_has "_ref" kvs) eqn:Hhas.
      * apply dict_has_get in Hhas as [r Hr]. unfold getitem. rewrite Hr. cbn [bind].
        destruct (tagged_ref_pointer kvs r Hr Hwf) as (c & i & Hptr & Hlookup).
        rewrite Hlookup. eexists. split; [done|].
        by eapply keeps_missing_tagged.
      * assert (Hnone : dict_get "_ref" kvs = None).
        { unfold dict_has in Hhas. by destruct (dict_get "_ref" kvs). }
        rewrite Hnone in Hwf. apply andb_true_iff in Hwf as [Hcls Hwf].
        apply negb_true_iff in Hcls. rewrite Hcls.
        destruct (attach_loop_ok rec bound (depth + 1)%Z inst name kvs Hrec)
          as (data & Hloop & Hdata).
        { intros j x Hin. split.
          - by apply (forallb_elem_of _ _ (j, x) Hwf).
          - pose proof (height_entries _ _ _ Hin). simpl in Hh. lia. }
        cbn [attach_iterator bind]. rewrite Hloop. cbn [bind].
        destruct (rewrap_dict k kvs data inst name) as [k' ->].
        eexists. split; [done|]. by apply keeps_missing_dict.
Qed.

(** Enough budget gives a result: above the height of a well-formed
    container the attacher returns, and keeps every missing pointer. *)
Lemma attach_objects_ok (fuel : nat) :
  rec_ok object_map (attach_objects registry from_son object_map max_depth fuel) fuel.
Proof.
  induction fuel as [|fuel IH]; intros v depth inst name Hc Hwf Hh; [lia|].
  apply (attach_body_ok _ fuel); [exact IH|done|done|lia].
Qed.
End AttachSpec.

(** ** Missing targets *)

(** C4.  On a well-formed container and with a budget above its height
    the attacher returns a tree and raises nothing; every pointer of the
    input whose [(collection, identifier)] key is absent from the Object
    Map, bare, held by a record field or tagged with ["_ref"], at any
    depth, is the same pointer at the same position of the output. *)
Theorem missing_pointer_left_unchanged
    (registry : string -> option doc_class)
    (from_son : doc_class -> list (string * value) ->
                result (doc_head * list (string * value)))
    (object_map : objmap) (max_depth : Z)
    (fuel : nat) (items : value) (depth : Z)
    (inst : option doc_head) (name : option string) :
  is_container items = true ->
  well_formed items = true ->
  height items < fuel ->
  exists out,
    attach_objects registry from_son object_map max_depth
                   fuel items depth inst name = Ok out
    /\ forall p ptr,
         pointer_at p items = Some ptr ->
         missing object_map ptr ->
         pointer_at p out = Some ptr.
Proof.
  intros Hc Hwf Hh.
  by apply (attach_objects_ok registry from_son object_map max_depth fuel).
Qed.

Lemma missing_pointer_left_unchanged_witness :
  exists out,
    attach_objects Fixture.registry Fixture.from_son Fixture.object_map 2
                   4 (VList PyList [Fixture.post; DBRef "users" 2]) 0 None None
    = Ok out
    /\ forall p ptr,
         pointer_at p (VList PyList [Fixture.post; DBRef "users" 2]) = Some ptr ->
         missing Fixture.object_map ptr ->
         pointer_at p out = Some ptr.
Proof.
  apply (missing_pointer_left_unchanged
           Fixture.registry Fixture.from_son Fixture.object_map 2
           4 (VList PyList [Fixture.post; DBRef "users" 2]) 0 None None).
  - reflexivity.
  - vm_compute. reflexivity.
  - vm_compute. lia.
Defined.

(** ** The kind of the returned container *)

Lemma length_enumerate (xs : list value) : length (enumerate xs) = length xs.
Proof. unfold enumerate. apply length_imap. Qed.

Lemma attach_body_shape
    (registry : string -> option doc_class)
    (from_son : doc_class -> list (string * value) ->
                result (doc_head * list (string * value)))
    (object_map : objmap) (max_depth : Z)
    (field_step : attach_field_step) (rec : attach_fn)
    (items : value) (depth : Z) (inst : option doc_head) (name : option string)
    (out : value) :
  attach_body registry from_son object_map max_depth field_step rec
              items depth inst name = Ok out ->
  is_container items = true ->
  (truthy items = true -> is_tagged items = false ->
   is_discriminated items = false ->
   container_kind out = result_kind inst name items
   /\ container_size out = container_size items)
  /\ (truthy items = false -> is_tracked items = true -> out = items).
Proof.
  intros Hbody Hc. unfold attach_body in Hbody. split.
  - intros Htruthy Htag Hdisc. unfold attach_falsy in Hbody. rewrite Htruthy in Hbody.
    destruct items as [| | | | |k xs|k kvs| |]; try done.
    + simpl in Hbody. apply bind_Ok in Hbody as (data & Hloop & [= <-]).
      apply mapM_r_Ok in Hloop as [Hlen _]. rewrite length_enumerate in Hlen.
      unfold rewrap, result_kind.
      destruct inst as [i|]; [destruct (name_truthy name); [destruct k|]|];
        simpl; by rewrite length_map.
    + simpl in Htag, Hdisc. simpl in Hbody. rewrite Htag in Hbody.
      rewrite Htag in Hdisc. simpl in Hdisc. rewrite Hdisc in Hbody.
      simpl in Hbody. apply bind_Ok in Hbody as (data & Hloop & [= <-]).
      apply mapM_r_Ok in Hloop as [Hlen _].
      unfold rewrap, result_kind.
      destruct inst as [i|]; [destruct (name_truthy name)|]; simpl; done.
  - intros Hfalsy Htracked. unfold attach_falsy in Hbody.
    rewrite Hfalsy, Htracked in Hbody. by injection Hbody as <-.
Qed.

(** C6, as amended.  A call that is given an owner instance and a
    non-empty field name returns, for a non-empty container that is no
    tagged mapping, a container of the same size: a tuple for a tuple, an
    EmbeddedDocumentList for an EmbeddedDocumentList, a BaseList for every
    other list and a BaseDict for a mapping, tracked by the owner and the
    name of the call.  Without one of them the result is a plain list or
    dict of the same size.  An empty owner-tracked container is returned
    as it is. *)
Theorem container_kind_follows_owner
    (registry : string -> option doc_class)
    (from_son : doc_class -> list (string * value) ->
                result (doc_head * list (string * value)))
    (object_map : objmap) (max_depth : Z)
    (fuel : nat) (items : value) (depth : Z)
    (inst : option doc_head) (name : option string) :
  is_container items = true ->
  well_formed items = true ->
  height items < fuel ->
  exists out,
    attach_objects registry from_son object_map max_depth
                   fuel items depth inst name = Ok out
    /\ (truthy items = true -> is_tagged items = false ->
        container_kind out = result_kind inst name items
        /\ container_size out = container_size items)
    /\ (truthy items = false -> is_tracked items = true -> out = items).
Proof.
  intros Hc Hwf Hh.
  destruct (attach_objects_ok registry from_son object_map max_depth fuel
              items depth inst name Hc Hwf Hh) as (out & Hout & _).
  exists out. split; [done|].
  destruct fuel as [|fuel]; [lia|].
  apply attach_body_shape in Hout as [Hshape Hempty]; [|done].
  split; [|exact Hempty]. intros Htruthy Htag. apply Hshape; [exact Htruthy|exact Htag|].
  destruct items as [| | | | |k xs|k kvs| |]; try done.
  simpl in Htag, Hwf |- *. rewrite Htag. simpl.
  unfold dict_has in Htag. destruct (dict_get "_ref" kvs); [done|].
  apply andb_true_iff in Hwf as [Hcls _]. by apply negb_true_iff in Hcls.
Qed.

Lemma container_kind_follows_owner_witness :
  exists out,
    attach_objects Fixture.registry Fixture.from_son Fixture.object_map 1
                   3 (VList PyTuple [DBRef "users" 1; DBRef "users" 2]) 0
                   (Some Fixture.post_head) (Some "likes") = Ok out
    /\ (truthy (VList PyTuple [DBRef "users" 1; DBRef "users" 2]) = true ->
        is_tagged (VList PyTuple [DBRef "users" 1; DBRef "users" 2]) = false ->
        container_kind out
        = result_kind (Some Fixture.post_head) (Some "likes")
                      (VList PyTuple [DBRef "users" 1; DBRef "users" 2])
        /\ container_size out
           = container_size (VList PyTuple [DBRef "users" 1; DBRef "users" 2]))
    /\ (truthy (VList PyTuple [DBRef "users" 1; DBRef "users" 2]) = false ->
        is_tracked (VList PyTuple [DBRef "users" 1; DBRef "users" 2]) = true ->
        out = VList PyTuple [DBRef "users" 1; DBRef "users" 2]).
Proof.
  apply (container_kind_follows_owner
           Fixture.registry Fixture.from_son Fixture.object_map 1
           3 (VList PyTuple [DBRef "users" 1; DBRef "users" 2]) 0
           (Some Fixture.post_head) (Some "likes")).
  - reflexivity.
  - reflexivity.
  - vm_compute. lia.
Defined.

(** C6 as stated fails: without an owner a tuple comes back as a list and
    an owner-tracked list loses its owner; with another owner and name the
    result carries those of the call, not those of the input. *)
Lemma tuple_returned_as_list :
  attach_objects Fixture.registry Fixture.from_son Fixture.object_map 1
                 3 (VList PyTuple [DBRef "users" 1; DBRef "users" 2]) 0 None None
  = Ok (VList PyList [Fixture.alice; DBRef "users" 2])
  /\ attach_objects Fixture.registry Fixture.from_son Fixture.object_map 1
                    3 (VList (BaseList Fixture.post_head (Some "likes"))
                             [DBRef "users" 1]) 0 None None
     = Ok (VList PyList [Fixture.alice])
  /\ attach_objects Fixture.registry Fixture.from_son Fixture.object_map 1
                    3 (VList (BaseList Fixture.post_head (Some "likes"))
                             [DBRef "users" 1]) 0
                    (Some (Fixture.user_head 1)) (Some "friends")
     = Ok (VList (BaseList (Fixture.user_head 1) (Some "friends")) [Fixture.alice]).
Proof. repeat split; vm_compute; reflexivity. Qed.

(** ** Depth accounting *)

Section Depth.
Variable registry : string -> option doc_class.
Variable from_son :
  doc_class -> list (string * value) ->
  result (doc_head * list (string * value)).
Variable object_map : objmap.
Variable max_depth : Z.

(** The scanner's loop body at loop depth [depth] calls itself at
    [depth] for a container held by a field and at [depth - 1] for a
    container nested in the container, both only up to [max_depth]. *)
Lemma scan_field_ext (scan1 scan2 : value -> Z -> result refmap) (depth : Z)
    (d : list (string * value)) (rm : refmap) (fld : string * field_decl) :
  ((depth <= max_depth)%Z -> forall v, scan1 v depth = scan2 v depth) ->
  scan_field registry max_depth scan1 depth d rm fld
  = scan_field registry max_depth scan2 depth d rm fld.
Proof.
  intros Hagree. destruct fld as [field_name field]. unfold scan_field.
  destruct (Z.leb_spec depth max_depth) as [Hle|Hgt]; [|done].
  by rewrite (Hagree Hle).
Qed.

Lemma scan_item_ext (scan1 scan2 : value -> Z -> result refmap) (depth : Z)
    (rm : refmap) (item : value) :
  (forall v d, (depth - 1 <= d <= depth)%Z -> (d <= max_depth)%Z ->
               scan1 v d = scan2 v d) ->
  scan_item registry max_depth (scan_field registry max_depth) scan1 depth rm item
  = scan_item registry max_depth (scan_field registry max_depth) scan2 depth rm item.
Proof.
  intros Hagree. unfold scan_item.
  assert (Hnested :
            (if (depth - 1 <=? max_depth)%Z
             then let* references := scan1 item (depth - 1)%Z in
                  Ok (merge_references None references rm)
             else Ok rm)
            = (if (depth - 1 <=? max_depth)%Z
               then let* references := scan2 item (depth - 1)%Z in
                    Ok (merge_references None references rm)
               else Ok rm)).
  { destruct (Z.leb_spec (depth - 1) max_depth) as [Hle|Hgt]; [|done].
    rewrite (Hagree item (depth - 1)%Z); [done|lia|done]. }
  destruct item; try done.
  - by destruct (dict_has "_ref" entries).
  - apply foldM_ext. intros s x _. apply scan_field_ext.
    intros Hle v. apply Hagree; [lia|done].
Qed.

Lemma find_references_body_ext (scan1 scan2 : value -> Z -> result refmap)
    (items : value) (depth : Z) :
  (forall v d, (depth <= d <= depth + 1)%Z -> (d <= max_depth)%Z ->
               scan1 v d = scan2 v d) ->
  find_references_body registry max_depth (scan_field registry max_depth)
                       scan1 items depth
  = find_references_body registry max_depth (scan_field registry max_depth)
                         scan2 items depth.
Proof.
  intros Hagree. unfold find_references_body.
  destruct (negb (truthy items) || (max_depth <=? depth)%Z); [done|].
  destruct (scan_iterator items) as [iterator|e]; [|done]. cbn [bind].
  apply foldM_ext. intros rm item _. apply scan_item_ext.
  intros v d Hd Hmax. apply Hagree; [lia|done].
Qed.

(** The attacher's loop body at loop depth [depth] calls itself only when
    [depth <= max_depth], at [depth] for a container held by a field and
    at [depth - 1] for a container nested in the container. *)
Lemma attach_field_ext (att1 att2 : attach_fn) (depth : Z)
    (inst : option doc_head) (name : option string) (k : string)
    (d : list (string * value)) (fld : string * field_decl) :
  ((depth <= max_depth)%Z -> forall v i n, att1 v depth i n = att2 v depth i n) ->
  attach_field object_map max_depth att1 depth inst name k d fld
  = attach_field object_map max_depth att2 depth inst name k d fld.
Proof.
  intros Hagree. destruct fld as [field_name field]. unfold attach_field.
  destruct (Z.leb_spec depth max_depth) as [Hle|Hgt]; [|done].
  by rewrite (Hagree Hle).
Qed.

Lemma attach_item_ext (att1 att2 : attach_fn) (depth : Z)
    (inst : option doc_head) (name : option string) (kv : string * value) :
  ((depth <= max_depth)%Z ->
   forall v d i n, (depth - 1 <= d <= depth)%Z -> att1 v d i n = att2 v d i n) ->
  attach_item object_map max_depth (attach_field object_map max_depth)
              att1 depth inst name kv
  = attach_item object_map max_depth (attach_field object_map max_depth)
                att2 depth inst name kv.
Proof.
  intros Hagree. destruct kv as [k v]. unfold attach_item.
  assert (Hnested :
            (if (depth <=? max_depth)%Z
             then att1 v (depth - 1)%Z inst
                       (if name_truthy name
                        then Some (fmt_name name ++ "." ++ k) else name)
             else Ok v)
            = (if (depth <=? max_depth)%Z
               then att2 v (depth - 1)%Z inst
                         (if name_truthy name
                          then Some (fmt_name name ++ "." ++ k) else name)
               else Ok v)).
  { destruct (Z.leb_spec depth max_depth) as [Hle|Hgt]; [|done].
    apply (Hagree Hle). lia. }
  destruct v; try done.
  assert (Hfields :
            foldM (attach_field object_map max_depth att1 depth inst name k)
                  _data (doc_fields h)
            = foldM (attach_field object_map max_depth att2 depth inst name k)
                    _data (doc_fields h)).
  { apply foldM_ext. intros s x _. apply attach_field_ext.
    intros Hle w i n. apply (Hagree Hle). lia. }
  by rewrite Hfields.
Qed.

Lemma attach_body_ext (att1 att2 : attach_fn) (items : value) (depth : Z)
    (inst : option doc_head) (name : option string) :
  (is_discriminated items = true ->
   forall v i n, att1 v depth i n = att2 v depth i n) ->
  ((depth + 1 <= max_depth)%Z ->
   forall v d i n, (depth <= d <= depth + 1)%Z -> att1 v d i n = att2 v d i n) ->
  attach_body registry from_son object_map max_depth
              (attach_field object_map max_depth) att1 items depth inst name
  = attach_body registry from_son object_map max_depth
                (attach_field object_map max_depth) att2 items depth inst name.
Proof.
  intros Hdisc Hagree. unfold attach_body.
  destruct (attach_falsy items inst name) as [r|]; [done|].
  assert (Htagged : attach_tagged registry from_son object_map att1 items depth
                    = attach_tagged registry from_son object_map att2 items depth).
  { unfold attach_tagged. destruct items; try done.
    simpl in Hdisc. destruct (dict_has "_ref" entries); [done|].
    destruct (dict_has "_cls" entries); [|done].
    unfold materialise. f_equal.
    destruct (getitem "_cls" entries) as [cls_name|e]; [|done]. cbn [bind].
    destruct (registry_get registry cls_name) as [c|e]; [|done]. cbn [bind].
    destruct (from_son c entries) as [[h d]|e]; [|done]. cbn [bind].
    by rewrite (Hdisc eq_refl). }
  rewrite Htagged.
  destruct (attach_tagged registry from_son object_map att2 items depth); [done|].
  destruct (attach_iterator items) as [iterator|e]; [|done]. cbn [bind].
  assert (Hloop :
            attach_loop object_map max_depth (attach_field object_map max_depth)
                        att1 (depth + 1)%Z inst name iterator
            = attach_loop object_map max_depth (attach_field object_map max_depth)
                          att2 (depth + 1)%Z inst name iterator).
  { unfold attach_loop. apply mapM_r_ext. intros kv _.
    rewrite (attach_item_ext att1 att2); [done|].
    intros Hle v d i n Hd. apply (Hagree Hle). lia. }
  by rewrite Hloop.
Qed.

End Depth.

(** ** Deferred pointers *)

(** The scanner skips a deferred pointer, bare or held by a field:
    it adds nothing to the Reference Map. *)
Lemma lazy_reference_not_scanned
    (registry : string -> option doc_class) (max_depth : Z)
    (scan : value -> Z -> result refmap) (depth : Z) (rm : refmap)
    (c : string) (i : oid) :
  scan_item registry max_depth (scan_field registry max_depth) scan depth rm
            (LazyReference c i) = Ok rm
  /\ forall d field_name field,
       dict_get field_name d = Some (LazyReference c i) ->
       scan_field registry max_depth scan depth d rm (field_name, field) = Ok rm.
Proof.
  split; [done|]. intros d field_name field Hget.
  unfold scan_field, get_or_None. by rewrite Hget.
Qed.

(** C2 on the fixture's post, whose [author] is a pointer to user 1 and
    whose [reviewer] is a deferred pointer to the same user: the scanner
    records user 1 for [author] alone, and the resolved post holds the
    fetched user under [reviewer] too.  The attacher tests
    [isinstance(field_value, DBRef)], which a LazyReference passes. *)
Theorem lazy_reference_replaced_by_attacher :
  find_references Fixture.registry 1 3 (VList PyList [Fixture.post]) 0
  = Ok [(KClass Fixture.User, {[ 1 ]})]
  /\ dereference Fixture.registry Fixture.from_son Fixture.in_bulk Fixture.find
                 Fixture.to_python 3 (VList PyList [Fixture.post]) 1 None None
     = Ok (VList PyList
             [VDoc Fixture.post_head
                [("id", ObjectId 10);
                 ("author", Fixture.alice);
                 ("reviewer", Fixture.alice);
                 ("likes", VList PyList [Fixture.alice; DBRef "users" 2])]]).
Proof. split; vm_compute; reflexivity. Qed.

(** ** Facts about the Batch Fetcher *)

Lemma elem_of_pending (col_name : string) (dbrefs : gset oid) (om : objmap) (i : oid) :
  i ∈ pending col_name dbrefs om <-> i ∈ dbrefs /\ om !! (col_name, i) = None.
Proof.
  unfold pending. rewrite list_elem_of_filter, elem_of_elements. tauto.
Qed.

Lemma NoDup_pending (col_name : string) (dbrefs : gset oid) (om : objmap) :
  NoDup (pending col_name dbrefs om).
Proof. unfold pending. apply NoDup_filter, NoDup_elements. Qed.

Lemma store_references_cons (col_name : string) (key : oid) (doc : value)
    (references : list (oid * value)) (om : objmap) :
  store_references col_name ((key, doc) :: references) om
  = store_references col_name references (<[(col_name, key) := doc]> om).
Proof. done. Qed.

(** Keys the references do not name are left as they were. *)
Lemma store_references_other (col_name : string) (references : list (oid * value))
    (om : objmap) (key : string * oid) :
  (forall k d, (k, d) ∈ references -> (col_name, k) ≠ key) ->
  store_references col_name references om !! key = om !! key.
Proof.
  revert om. induction references as [|[k d] rest IH]; intros om Hne; [done|].
  rewrite store_references_cons. etrans; [apply IH|].
  - intros k' d' Hin. apply (Hne k' d'). by apply list_elem_of_further.
  - apply lookup_insert_ne. apply (Hne k d). apply list_elem_of_here.
Qed.

(** A named key holds its document, when no identifier is named twice. *)
Lemma store_references_in (col_name : string) (references : list (oid * value))
    (om : objmap) (k : oid) (d : value) :
  NoDup references.*1 -> (k, d) ∈ references ->
  store_references col_name references om !! (col_name, k) = Some d.
Proof.
  revert om. induction references as [|[k' d'] rest IH]; intros om Hnd Hin.
  - by apply elem_of_nil in Hin.
  - rewrite store_references_cons. simpl in Hnd.
    apply NoDup_cons in Hnd as [Hnotin Hnd].
    apply elem_of_cons in Hin as [[= <- <-]|Hin].
    + rewrite store_references_other; [apply lookup_insert_eq|].
      intros k2 d2 Hin2 [= ->]. apply Hnotin.
      apply list_elem_of_fmap. by exists (k, d2).
    + by apply IH.
Qed.

(** The Object Map only grows while references are stored. *)
Lemma store_references_mono (col_name : string) (references : list (oid * value))
    (om : objmap) (key : string * oid) :
  is_Some (om !! key) -> is_Some (store_references col_name references om !! key).
Proof.
  revert om. induction references as [|[k d] rest IH]; intros om Hsome; [done|].
  rewrite store_references_cons. apply IH.
  destruct (decide ((col_name, k) = key)) as [<-|Hne].
  - rewrite lookup_insert_eq. eauto.
  - by rewrite lookup_insert_ne.
Qed.

Lemma elem_of_fetch_individually
    (async_get : doc_class -> oid -> result value)
    (c : doc_class) (refs : list oid) (i : oid) (d : value) :
  (i, d) ∈ fetch_individually async_get c refs <-> i ∈ refs /\ async_get c i = Ok d.
Proof.
  induction refs as [|r refs IH]; simpl.
  - split; [intros H; by apply elem_of_nil in H | intros [H _]; by apply elem_of_nil in H].
  - destruct (async_get c r) as [doc|e] eqn:Hget.
    + rewrite !elem_of_cons, IH. split.
      * intros [[= -> ->]|[Hin Hok]]; eauto.
      * intros [[->|Hin] Hok]; [left; congruence | right; eauto].
    + rewrite elem_of_cons, IH. split.
      * intros [Hin Hok]; eauto.
      * intros [[->|Hin] Hok]; [congruence | eauto].
Qed.

Lemma NoDup_fetch_individually
    (async_get : doc_class -> oid -> result value)
    (c : doc_class) (refs : list oid) :
  NoDup refs -> NoDup (fetch_individually async_get c refs).*1.
Proof.
  induction refs as [|r refs IH]; simpl; intros Hnd; [constructor|].
  apply NoDup_cons in Hnd as [Hnotin Hnd].
  destruct (async_get c r) as [doc|e]; simpl; [|by apply IH].
  apply NoDup_cons. split; [|by apply IH].
  intros Hin. apply list_elem_of_fmap in Hin as ([k d] & -> & Hin).
  apply elem_of_fetch_individually in Hin as [Hin _]. by apply Hnotin.
Qed.

(** C8.  For a record type with [objects] but without [async_in_bulk], the
    suspending fetcher always completes the bucket: it issues one
    [async_get] per pending identifier, stores the documents of the calls
    that returned, leaves an identifier whose call raised (whatever the
    exception) absent, and changes no other key of the Object Map. *)
Theorem fallback_fetches_one_by_one
    (registry : string -> option doc_class)
    (from_son : doc_class -> list (string * value) ->
                result (doc_head * list (string * value)))
    (async_in_bulk : doc_class -> list oid -> result (list (oid * value)))
    (async_get : doc_class -> oid -> result value)
    (find : db_handle -> string -> list oid -> result (list (list (string * value))))
    (c : doc_class) (dbrefs : gset oid) (doc_type : option dtype)
    (om : objmap) (calls : list io_call) :
  cls_objects c = true ->
  cls_async_in_bulk c = false ->
  let col_name := cls_collection c in
  let refs := pending col_name dbrefs om in
  exists om',
    async_fetch_bucket registry from_son async_in_bulk async_get find
                       doc_type (om, calls) (KClass c, dbrefs)
    = Ok (om', (calls ++ map (AsyncGet c) refs)%list)
    /\ NoDup refs
    /\ (forall i, i ∈ refs ->
          om' !! (col_name, i)
          = match async_get c i with Ok doc => Some doc | Err _ => None end)
    /\ (forall key, (forall i, i ∈ refs -> key ≠ (col_name, i)) ->
          om' !! key = om !! key).
Proof.
  intros Hobj Hbulk col_name refs.
  exists (store_references col_name (fetch_individually async_get c refs) om).
  split; [|split; [apply NoDup_pending|split]].
  - unfold async_fetch_bucket, ref_document_cls_exists. by rewrite Hobj, Hbulk.
  - intros i Hi. destruct (async_get c i) as [doc|e] eqn:Hget.
    + apply store_references_in.
      * apply NoDup_fetch_individually, NoDup_pending.
      * by apply elem_of_fetch_individually.
    + rewrite store_references_other.
      * by apply elem_of_pending in Hi as [_ Hi].
      * intros k d Hin [= ->].
        apply elem_of_fetch_individually in Hin as [_ Hin]. congruence.
  - intros key Hkey. apply store_references_other.
    intros k d Hin <-. apply elem_of_fetch_individually in Hin as [Hin _].
    by apply (Hkey k).
Qed.

(** A bucket of three identifiers: 1 is stored, the call for 2 fails in
    the driver, 3 does not exist. *)
Lemma fallback_fetches_one_by_one_witness :
  let col_name := cls_collection Fixture.Member in
  let refs := pending col_name {[ 1; 2; 3 ]} ∅ in
  exists om',
    async_fetch_bucket Fixture.registry Fixture.from_son Fixture.in_bulk
                       Fixture.flaky_get Fixture.find
                       None (∅, []) (KClass Fixture.Member, {[ 1; 2; 3 ]})
    = Ok (om', ([] ++ map (AsyncGet Fixture.Member) refs)%list)
    /\ NoDup refs
    /\ (forall i, i ∈ refs ->
          om' !! (col_name, i)
          = match Fixture.flaky_get Fixture.Member i with
            | Ok doc => Some doc
            | Err _ => None
            end)
    /\ (forall key, (forall i, i ∈ refs -> key ≠ (col_name, i)) ->
          om' !! key = (∅ : objmap) !! key).
Proof.
  apply (fallback_fetches_one_by_one
           Fixture.registry Fixture.from_son Fixture.in_bulk Fixture.flaky_get
           Fixture.find Fixture.Member {[ 1; 2; 3 ]} None ∅ []);
    reflexivity.
Defined.

(** ** The blocking and the suspending fetcher *)

Section SameStore.
Variable registry : string -> option doc_class.
Variable from_son :
  doc_class -> list (string * value) ->
  result (doc_head * list (string * value)).
Variable in_bulk : doc_class -> list oid -> result (list (oid * value)).
Variable async_in_bulk : doc_class -> list oid -> result (list (oid * value)).
Variable async_get : doc_class -> oid -> result value.
Variable find : db_handle -> string -> list oid -> result (list (list (string * value))).

(** The stored data: the document a record type holds under an
    identifier.  Every query primitive answers from it. *)
Variable stored : doc_class -> oid -> option value.

Hypothesis in_bulk_stored : forall c refs,
  NoDup refs ->
  exists res, in_bulk c refs = Ok res /\ NoDup res.*1 /\
    forall i d, (i, d) ∈ res <-> i ∈ refs /\ stored c i = Some d.
Hypothesis async_in_bulk_stored : forall c refs,
  NoDup refs ->
  exists res, async_in_bulk c refs = Ok res /\ NoDup res.*1 /\
    forall i d, (i, d) ∈ res <-> i ∈ refs /\ stored c i = Some d.
Hypothesis async_get_stored : forall c i d,
  async_get c i = Ok d <-> stored c i = Some d.
Hypothesis find_class_db : forall t collection refs,
  find (ClassDb t) collection refs
  = find (AsyncDb (meta_db_alias t)) collection refs.
Hypothesis find_default_db : forall collection refs,
  find (SyncDb DEFAULT_CONNECTION_NAME) collection refs
  = find (AsyncDb DEFAULT_CONNECTION_NAME) collection refs.

(** What a bulk answer leaves in the Object Map *)
Lemma store_references_stored (c : doc_class) (refs : list oid)
    (res : list (oid * value)) (om : objmap) (key : string * oid) :
  NoDup res.*1 ->
  (forall i d, (i, d) ∈ res <-> i ∈ refs /\ stored c i = Some d) ->
  store_references (cls_collection c) res om !! key
  = if decide (key.1 = cls_collection c /\ key.2 ∈ refs /\ is_Some (stored c key.2))
    then stored c key.2
    else om !! key.
Proof.
  intros Hnd Hres. destruct key as [col k]; simpl.
  destruct (decide _) as [(-> & Hin & [d Hd])|Hno].
  - rewrite Hd. apply store_references_in; [done|]. by apply Hres.
  - apply store_references_other. intros k' d' Hin' [= <- ->].
    apply Hres in Hin' as [Hin' Hst]. apply Hno. eauto.
Qed.

Lemma fetch_generic_same (doc_type : option dtype) (om : objmap)
    (calls1 calls2 : list io_call) (collection : rkey) (dbrefs : gset oid) :
  same_object_map
    (fetch_generic registry from_son find ClassDb
                   (SyncDb DEFAULT_CONNECTION_NAME)
                   doc_type (om, calls1) collection dbrefs)
    (fetch_generic registry from_son find (fun t => AsyncDb (meta_db_alias t))
                   (AsyncDb DEFAULT_CONNECTION_NAME)
                   doc_type (om, calls2) collection dbrefs).
Proof.
  unfold fetch_generic.
  destruct (is_complex_dtype doc_type); [done|].
  destruct doc_type as [[t|f]|]; [| done |].
  - destruct (collection_name_of_key collection) as [name|e]; simpl; [|done].
    rewrite find_class_db.
    destruct (find _ _ _) as [rows|e]; simpl; [|done].
    by destruct (store_typed_rows _ _ _ _ _) as [om'|e].
  - destruct (collection_name_of_key collection) as [name|e]; simpl; [|done].
    rewrite find_default_db.
    destruct (find _ _ _) as [rows|e]; simpl; [|done].
    by destruct (store_untyped_rows _ _ _ _ _) as [om'|e].
Qed.

Lemma fetch_bucket_same (doc_type : option dtype) (om : objmap)
    (calls1 calls2 : list io_call) (b : rkey * gset oid) :
  same_object_map
    (fetch_bucket registry from_son in_bulk find doc_type (om, calls1) b)
    (async_fetch_bucket registry from_son async_in_bulk async_get find
                        doc_type (om, calls2) b).
Proof.
  destruct b as [collection dbrefs].
  unfold fetch_bucket, async_fetch_bucket.
  destruct (ref_document_cls_exists collection) as [c|];
    [|apply fetch_generic_same].
  set (refs := pending (cls_collection c) dbrefs om).
  assert (Hnd : NoDup refs) by apply NoDup_pending.
  destruct (in_bulk_stored c refs Hnd) as (res & -> & Hres_nd & Hres); simpl.
  destruct (cls_async_in_bulk c).
  - destruct (async_in_bulk_stored c refs Hnd) as (res' & -> & Hres'_nd & Hres'); simpl.
    apply map_eq. intros key.
    by rewrite !(store_references_stored c refs).
  - simpl. apply map_eq. intros key.
    rewrite !(store_references_stored c refs); try done.
    + by apply NoDup_fetch_individually.
    + intros i d. rewrite elem_of_fetch_individually. by rewrite async_get_stored.
Qed.

Lemma fetch_buckets_same (doc_type : option dtype) (rm : refmap) (om : objmap)
    (calls1 calls2 : list io_call) :
  same_object_map
    (foldM (fetch_bucket registry from_son in_bulk find doc_type) (om, calls1) rm)
    (foldM (async_fetch_bucket registry from_son async_in_bulk async_get find doc_type)
           (om, calls2) rm).
Proof.
  revert om calls1 calls2. induction rm as [|b rm IH]; intros om calls1 calls2; simpl.
  - done.
  - pose proof (fetch_bucket_same doc_type om calls1 calls2 b) as Hb.
    destruct (fetch_bucket _ _ _ _ _ _ _) as [[om1 c1]|e1];
      destruct (async_fetch_bucket _ _ _ _ _ _ _ _) as [[om2 c2]|e2];
      simpl in *; try done.
    subst om2. apply IH.
Qed.

(** C5.  On the same stored data the blocking and the suspending
    fetcher build the same Object Map from every Reference Map, with or
    without [async_in_bulk], or fail with the same exception. *)
Theorem fetchers_agree (rm : refmap) (doc_type : option dtype) :
  same_object_map
    (fetch_objects registry from_son in_bulk find rm doc_type)
    (async_fetch_objects registry from_son async_in_bulk async_get find rm doc_type).
Proof. apply fetch_buckets_same. Qed.
End SameStore.

Lemma fixture_in_bulk_stored (c : doc_class) (refs : list oid) :
  NoDup refs ->
  exists res, Fixture.in_bulk c refs = Ok res /\ NoDup res.*1 /\
    forall i d, (i, d) ∈ res <-> i ∈ refs /\ Fixture.stored c i = Some d.
Proof.
  intros Hnd. eexists. split; [reflexivity|]. split.
  - induction Hnd as [|r refs Hnotin Hnd IH]; simpl; [constructor|].
    destruct (Fixture.stored c r) as [d|]; simpl; [|done].
    apply NoDup_cons. split; [|done].
    intros Hin. apply list_elem_of_fmap in Hin as ([k d'] & -> & Hin).
    apply list_elem_of_omap in Hin as (x & Hx & Hsome).
    destruct (Fixture.stored c x); [|done]. injection Hsome as -> _. done.
  - intros i d. rewrite list_elem_of_omap. split.
    + intros (x & Hx & Hsome).
      destruct (Fixture.stored c x) as [d'|] eqn:Hst; [|done].
      injection Hsome as -> ->. done.
    + intros [Hin Hst]. exists i. by rewrite Hst.
Qed.

Lemma fixture_async_get_stored (c : doc_class) (i : oid) (d : value) :
  Fixture.async_get c i = Ok d <-> Fixture.stored c i = Some d.
Proof.
  unfold Fixture.async_get.
  destruct (Fixture.stored c i); split; intros H; congruence.
Qed.

(** Two buckets, one of a record type with the bulk helper and one of a
    record type without it *)
Lemma fetchers_agree_witness :
  same_object_map
    (fetch_objects Fixture.registry Fixture.from_son Fixture.in_bulk Fixture.find
       [(KClass Fixture.User, {[ 1; 2 ]}); (KClass Fixture.Member, {[ 1; 3 ]})] None)
    (async_fetch_objects Fixture.registry Fixture.from_son Fixture.in_bulk
       Fixture.async_get Fixture.find
       [(KClass Fixture.User, {[ 1; 2 ]}); (KClass Fixture.Member, {[ 1; 3 ]})] None).
Proof.
  apply (fetchers_agree Fixture.registry Fixture.from_son Fixture.in_bulk
           Fixture.in_bulk Fixture.async_get Fixture.find Fixture.stored).
  - apply fixture_in_bulk_stored.
  - apply fixture_in_bulk_stored.
  - apply fixture_async_get_stored.
  - reflexivity.
  - reflexivity.
Defined.

(** ** Identifiers are requested while they are pending *)

Lemma grows_refl (om : objmap) : grows om om.
Proof. by intros key. Qed.

Lemma grows_trans (om1 om2 om3 : objmap) :
  grows om1 om2 -> grows om2 om3 -> grows om1 om3.
Proof. intros H12 H23 key Hk. by apply H23, H12. Qed.

Lemma grows_insert (om : objmap) (key : string * oid) (doc : value) :
  grows om (<[key := doc]> om).
Proof.
  intros key' Hsome. destruct (decide (key = key')) as [<-|Hne].
  - rewrite lookup_insert_eq. eauto.
  - by rewrite lookup_insert_ne.
Qed.

Lemma foldM_grows {A : Type} (step : objmap -> A -> result objmap)
    (xs : list A) (om om' : objmap) :
  (forall o x o', step o x = Ok o' -> grows o o') ->
  foldM step om xs = Ok om' -> grows om om'.
Proof.
  intros Hstep. revert om. induction xs as [|x xs IH]; intros om; simpl.
  - intros [= <-]. apply grows_refl.
  - intros H. apply bind_Ok in H as (mid & Hmid & H).
    eapply grows_trans; [by eapply Hstep | by apply IH].
Qed.

Lemma store_doc_grows (collection : string) (doc : value) (om om' : objmap) :
  store_doc collection doc om = Ok om' -> grows om om'.
Proof.
  unfold store_doc. intros H. apply bind_Ok in H as (i & _ & [= <-]).
  apply grows_insert.
Qed.

Section Requests.
Variable registry : string -> option doc_class.
Variable from_son :
  doc_class -> list (string * value) ->
  result (doc_head * list (string * value)).
Variable in_bulk : doc_class -> list oid -> result (list (oid * value)).
Variable find : db_handle -> string -> list oid -> result (list (list (string * value))).

Lemma fetch_generic_round (typed_db : doc_class -> db_handle) (default_db : db_handle)
    (doc_type : option dtype) (om om' : objmap) (calls calls' : list io_call)
    (collection : rkey) (dbrefs : gset oid) :
  fetch_generic registry from_son find typed_db default_db doc_type
                (om, calls) collection dbrefs = Ok (om', calls') ->
  exists later, calls' = (calls ++ later)%list /\ length later <= 1
                /\ round_ok om later /\ grows om om'.
Proof.
  unfold fetch_generic.
  destruct (is_complex_dtype doc_type).
  { intros [= <- <-]. exists []. rewrite app_nil_r.
    split; [done|]. split; [simpl; lia|]. split; [|apply grows_refl].
    by intros call H%elem_of_nil. }
  destruct doc_type as [[t|f]|]; [| done |].
  - intros H. apply bind_Ok in H as (name & Hname & H).
    apply bind_Ok in H as (rows & Hrows & H).
    apply bind_Ok in H as (om1 & Hom1 & [= <- <-]).
    eexists. split; [reflexivity|]. split; [simpl; lia|]. split.
    + intros call ->%list_elem_of_singleton. simpl. split; [apply NoDup_pending|].
      intros i Hi. by apply elem_of_pending in Hi as [_ Hi].
    + eapply foldM_grows; [|exact Hom1].
      intros o x o' Hstep. apply bind_Ok in Hstep as (doc & _ & Hstep).
      by eapply store_doc_grows.
  - intros H. apply bind_Ok in H as (name & Hname & H).
    apply bind_Ok in H as (rows & Hrows & H).
    apply bind_Ok in H as (om1 & Hom1 & [= <- <-]).
    eexists. split; [reflexivity|]. split; [simpl; lia|]. split.
    + intros call ->%list_elem_of_singleton. simpl. split; [apply NoDup_pending|].
      intros i Hi. by apply elem_of_pending in Hi as [_ Hi].
    + eapply foldM_grows; [|exact Hom1].
      intros o x o' Hstep. apply bind_Ok in Hstep as (c & _ & Hstep).
      apply bind_Ok in Hstep as (doc & _ & Hstep).
      by eapply store_doc_grows.
Qed.

Lemma fetch_bucket_round (doc_type : option dtype) (om om' : objmap)
    (calls calls' : list io_call) (b : rkey * gset oid) :
  fetch_bucket registry from_son in_bulk find doc_type (om, calls) b
  = Ok (om', calls') ->
  exists later, calls' = (calls ++ later)%list /\ length later <= 1
                /\ round_ok om later /\ grows om om'.
Proof.
  destruct b as [collection dbrefs]. unfold fetch_bucket.
  destruct (ref_document_cls_exists collection) as [c|];
    [|apply fetch_generic_round].
  intros H. apply bind_Ok in H as (references & Href & [= <- <-]).
  eexists. split; [reflexivity|]. split; [simpl; lia|]. split.
  - intros call ->%list_elem_of_singleton. simpl. split; [apply NoDup_pending|].
    intros i Hi. by apply elem_of_pending in Hi as [_ Hi].
  - intros key. apply store_references_mono.
Qed.

Lemma fetch_buckets_round (doc_type : option dtype) (rm : refmap)
    (om om' : objmap) (calls calls' : list io_call) :
  foldM (fetch_bucket registry from_son in_bulk find doc_type) (om, calls) rm
  = Ok (om', calls') ->
  exists later, calls' = (calls ++ later)%list /\ length later <= length rm
                /\ round_ok om later.
Proof.
  revert om calls. induction rm as [|b rm IH]; intros om calls; simpl.
  - intros [= <- <-]. exists []. rewrite app_nil_r.
    split; [done|]. split; [simpl; lia|]. by intros call H%elem_of_nil.
  - intros H. apply bind_Ok in H as ([om1 calls1] & Hb & H).
    apply fetch_bucket_round in Hb as (l1 & -> & Hlen1 & Hok1 & Hgrow).
    apply IH in H as (l2 & -> & Hlen2 & Hok2).
    exists (l1 ++ l2)%list. split; [by rewrite app_assoc|]. split.
    + rewrite length_app. simpl. lia.
    + intros call [Hin|Hin]%elem_of_app; [by apply Hok1|].
      destruct (Hok2 call Hin) as [Hnd Hpending]. split; [done|].
      intros i Hi. specialize (Hpending i Hi).
      destruct (om !! (call_collection call, i)) eqn:Hom; [|done].
      destruct (Hgrow (call_collection call, i)) as [d Hd]; [eauto|]. congruence.
Qed.

(** C3, as amended.  In one run of the blocking fetcher every bucket
    issues at most one lookup, a lookup names each identifier once, and
    once a [(collection, identifier)] key is in the Object Map no later
    lookup asks for it. *)
Theorem resolved_never_requested_again
    (rm1 rm2 : refmap) (doc_type : option dtype)
    (om1 om2 : objmap) (calls1 calls2 : list io_call) :
  fetch_objects registry from_son in_bulk find rm1 doc_type = Ok (om1, calls1) ->
  fetch_objects registry from_son in_bulk find (rm1 ++ rm2)%list doc_type
  = Ok (om2, calls2) ->
  exists later,
    calls2 = (calls1 ++ later)%list
    /\ length later <= length rm2
    /\ forall call, call ∈ later ->
         NoDup (call_ids call)
         /\ forall i, i ∈ call_ids call ->
              om1 !! (call_collection call, i) = None.
Proof.
  unfold fetch_objects. intros H1 H2.
  rewrite foldM_app, H1 in H2. simpl in H2.
  by apply fetch_buckets_round in H2.
Qed.
End Requests.

Lemma resolved_never_requested_again_witness :
  exists later,
    [InBulk Fixture.User [1]; Find (SyncDb "default") "users" []]
    = ([InBulk Fixture.User [1]] ++ later)%list
    /\ length later <= length [(KName "users", ({[ 1 ]} : gset oid))]
    /\ forall call, call ∈ later ->
         NoDup (call_ids call)
         /\ forall i, i ∈ call_ids call ->
              ({[ ("users", 1) := Fixture.alice ]} : objmap)
                !! (call_collection call, i) = None.
Proof.
  apply (resolved_never_requested_again
           Fixture.registry Fixture.from_son Fixture.in_bulk Fixture.find
           [(KClass Fixture.User, {[ 1 ]})] [(KName "users", {[ 1 ]})] None
           {[ ("users", 1) := Fixture.alice ]}
           {[ ("users", 1) := Fixture.alice ]}
           [InBulk Fixture.User [1]]
           [InBulk Fixture.User [1]; Find (SyncDb "default") "users" []]);
    vm_compute; reflexivity.
Defined.

(** C3 as stated fails: user 5 is pointed to by a typed field and by a
    bare pointer and is not stored; the fetcher asks for it twice. *)
Lemma missing_identifier_requested_twice :
  exists rm om calls,
    find_references Fixture.registry 1 3 orphan_tree 0 = Ok rm
    /\ fetch_objects Fixture.registry Fixture.from_son Fixture.in_bulk
                     Fixture.find rm None = Ok (om, calls)
    /\ calls = [InBulk Fixture.User [5]; Find (SyncDb "default") "users" [5]]
    /\ times_requested "users" 5 calls = 2
    /\ ~ (times_requested "users" 5 calls <= 1).
Proof.
  eexists _, _, _. split; [vm_compute; reflexivity|].
  split; [vm_compute; reflexivity|].
  split; [reflexivity|]. split; [vm_compute; reflexivity|].
  vm_compute. lia.
Qed.

(** ** The entry point on a resolved collection *)

(** C7.  When the owner's field [name] is, under its complex wrappers, a
    ReferenceField and every element of [items] is a document of the
    declared class, [__call__] returns [items] itself.  It does so for
    every budget, [0] included: neither scan nor fetch nor attach runs. *)
Theorem resolved_collection_returned_untouched
    (registry : string -> option doc_class)
    (from_son : doc_class -> list (string * value) ->
                result (doc_head * list (string * value)))
    (in_bulk : doc_class -> list oid -> result (list (oid * value)))
    (find : db_handle -> string -> list oid -> result (list (list (string * value))))
    (to_python : doc_class -> bool -> value -> result value)
    (fuel : nat) (items : value) (max_depth : Z)
    (inst : doc_head) (name : string)
    (f : field_decl) (t : doc_class) (dbref : bool) (elems : list value) :
  dict_get name (doc_fields inst) = Some f ->
  unwrap_field f = Some (ReferenceField t dbref) ->
  scan_iterator items = Ok elems ->
  forallb (has_class t) elems = true ->
  dereference registry from_son in_bulk find to_python
              fuel items max_depth (Some inst) (Some name) = Ok items.
Proof.
  intros Hfield Hunwrap Hiter Hall. unfold dereference.
  destruct items; try done; rewrite Hfield, Hunwrap, Hiter; simpl; by rewrite Hall.
Qed.

Lemma resolved_collection_returned_untouched_witness :
  dereference Fixture.registry Fixture.from_son Fixture.in_bulk Fixture.find
              Fixture.to_python 0
              (VList PyList [Fixture.alice; Fixture.alice]) 1
              (Some Fixture.post_head) (Some "likes")
  = Ok (VList PyList [Fixture.alice; Fixture.alice]).
Proof.
  apply (resolved_collection_returned_untouched
           Fixture.registry Fixture.from_son Fixture.in_bulk Fixture.find
           Fixture.to_python 0 (VList PyList [Fixture.alice; Fixture.alice]) 1
           Fixture.post_head "likes"
           (ComplexField ListField (Some (ReferenceField Fixture.User true)))
           Fixture.User true [Fixture.alice; Fixture.alice]);
    reflexivity.
Defined.

(** ** Deferred reference proxies under the suspending variant *)




(** * Properties *)

(** ** [async_switch_db] restores the class *)

Lemma hasattr_setattr_ne cls a b v :
  a ≠ b -> hasattr (setattr cls a v) b = hasattr cls b.
Proof.
  intros Hne. unfold hasattr, setattr; simpl.
  by rewrite lookup_insert_ne.
Qed.

Lemma getattr_setattr_eq cls a v : getattr_or_None (setattr cls a v) a = v.
Proof. unfold getattr_or_None, setattr; simpl. by rewrite lookup_insert_eq. Qed.

Lemma getattr_setattr_ne cls a b v :
  a ≠ b -> getattr_or_None (setattr cls a v) b = getattr_or_None cls b.
Proof.
  intros Hne. unfold getattr_or_None, setattr; simpl.
  by rewrite lookup_insert_ne.
Qed.

Lemma hasattr_false_getattr cls a : hasattr cls a = false -> getattr_or_None cls a = None.
Proof.
  unfold hasattr, getattr_or_None. intros H.
  apply bool_decide_eq_false in H.
  destruct (attrs cls !! a) eqn:E; [|done].
  exfalso. apply H. eauto.
Qed.

Lemma hasattr_set_db_alias cls alias a :
  hasattr (set_db_alias cls alias) a = hasattr cls a.
Proof. done. Qed.

Lemma hasattr_setattr_eq cls a v : hasattr (setattr cls a v) a = true.
Proof.
  unfold hasattr, setattr; simpl. rewrite lookup_insert_eq.
  apply bool_decide_eq_true. eauto.
Qed.

(** C10, as amended.  After [__aexit__], whether the body raised or not
    and whatever the body did to the class:
    - the database alias is the one the class had when the manager was
      constructed ([__init__] reads it), which is the alias before
      [__aenter__] only if it was not changed in between;
    - [_collection] reads as it did before [__aenter__];
    - [_async_collection] reads as it did before [__aenter__] when the
      class has the attribute at exit, and stays absent otherwise, also
      when the body deleted it;
    - the alias and [_collection] are written even where the class had no
      such entry before and read as the default;
    - [__aenter__] and [__aexit__] write no other key of [_meta] and no
      other attribute. *)
Theorem switch_db_restores
    (ensure : string -> result unit) (cls0 cls : class_state) (db_alias : string)
    (self1 : switch_db) (cls1 body_cls : class_state) (exc : option error) :
  switch_db_aenter ensure (switch_db_init cls0 db_alias) cls = Ok (self1, cls1) ->
  let cls' := switch_db_aexit self1 exc body_cls in
  state_db_alias cls' = state_db_alias cls0
  /\ getattr_or_None cls' "_collection" = getattr_or_None cls "_collection"
  /\ getattr_or_None cls' "_async_collection"
     = (if hasattr body_cls "_async_collection"
        then getattr_or_None cls "_async_collection" else None)
  /\ hasattr cls' "_async_collection" = hasattr body_cls "_async_collection"
  /\ meta cls' !! "db_alias" = Some (state_db_alias cls0)
  /\ attrs cls' !! "_collection" = Some (getattr_or_None cls "_collection")
  /\ state_db_alias cls1 = db_alias
  /\ (forall k, k ≠ "db_alias" ->
        meta cls1 !! k = meta cls !! k /\ meta cls' !! k = meta body_cls !! k)
  /\ (forall a, a ≠ "_collection" -> a ≠ "_async_collection" ->
        attrs cls1 !! a = attrs cls !! a /\ attrs cls' !! a = attrs body_cls !! a).
Proof.
  unfold switch_db_aenter, switch_db_init; simpl.
  destruct (ensure db_alias) as [[]|e]; simpl; [|discriminate].
  intros Henter. injection Henter as <- <-.
  unfold switch_db_aexit; simpl.
  rewrite !hasattr_setattr_ne, !hasattr_set_db_alias by done.
  split; [|split; [|split; [|split; [|split; [|split; [|split; [|split]]]]]]].
  - destruct (hasattr body_cls "_async_collection");
      unfold state_db_alias; simpl; by rewrite lookup_insert_eq.
  - destruct (hasattr body_cls "_async_collection").
    + rewrite getattr_setattr_ne by done. by rewrite getattr_setattr_eq.
    + by rewrite getattr_setattr_eq.
  - destruct (hasattr body_cls "_async_collection") eqn:Hb.
    + by rewrite getattr_setattr_eq.
    + apply hasattr_false_getattr.
      by rewrite hasattr_setattr_ne, hasattr_set_db_alias.
  - destruct (hasattr body_cls "_async_collection") eqn:Hb.
    + apply hasattr_setattr_eq.
    + by rewrite hasattr_setattr_ne, hasattr_set_db_alias.
  - destruct (hasattr body_cls "_async_collection"); simpl; by rewrite lookup_insert_eq.
  - destruct (hasattr body_cls "_async_collection"); simpl;
      rewrite ?lookup_insert_ne by done; by rewrite lookup_insert_eq.
  - destruct (hasattr cls "_async_collection");
      unfold state_db_alias; simpl; by rewrite lookup_insert_eq.
  - intros k Hk. split.
    + destruct (hasattr cls "_async_collection"); simpl; by rewrite lookup_insert_ne.
    + destruct (hasattr body_cls "_async_collection"); simpl;
        by rewrite lookup_insert_ne.
  - intros a Ha1 Ha2. split.
    + destruct (hasattr cls "_async_collection"); simpl;
        rewrite ?lookup_insert_ne; done.
    + destruct (hasattr body_cls "_async_collection"); simpl;
        rewrite ?lookup_insert_ne; done.
Qed.

(** The fixture's class, switched to ["testdb-1"] by a manager built on
    the state it is entered on; the body caches a collection and raises *)
Lemma switch_db_restores_witness :
  let cls' :=
    switch_db_aexit
      {| sw_collection := Some 3; sw_async_collection := None;
         sw_db_alias := "testdb-1"; sw_ori_db_alias := "default" |}
      (Some TransportError) group_after_body in
  state_db_alias cls' = state_db_alias Fixture.group_state
  /\ getattr_or_None cls' "_collection"
     = getattr_or_None Fixture.group_state "_collection"
  /\ getattr_or_None cls' "_async_collection"
     = (if hasattr group_after_body "_async_collection"
        then getattr_or_None Fixture.group_state "_async_collection" else None)
  /\ hasattr cls' "_async_collection" = hasattr group_after_body "_async_collection"
  /\ meta cls' !! "db_alias" = Some (state_db_alias Fixture.group_state)
  /\ attrs cls' !! "_collection"
     = Some (getattr_or_None Fixture.group_state "_collection")
  /\ state_db_alias group_entered = "testdb-1"
  /\ (forall k, k ≠ "db_alias" ->
        meta group_entered !! k = meta Fixture.group_state !! k
        /\ meta cls' !! k = meta group_after_body !! k)
  /\ (forall a, a ≠ "_collection" -> a ≠ "_async_collection" ->
        attrs group_entered !! a = attrs Fixture.group_state !! a
        /\ attrs cls' !! a = attrs group_after_body !! a).
Proof.
  apply (switch_db_restores always_async Fixture.group_state Fixture.group_state
           "testdb-1"
           {| sw_collection := Some 3; sw_async_collection := None;
              sw_db_alias := "testdb-1"; sw_ori_db_alias := "default" |}
           group_entered group_after_body (Some TransportError)).
  vm_compute. reflexivity.
Defined.

(** C10 as stated fails.  A manager built while the class was on the
    default alias and entered after the alias was changed to ["a2"] puts
    the class on ["default"] at exit, not on the alias it had before
    [__aenter__]; and a cached [_async_collection] that the body deleted
    is not there after [__aexit__]. *)
Lemma switch_db_alias_of_entry_not_restored :
  (exists self1 cls1,
     switch_db_aenter always_async
       (switch_db_init Fixture.group_state "testdb-1") group_on_a2
     = Ok (self1, cls1)
     /\ state_db_alias group_on_a2 = "a2"
     /\ state_db_alias (switch_db_aexit self1 None cls1) = "default"
     /\ state_db_alias (switch_db_aexit self1 None cls1)
        <> state_db_alias group_on_a2)
  /\ (exists self1 cls1,
        switch_db_aenter always_async
          (switch_db_init group_async "testdb-1") group_async
        = Ok (self1, cls1)
        /\ getattr_or_None group_async "_async_collection" = Some 7
        /\ getattr_or_None (switch_db_aexit self1 None group_async_deleted)
                           "_async_collection" = None).
Proof.
  split.
  - eexists _, _. split; [reflexivity|]. split; [reflexivity|].
    split; [vm_compute; reflexivity|]. vm_compute. discriminate.
  - eexists _, _. split; [reflexivity|]. split; [vm_compute; reflexivity|].
    vm_compute. reflexivity.
Qed.

(** * Further properties *)

(** ** The context managers *)

Lemma hasattr_true_getattr (cls : class_state) (a : string) (v : option nat) :
  attrs cls !! a = Some v -> getattr_or_None cls a = v.
Proof. unfold getattr_or_None. by intros ->. Qed.

(** X1.  [async_switch_db] keeps the alias it read in [__init__], not the
    one the class has at [__aenter__]: inside the block the class reads
    the new alias and both cached collections read [None]; after
    [__aexit__], whatever the body did and whether or not it raised, the
    alias is the one of the class at construction, [_collection] is the
    one cached at entry, and [_async_collection] is the one cached at
    entry when the class has that attribute at exit, and stays absent
    when it has not. *)
Theorem switch_db_restores_alias_of_construction
    (ensure : string -> result unit) (cls0 cls : class_state) (db_alias : string)
    (self1 : switch_db) (cls1 body_cls : class_state) (exc : option error) :
  switch_db_aenter ensure (switch_db_init cls0 db_alias) cls = Ok (self1, cls1) ->
  (state_db_alias cls1 = db_alias
   /\ getattr_or_None cls1 "_collection" = None
   /\ getattr_or_None cls1 "_async_collection" = None
   /\ hasattr cls1 "_async_collection" = hasattr cls "_async_collection")
  /\ state_db_alias (switch_db_aexit self1 exc body_cls) = state_db_alias cls0
  /\ getattr_or_None (switch_db_aexit self1 exc body_cls) "_collection"
     = getattr_or_None cls "_collection"
  /\ (hasattr body_cls "_async_collection" = true ->
      attrs (switch_db_aexit self1 exc body_cls) !! "_async_collection"
      = Some (getattr_or_None cls "_async_collection"))
  /\ (hasattr body_cls "_async_collection" = false ->
      attrs (switch_db_aexit self1 exc body_cls) !! "_async_collection" = None).
Proof.
  unfold switch_db_aenter, switch_db_init; simpl.
  destruct (ensure db_alias) as [[]|e]; simpl; [|discriminate].
  intros [= <- <-].
  assert (Hmeta : forall c a, hasattr (set_db_alias c a) "_async_collection"
                              = hasattr c "_async_collection") by done.
  rewrite !hasattr_setattr_ne, !Hmeta by done.
  split; [split; [|split; [|split]]|split; [|split; [|split]]].
  - destruct (hasattr cls "_async_collection");
      unfold state_db_alias; simpl; by rewrite lookup_insert_eq.
  - destruct (hasattr cls "_async_collection").
    + rewrite getattr_setattr_ne by done. apply getattr_setattr_eq.
    + apply getattr_setattr_eq.
  - destruct (hasattr cls "_async_collection") eqn:Hc.
    + apply getattr_setattr_eq.
    + apply hasattr_false_getattr.
      by rewrite hasattr_setattr_ne, Hmeta.
  - destruct (hasattr cls "_async_collection") eqn:Hc.
    + unfold hasattr, setattr; simpl. rewrite lookup_insert_eq.
      apply bool_decide_eq_true. eauto.
    + by rewrite hasattr_setattr_ne, Hmeta.
  - unfold switch_db_aexit; simpl.
    rewrite !hasattr_setattr_ne, !Hmeta by done.
    destruct (hasattr body_cls "_async_collection");
      unfold state_db_alias; simpl; by rewrite lookup_insert_eq.
  - unfold switch_db_aexit; simpl.
    rewrite !hasattr_setattr_ne, !Hmeta by done.
    destruct (hasattr body_cls "_async_collection").
    + rewrite getattr_setattr_ne by done. apply getattr_setattr_eq.
    + apply getattr_setattr_eq.
  - intros Hb. unfold switch_db_aexit; simpl.
    rewrite !hasattr_setattr_ne, !Hmeta, Hb by done. simpl.
    by rewrite lookup_insert_eq.
  - intros Hb. unfold switch_db_aexit; simpl.
    rewrite !hasattr_setattr_ne, !Hmeta, Hb by done. simpl.
    rewrite lookup_insert_ne by done.
    unfold hasattr in Hb. apply bool_decide_eq_false in Hb.
    destruct (attrs body_cls !! "_async_collection") eqn:E; [|done].
    exfalso. apply Hb. eauto.
Qed.

(** A manager built while the class was on the default alias and entered
    after the class had been given a cached asynchronous collection and
    put on ["a2"]; the body caches another asynchronous collection *)
Lemma switch_db_restores_alias_of_construction_witness :
  exists self1 cls1,
    switch_db_aenter always_async (switch_db_init Fixture.group_state "testdb-2")
                     (set_db_alias group_async "a2") = Ok (self1, cls1)
    /\ (state_db_alias cls1 = "testdb-2"
        /\ getattr_or_None cls1 "_collection" = None
        /\ getattr_or_None cls1 "_async_collection" = None
        /\ hasattr cls1 "_async_collection"
           = hasattr (set_db_alias group_async "a2") "_async_collection")
    /\ state_db_alias
         (switch_db_aexit self1 None (setattr cls1 "_async_collection" (Some 8)))
       = state_db_alias Fixture.group_state
    /\ getattr_or_None
         (switch_db_aexit self1 None (setattr cls1 "_async_collection" (Some 8)))
         "_collection"
       = getattr_or_None (set_db_alias group_async "a2") "_collection"
    /\ (hasattr (setattr cls1 "_async_collection" (Some 8)) "_async_collection"
        = true ->
        attrs (switch_db_aexit self1 None
                 (setattr cls1 "_async_collection" (Some 8)))
          !! "_async_collection"
        = Some (getattr_or_None (set_db_alias group_async "a2")
                                "_async_collection"))
    /\ (hasattr (setattr cls1 "_async_collection" (Some 8)) "_async_collection"
        = false ->
        attrs (switch_db_aexit self1 None
                 (setattr cls1 "_async_collection" (Some 8)))
          !! "_async_collection" = None).
Proof.
  eexists _, _. split; [reflexivity|].
  apply (switch_db_restores_alias_of_construction
           always_async Fixture.group_state (set_db_alias group_async "a2")
           "testdb-2").
  reflexivity.
Defined.

(** X2.  [async_switch_collection] keeps the name getter it read in
    [__init__]: inside the block [_get_collection_name] answers the new
    name whatever the state of the class, both cached collections read
    [None] and [_meta] is as before; [__aexit__] raises nothing, puts
    back the [_get_collection_name] the class had when the manager was
    constructed, whatever the class had at entry and whatever the body
    did to it, and the cached collections read as at entry, provided the
    body did not delete [_async_collection].  No other attribute and no
    key of [_meta] is written. *)
Theorem switch_collection_restores
    (ensure : string -> result unit) (get_db_alias : class_state -> string)
    (cls0 cls : named_class) (collection_name : string)
    (self1 : switch_collection) (cls1 body_cls : named_class)
    (exc : option error) :
  switch_collection_aenter ensure get_db_alias
    (switch_collection_init cls0 collection_name) cls = Ok (self1, cls1) ->
  (hasattr (nc_state cls) "_async_collection" = true ->
   hasattr (nc_state body_cls) "_async_collection" = true) ->
  ((forall st, nc_get_collection_name cls1 st = collection_name)
   /\ getattr_or_None (nc_state cls1) "_collection" = None
   /\ getattr_or_None (nc_state cls1) "_async_collection" = None
   /\ meta (nc_state cls1) = meta (nc_state cls))
  /\ exists cls',
       switch_collection_aexit self1 exc body_cls = Ok cls'
       /\ nc_get_collection_name cls' = nc_get_collection_name cls0
       /\ getattr_or_None (nc_state cls') "_collection"
          = getattr_or_None (nc_state cls) "_collection"
       /\ getattr_or_None (nc_state cls') "_async_collection"
          = getattr_or_None (nc_state cls) "_async_collection"
       /\ meta (nc_state cls') = meta (nc_state body_cls)
       /\ (forall a, a ≠ "_collection" -> a ≠ "_async_collection" ->
             attrs (nc_state cls') !! a = attrs (nc_state body_cls) !! a).
Proof.
  unfold switch_collection_aenter, switch_collection_init; simpl.
  destruct (ensure _) as [[]|e]; simpl; [|discriminate].
  intros [= <- <-] Hkeep. simpl.
  rewrite !hasattr_setattr_ne by done.
  split; [split; [|split; [|split]]|].
  - done.
  - destruct (hasattr (nc_state cls) "_async_collection").
    + rewrite getattr_setattr_ne by done. apply getattr_setattr_eq.
    + apply getattr_setattr_eq.
  - destruct (hasattr (nc_state cls) "_async_collection") eqn:Hc.
    + apply getattr_setattr_eq.
    + apply hasattr_false_getattr. by rewrite hasattr_setattr_ne.
  - by destruct (hasattr (nc_state cls) "_async_collection").
  - unfold switch_collection_aexit; simpl.
    rewrite !hasattr_setattr_ne by done.
    destruct (hasattr (nc_state body_cls) "_async_collection") eqn:Hb; simpl;
      eexists; (split; [reflexivity|]); simpl;
      (split; [done|]); (split; [|split; [|split; [done|]]]).
    + rewrite getattr_setattr_ne by done. apply getattr_setattr_eq.
    + apply getattr_setattr_eq.
    + intros a Ha1 Ha2. by rewrite !lookup_insert_ne.
    + apply getattr_setattr_eq.
    + rewrite getattr_setattr_ne by done.
      destruct (hasattr (nc_state cls) "_async_collection") eqn:Hc.
      * specialize (Hkeep eq_refl). congruence.
      * rewrite (hasattr_false_getattr (nc_state cls)) by done.
        by apply hasattr_false_getattr.
    + intros a Ha1 Ha2. by rewrite lookup_insert_ne.
Qed.

(** A manager built on the fixture's class and entered after the name
    getter of the class was replaced: at exit the class has the getter of
    the construction, not the one it had at entry *)
Lemma switch_collection_restores_witness :
  ((forall st, nc_get_collection_name group_switched st = "group_backup")
   /\ getattr_or_None (nc_state group_switched) "_collection" = None
   /\ getattr_or_None (nc_state group_switched) "_async_collection" = None
   /\ meta (nc_state group_switched) = meta (nc_state group_renamed))
  /\ exists cls',
       switch_collection_aexit group_switch (Some KeyError)
                               group_switched_after_body = Ok cls'
       /\ nc_get_collection_name cls' = nc_get_collection_name group_class
       /\ getattr_or_None (nc_state cls') "_collection"
          = getattr_or_None (nc_state group_renamed) "_collection"
       /\ getattr_or_None (nc_state cls') "_async_collection"
          = getattr_or_None (nc_state group_renamed) "_async_collection"
       /\ meta (nc_state cls') = meta (nc_state group_switched_after_body)
       /\ (forall a, a ≠ "_collection" -> a ≠ "_async_collection" ->
             attrs (nc_state cls') !! a
             = attrs (nc_state group_switched_after_body) !! a).
Proof.
  apply (switch_collection_restores always_async state_db_alias
           group_class group_renamed "group_backup" group_switch group_switched
           group_switched_after_body (Some KeyError)).
  - vm_compute. reflexivity.
  - vm_compute. discriminate.
Defined.

(** ** The class name derived from a collection name *)

Lemma string_append_assoc (s t u : string) : (s ++ t) ++ u = s ++ (t ++ u).
Proof.
  induction s as [|c s IH]; [reflexivity|].
  change (String c ((s ++ t) ++ u) = String c (s ++ (t ++ u))). by rewrite IH.
Qed.

Lemma string_append_empty_r (s : string) : s ++ EmptyString = s.
Proof.
  induction s as [|c s IH]; [reflexivity|].
  change (String c (s ++ EmptyString) = String c s). by rewrite IH.
Qed.

Lemma split_underscore_from_app (cur a b : string) :
  split_underscore_from cur (a ++ String "_" b)
  = (split_underscore_from cur a ++ split_underscore_from EmptyString b)%list.
Proof.
  revert cur. induction a as [|c a IH]; intros cur; simpl; [done|].
  destruct (Ascii.eqb c "_"); simpl; by rewrite IH.
Qed.

Lemma join_app (l1 l2 : list string) :
  fold_right String.append EmptyString (l1 ++ l2)%list
  = fold_right String.append EmptyString l1
    ++ fold_right String.append EmptyString l2.
Proof.
  induction l1 as [|s l1 IH]; simpl; [done|].
  rewrite IH. symmetry. apply string_append_assoc.
Qed.

Lemma has_char_app (c : ascii) (s t : string) :
  has_char c (s ++ t) = has_char c s || has_char c t.
Proof.
  induction s as [|d s IH]; simpl; [done|]. by rewrite IH, orb_assoc.
Qed.

Lemma upper_not_underscore (c : ascii) :
  Ascii.eqb c "_" = false -> Ascii.eqb (upper c) "_" = false.
Proof.
  destruct c as [[] [] [] [] [] [] [] []]; vm_compute; congruence.
Qed.

Lemma lower_not_underscore (c : ascii) :
  Ascii.eqb c "_" = false -> Ascii.eqb (lower c) "_" = false.
Proof.
  destruct c as [[] [] [] [] [] [] [] []]; vm_compute; congruence.
Qed.

Lemma capitalize_no_underscore (s : string) :
  has_char "_" s = false -> has_char "_" (capitalize s) = false.
Proof.
  destruct s as [|c s]; simpl; [done|].
  intros [Hc Hs]%orb_false_iff.
  rewrite (upper_not_underscore c Hc). simpl.
  induction s as [|d s IH]; simpl in *; [done|].
  apply orb_false_iff in Hs as [Hd Hs].
  rewrite (lower_not_underscore d Hd). simpl. by apply IH.
Qed.

Lemma split_pieces_no_underscore (cur s piece : string) :
  has_char "_" cur = false ->
  piece ∈ split_underscore_from cur s -> has_char "_" piece = false.
Proof.
  revert cur. induction s as [|c s IH]; intros cur Hcur; simpl.
  - by intros ->%list_elem_of_singleton.
  - destruct (Ascii.eqb c "_") eqn:Hc.
    + intros [->|Hin]%elem_of_cons; [done|]. by apply (IH EmptyString).
    + apply IH. rewrite has_char_app, Hcur. simpl. by rewrite Hc.
Qed.

(** X3.  The class name the fetcher derives from a collection name for a
    row without a discriminator capitalizes the words between underscores
    and joins them: it distributes over ["_"], is the capitalized name
    when there is no underscore, and never contains an underscore. *)
Theorem class_name_of_collection_camel_case (a b : string) :
  class_name_of_collection (a ++ String "_" b)
  = class_name_of_collection a ++ class_name_of_collection b
  /\ (has_char "_" a = false -> class_name_of_collection a = capitalize a)
  /\ has_char "_" (class_name_of_collection a) = false.
Proof.
  unfold class_name_of_collection, split_underscore. split; [|split].
  - rewrite split_underscore_from_app.
    change (map capitalize ?l) with (capitalize <$> l).
    rewrite fmap_app. apply join_app.
  - intros Hno.
    assert (Hsplit : forall cur s, has_char "_" s = false ->
                       split_underscore_from cur s = [cur ++ s]).
    { intros cur s. revert cur. induction s as [|c s IH]; intros cur Hs; simpl.
      - by rewrite string_append_empty_r.
      - simpl in Hs. apply orb_false_iff in Hs as [Hc Hs]. rewrite Hc.
        rewrite IH by done. by rewrite string_append_assoc. }
    rewrite (Hsplit EmptyString a Hno). simpl.
    apply string_append_empty_r.
  - assert (Hall : forall pieces : list string,
              (forall p, p ∈ pieces -> has_char "_" p = false) ->
              has_char "_" (fold_right String.append EmptyString
                                       (map capitalize pieces)) = false).
    { induction pieces as [|p pieces IH]; intros Hp; simpl; [done|].
      rewrite has_char_app, capitalize_no_underscore.
      - apply IH. intros q Hq. apply Hp. by apply list_elem_of_further.
      - apply Hp. apply list_elem_of_here. }
    apply Hall. intros p Hp. by apply (split_pieces_no_underscore EmptyString a).
Qed.

(** ** The blocking fetcher against the stored data *)

Section StoreByCollection.
Variable registry : string -> option doc_class.
Variable from_son :
  doc_class -> list (string * value) ->
  result (doc_head * list (string * value)).
Variable in_bulk : doc_class -> list oid -> result (list (oid * value)).
Variable find : db_handle -> string -> list oid -> result (list (list (string * value))).

(** The documents of a collection, by identifier *)
Variable stored : string -> oid -> option value.

Hypothesis in_bulk_answers : forall c refs,
  NoDup refs ->
  exists res, in_bulk c refs = Ok res /\ NoDup res.*1 /\
    forall i d, (i, d) ∈ res <-> i ∈ refs /\ stored (cls_collection c) i = Some d.

Lemma store_references_lookup (col_name : string) (refs : list oid)
    (res : list (oid * value)) (om : objmap) (key : string * oid) :
  NoDup res.*1 ->
  (forall i d, (i, d) ∈ res <-> i ∈ refs /\ stored col_name i = Some d) ->
  store_references col_name res om !! key
  = if decide (key.1 = col_name /\ key.2 ∈ refs /\ is_Some (stored col_name key.2))
    then stored col_name key.2
    else om !! key.
Proof.
  intros Hnd Hres. destruct key as [col k]; simpl.
  destruct (decide _) as [(-> & Hin & [d Hd])|Hno].
  - rewrite Hd. apply store_references_in; [done|]. by apply Hres.
  - apply store_references_other. intros k' d' Hin' [= <- ->].
    apply Hres in Hin' as [Hin' Hst]. apply Hno. eauto.
Qed.

Lemma fetch_buckets_fetched (doc_type : option dtype) (rm : refmap) :
  typed_buckets rm ->
  forall (done_ : refmap) (om : objmap) (calls : list io_call),
    fetched stored done_ om ->
    exists om' calls',
      foldM (fetch_bucket registry from_son in_bulk find doc_type) (om, calls) rm
      = Ok (om', calls')
      /\ fetched stored (done_ ++ rm)%list om'.
Proof.
  induction rm as [|[key ids] rm IH]; intros Htyped done_ om calls Hinv.
  - exists om, calls. split; [done|]. by rewrite app_nil_r.
  - destruct (Htyped key ids) as (c & -> & Hobj); [apply list_elem_of_here|].
    cbn [foldM]. unfold fetch_bucket at 1, ref_document_cls_exists. rewrite Hobj.
    set (col := cls_collection c). set (refs := pending col ids om).
    destruct (in_bulk_answers c refs (NoDup_pending _ _ _))
      as (res & -> & Hnd & Hres). cbn [bind].
    assert (Hlook := fun key => store_references_lookup col refs res om key Hnd Hres).
    destruct Hinv as [Hdone Honly].
    destruct (IH (fun k s Hin => Htyped k s (list_elem_of_further _ _ _ Hin))
                 (done_ ++ [(KClass c, ids)])%list
                 (store_references col res om)
                 (calls ++ [InBulk c refs])%list) as (om' & calls' & Hfold & Hinv').
    { split.
      - intros c0 ids0 i [Hin|Hin]%elem_of_app Hi.
        + rewrite Hlook. simpl. specialize (Hdone c0 ids0 i Hin Hi).
          destruct (decide _) as [(Hcol & _ & _)|_]; [by rewrite Hcol|done].
        + apply list_elem_of_singleton in Hin as [= <- <-].
          rewrite Hlook. simpl. fold col.
          destruct (decide _) as [_|Hno]; [done|].
          destruct (om !! (col, i)) as [o|] eqn:Hom.
          * symmetry. by apply Honly.
          * destruct (stored col i) eqn:Hst; [|done].
            exfalso. apply Hno. split; [done|]. split; [|eauto].
            by apply elem_of_pending.
      - intros col0 i o. rewrite Hlook. simpl.
        destruct (decide _) as [(-> & Hin & _)|_].
        + intros Hst. split; [done|].
          exists c, ids. split; [apply elem_of_app; right; apply list_elem_of_here|].
          split; [done|]. by apply elem_of_pending in Hin as [Hin _].
        + intros Hom. destruct (Honly col0 i o Hom) as [Hst (c0 & ids0 & Hin & Hc & Hi)].
          split; [done|]. exists c0, ids0. split; [|done].
          apply elem_of_app. by left. }
    exists om', calls'. split; [exact Hfold|].
    by rewrite <- app_assoc in Hinv'.
Qed.

(** X4.  When every bucket is keyed by a document class with [objects]
    and [in_bulk] answers from the stored data, the blocking fetcher
    returns, and its Object Map holds exactly the requested identifiers
    that are stored, each with its stored document. *)
Theorem fetch_stores_what_is_stored (rm : refmap) (doc_type : option dtype) :
  typed_buckets rm ->
  exists om calls,
    fetch_objects registry from_son in_bulk find rm doc_type = Ok (om, calls)
    /\ (forall c ids i, (KClass c, ids) ∈ rm -> i ∈ ids ->
          om !! (cls_collection c, i) = stored (cls_collection c) i)
    /\ (forall col i o, om !! (col, i) = Some o ->
          stored col i = Some o /\ requested_in rm col i).
Proof.
  intros Htyped.
  destruct (fetch_buckets_fetched doc_type rm Htyped [] ∅ [])
    as (om & calls & Hfold & Hinv).
  { split; [intros c ids i H; by apply elem_of_nil in H|]. intros col i o H.
    by rewrite lookup_empty in H. }
  exists om, calls. split; [exact Hfold|]. exact Hinv.
Qed.
End StoreByCollection.

Lemma fetch_stores_what_is_stored_witness :
  exists om calls,
    fetch_objects Fixture.registry Fixture.from_son Fixture.in_bulk Fixture.find
                  [(KClass Fixture.User, {[ 1; 2 ]}); (KClass Fixture.Member, {[ 1 ]})]
                  None = Ok (om, calls)
    /\ (forall c ids i,
          (KClass c, ids)
            ∈ [(KClass Fixture.User, ({[ 1; 2 ]} : gset oid));
               (KClass Fixture.Member, {[ 1 ]})] ->
          i ∈ ids ->
          om !! (cls_collection c, i) = stored_by_collection (cls_collection c) i)
    /\ (forall col i o, om !! (col, i) = Some o ->
          stored_by_collection col i = Some o
          /\ requested_in [(KClass Fixture.User, {[ 1; 2 ]});
                           (KClass Fixture.Member, {[ 1 ]})] col i).
Proof.
  apply (fetch_stores_what_is_stored
           Fixture.registry Fixture.from_son Fixture.in_bulk Fixture.find
           stored_by_collection).
  - intros c refs. apply (fixture_in_bulk_stored c refs).
  - intros key ids Hin. apply elem_of_cons in Hin as [[= -> ->]|Hin]; [eauto|].
    apply list_elem_of_singleton in Hin as [= -> ->]. eauto.
Defined.

(** ** The scanner: what it collects *)

Lemma bucket_setdefault_update (key key' : rkey) (refs : gset oid) (rm : refmap) :
  bucket key (setdefault_update key' refs rm)
  = if decide (key = key') then bucket key rm ∪ refs else bucket key rm.
Proof.
  induction rm as [|[k s] rm IH]; simpl.
  - destruct (decide (key' = key)) as [->|Hne].
    + rewrite decide_True by done. by rewrite (left_id_L ∅ (∪)).
    + rewrite decide_False by congruence. done.
  - destruct (decide (k = key')) as [->|Hk]; simpl.
    + destruct (decide (key' = key)) as [->|Hne].
      * by rewrite decide_True.
      * by rewrite decide_False by congruence.
    + destruct (decide (k = key)) as [->|Hne].
      * by rewrite decide_False by congruence.
      * exact IH.
Qed.

Lemma buckets_le_refl (rm : refmap) : buckets_le rm rm.
Proof. by intros key. Qed.

Lemma buckets_le_trans (rm1 rm2 rm3 : refmap) :
  buckets_le rm1 rm2 -> buckets_le rm2 rm3 -> buckets_le rm1 rm3.
Proof. intros H12 H23 key. specialize (H12 key). specialize (H23 key). set_solver. Qed.

Lemma buckets_le_setdefault_update (key : rkey) (refs : gset oid) (rm : refmap) :
  buckets_le rm (setdefault_update key refs rm).
Proof.
  intros key'. rewrite bucket_setdefault_update. destruct (decide _); set_solver.
Qed.

Lemma elem_of_setdefault_add (key : rkey) (i : oid) (rm : refmap) :
  i ∈ bucket key (setdefault_add key i rm).
Proof.
  unfold setdefault_add. rewrite bucket_setdefault_update, decide_True by done.
  set_solver.
Qed.

Lemma merge_references_rekey (field_cls : option doc_class)
    (references rm : refmap) :
  merge_references field_cls references rm
  = fold_left (fun acc kr => setdefault_update (rekey field_cls kr.1) kr.2 acc)
              references rm.
Proof.
  unfold merge_references. revert rm.
  induction references as [|[k s] refs IH]; intros rm; simpl; [done|].
  apply IH.
Qed.

Lemma buckets_le_merge (field_cls : option doc_class) (references rm : refmap) :
  buckets_le rm (merge_references field_cls references rm).
Proof.
  rewrite merge_references_rekey. revert rm.
  induction references as [|[k s] refs IH]; intros rm; simpl.
  - apply buckets_le_refl.
  - eapply buckets_le_trans; [apply buckets_le_setdefault_update | apply IH].
Qed.

Lemma elem_of_bucket (key : rkey) (rm : refmap) (i : oid) :
  i ∈ bucket key rm -> exists s, (key, s) ∈ rm /\ i ∈ s.
Proof.
  induction rm as [|[k s] rm IH]; simpl; [set_solver|].
  destruct (decide (k = key)) as [->|Hne].
  - intros Hi. exists s. split; [apply list_elem_of_here | done].
  - intros Hi. destruct (IH Hi) as (s' & Hin & Hi'). exists s'.
    split; [by apply list_elem_of_further | done].
Qed.

(** A nested map's identifiers are in the merged map, under the key the
    field gives them. *)
Lemma merge_references_contains (field_cls : option doc_class)
    (references rm : refmap) (key : rkey) (i : oid) :
  i ∈ bucket key references ->
  i ∈ bucket (rekey field_cls key) (merge_references field_cls references rm).
Proof.
  intros Hi. apply elem_of_bucket in Hi as (s & Hin & Hi).
  rewrite merge_references_rekey. revert rm.
  induction references as [|[k s'] refs IH]; intros rm; simpl.
  - by apply elem_of_nil in Hin.
  - apply elem_of_cons in Hin as [[= <- <-]|Hin].
    + pose proof (buckets_le_merge field_cls refs
                    (setdefault_update (rekey field_cls key) s rm)) as Hle.
      rewrite merge_references_rekey in Hle. apply Hle.
      rewrite bucket_setdefault_update, decide_True by done. set_solver.
    + by apply IH.
Qed.

Lemma foldM_buckets_le {A : Type} (step : refmap -> A -> result refmap)
    (xs : list A) (rm rm' : refmap) :
  (forall acc x acc', step acc x = Ok acc' -> buckets_le acc acc') ->
  foldM step rm xs = Ok rm' -> buckets_le rm rm'.
Proof.
  intros Hstep. revert rm. induction xs as [|x xs IH]; intros rm; simpl.
  - intros [= <-]. apply buckets_le_refl.
  - intros H. apply bind_Ok in H as (mid & Hmid & H).
    eapply buckets_le_trans; [by eapply Hstep | by apply IH].
Qed.

Section ScanFacts.
Variable registry : string -> option doc_class.
Variable max_depth : Z.

Lemma scan_tagged_entry (kvs : list (string * value)) (rm rm' : refmap) :
  scan_tagged registry kvs rm = Ok rm' ->
  exists c i, tagged_entry registry kvs = Some (KClass c, i)
              /\ rm' = setdefault_add (KClass c) i rm.
Proof.
  unfold scan_tagged, tagged_entry. intros H.
  apply bind_Ok in H as (cls_name & -> & H).
  apply bind_Ok in H as (c & -> & H).
  apply bind_Ok in H as (r & -> & H).
  apply bind_Ok in H as (i & -> & [= <-]). eauto.
Qed.

Lemma scan_field_le (scan : value -> Z -> result refmap) (depth : Z)
    (d : list (string * value)) (rm rm' : refmap) (fld : string * field_decl) :
  scan_field registry max_depth scan depth d rm fld = Ok rm' -> buckets_le rm rm'.
Proof.
  destruct fld as [f fd]. unfold scan_field.
  assert (Hnested : forall v,
            (if (depth <=? max_depth)%Z
             then let* references := scan v depth in
                  Ok (merge_references (field_cls_of fd) references rm)
             else Ok rm) = Ok rm' -> buckets_le rm rm').
  { intros v. destruct (depth <=? max_depth)%Z.
    - intros H. apply bind_Ok in H as (refs & _ & [= <-]). apply buckets_le_merge.
    - intros [= <-]. apply buckets_le_refl. }
  destruct (get_or_None f d) eqn:Hv;
    try (intros [= <-]; apply buckets_le_refl); try apply Hnested.
  - intros H. apply bind_Ok in H as (t & _ & [= <-]).
    apply buckets_le_setdefault_update.
  - destruct (dict_has "_ref" entries); [|apply Hnested].
    intros H. apply scan_tagged_entry in H as (c & i & _ & ->).
    apply buckets_le_setdefault_update.
Qed.

Lemma scan_item_le (scan : value -> Z -> result refmap) (depth : Z)
    (rm rm' : refmap) (item : value) :
  scan_item registry max_depth (scan_field registry max_depth) scan depth rm item
  = Ok rm' ->
  buckets_le rm rm'.
Proof.
  unfold scan_item.
  assert (Hnested :
            (if (depth - 1 <=? max_depth)%Z
             then let* references := scan item (depth - 1)%Z in
                  Ok (merge_references None references rm)
             else Ok rm) = Ok rm' -> buckets_le rm rm').
  { destruct (depth - 1 <=? max_depth)%Z.
    - intros H. apply bind_Ok in H as (refs & _ & [= <-]). apply buckets_le_merge.
    - intros [= <-]. apply buckets_le_refl. }
  destruct item; try (intros [= <-]; apply buckets_le_refl); try apply Hnested.
  - intros [= <-]. apply buckets_le_setdefault_update.
  - destruct (dict_has "_ref" entries); [|apply Hnested].
    intros H. apply scan_tagged_entry in H as (c & i & _ & ->).
    apply buckets_le_setdefault_update.
  - apply foldM_buckets_le. intros acc x acc'. apply scan_field_le.
Qed.

(** An element's own contribution survives the rest of the loop. *)
Lemma foldM_contribution {A : Type} (step : refmap -> A -> result refmap)
    (xs : list A) (x : A) (rm : refmap) (key : rkey) (i : oid) :
  (forall acc y acc', step acc y = Ok acc' -> buckets_le acc acc') ->
  (forall acc acc', step acc x = Ok acc' -> i ∈ bucket key acc') ->
  x ∈ xs ->
  forall acc, foldM step acc xs = Ok rm -> i ∈ bucket key rm.
Proof.
  intros Hle Hx Hin acc Hfold.
  apply list_elem_of_split in Hin as (l1 & l2 & ->).
  rewrite foldM_app in Hfold. apply bind_Ok in Hfold as (acc1 & _ & Hfold).
  cbn [foldM] in Hfold. apply bind_Ok in Hfold as (acc2 & Hstep & Hfold).
  apply (foldM_buckets_le step l2 acc2 rm Hle Hfold). by eapply Hx.
Qed.

Lemma element_in_iterator (s : step) (items x : value) :
  element s items = Some x ->
  exists iterator, scan_iterator items = Ok iterator /\ x ∈ iterator.
Proof.
  destruct s as [k|key|f], items; simpl; try done.
  - intros Hx. eexists. split; [done|]. apply list_elem_of_lookup. eauto.
  - intros Hx. eexists. split; [done|].
    apply dict_get_elem_of in Hx.
    change (map snd entries) with (snd <$> entries).
    apply list_elem_of_fmap. by exists (key, x).
Qed.

(** The scanner is complete up to its depth bound. *)
Lemma find_references_complete (fuel : nat) :
  forall (items : value) (depth : Z) (rm : refmap)
         (p : list step) (key : rkey) (i : oid),
    find_references registry max_depth fuel items depth = Ok rm ->
    collected_at registry max_depth p items depth = Some (key, i) ->
    i ∈ bucket key rm.
Proof.
  induction fuel as [|fuel IH]; intros items depth rm p key i Hscan Hcol; [done|].
  unfold find_references in Hscan. cbn [find_references_with] in Hscan.
  fold (find_references registry max_depth fuel) in Hscan.
  unfold find_references_body in Hscan.
  destruct p as [|s p']; simpl in Hcol.
  { by destruct (max_depth <=? depth)%Z. }
  destruct (Z.leb_spec max_depth depth) as [Hge|Hlt]; [done|].
  destruct (element s items) as [x|] eqn:Hx; [|done].
  assert (Htruthy : truthy items = true).
  { destruct s, items; simpl in Hx; try done.
    - by destruct elems.
    - by destruct entries. }
  rewrite Htruthy in Hscan. simpl in Hscan.
  destruct (element_in_iterator s items x Hx) as (iterator & Hiter & Hin).
  rewrite Hiter in Hscan. cbn [bind] in Hscan.
  eapply (foldM_contribution _ iterator x rm key i); [| |exact Hin|exact Hscan].
  { intros acc y acc'. apply scan_item_le. }
  intros acc acc' Hstep. unfold scan_item in Hstep.
  replace (depth + 1 - 1)%Z with depth in Hstep by lia.
  assert (Hle : (depth <=? max_depth)%Z = true) by (apply Z.leb_le; lia).
  rewrite Hle in Hstep.
  destruct x as [| | |c j| |k xs|k kvs|h d|]; try done.
  - (* a bare pointer *)
    destruct p'; [|done]. injection Hcol as <- <-. injection Hstep as <-.
    apply elem_of_setdefault_add.
  - (* a nested list *)
    apply bind_Ok in Hstep as (refs & Hrefs & [= <-]).
    apply (merge_references_contains None refs acc key i).
    by apply (IH _ _ _ p' _ _ Hrefs).
  - (* a mapping *)
    destruct (dict_has "_ref" kvs).
    + destruct (is_ref_step p'); [|done].
      apply scan_tagged_entry in Hstep as (c & j & Hentry & ->).
      rewrite Hentry in Hcol. injection Hcol as <- <-.
      apply elem_of_setdefault_add.
    + apply bind_Ok in Hstep as (refs & Hrefs & [= <-]).
      apply (merge_references_contains None refs acc key i).
      by apply (IH _ _ _ p' _ _ Hrefs).
  - (* a record *)
    destruct p' as [|[|?|f] p'']; try done.
    destruct (dict_get f (doc_fields h)) as [fd|] eqn:Hfd; [|done].
    apply dict_get_elem_of in Hfd.
    eapply (foldM_contribution _ (doc_fields h) (f, fd) acc' key i);
      [| |exact Hfd|exact Hstep].
    { intros a y a'. apply scan_field_le. }
    intros a a' Hfield. unfold scan_field in Hfield.
    destruct (get_or_None f d) as [| | |c j| |k xs|k kvs| |]; try done.
    + destruct p''; [|done].
      destruct (field_document_type fd) as [t|e]; [|done].
      injection Hcol as <- <-. injection Hfield as <-.
      apply elem_of_setdefault_add.
    + destruct (depth + 1 <=? max_depth)%Z; [|done].
      apply bind_Ok in Hfield as (refs & Hrefs & [= <-]).
      destruct (collected_at registry max_depth p'' (VList k xs) (depth + 1))
        as [[key0 i0]|] eqn:Hnested; [|done].
      injection Hcol as <- <-.
      apply merge_references_contains. by apply (IH _ _ _ p'' _ _ Hrefs).
    + destruct (dict_has "_ref" kvs).
      * destruct (is_ref_step p''); [|done].
        apply scan_tagged_entry in Hfield as (c & j & Hentry & ->).
        rewrite Hentry in Hcol. injection Hcol as <- <-.
        apply elem_of_setdefault_add.
      * destruct (depth + 1 <=? max_depth)%Z; [|done].
        apply bind_Ok in Hfield as (refs & Hrefs & [= <-]).
        destruct (collected_at registry max_depth p'' (VDict k kvs) (depth + 1))
          as [[key0 i0]|] eqn:Hnested; [|done].
        injection Hcol as <- <-.
        apply merge_references_contains. by apply (IH _ _ _ p'' _ _ Hrefs).
Qed.
End ScanFacts.
(** ** The scanner: when it returns, and that it collects nothing else *)

Lemma foldM_total {A S : Type} (step : S -> A -> result S) (xs : list A) :
  (forall acc x, x ∈ xs -> exists acc', step acc x = Ok acc') ->
  forall acc, exists r, foldM step acc xs = Ok r.
Proof.
  induction xs as [|x xs IH]; intros Hstep acc; simpl; [eauto|].
  destruct (Hstep acc x) as [acc' Hacc']; [apply list_elem_of_here|].
  rewrite Hacc'. simpl. apply IH. intros a y Hy. apply Hstep.
  by apply list_elem_of_further.
Qed.

Lemma get_or_None_elem (f : string) (d : list (string * value)) :
  get_or_None f d = VNone \/ (f, get_or_None f d) ∈ d.
Proof.
  unfold get_or_None. destruct (dict_get f d) as [v|] eqn:Hv; [|by left].
  right. by apply dict_get_elem_of.
Qed.

Lemma elem_of_values (kvs : list (string * value)) (x : value) :
  x ∈ map snd kvs -> exists key, (key, x) ∈ kvs.
Proof.
  change (map snd kvs) with (snd <$> kvs). intros H.
  apply list_elem_of_fmap in H as ([key v] & -> & Hin). by exists key.
Qed.

Lemma dict_get_NoDup {V : Type} (key : string) (v : V) (d : list (string * V)) :
  NoDup d.*1 -> (key, v) ∈ d -> dict_get key d = Some v.
Proof.
  induction d as [|[k w] d IH]; simpl; intros Hnd Hin.
  - by apply elem_of_nil in Hin.
  - apply NoDup_cons in Hnd as [Hk Hnd].
    apply elem_of_cons in Hin as [[= -> ->]|Hin].
    + by rewrite String.eqb_refl.
    + destruct (String.eqb_spec k key) as [->|Hne]; [|by apply IH].
      exfalso. apply Hk. apply list_elem_of_fmap. by exists (key, v).
Qed.

Lemma collected_nil (key : rkey) (i : oid) : ~ collected [] key i.
Proof. intros (s & Hin & _). by apply elem_of_nil in Hin. Qed.

Lemma collected_bucket (rm : refmap) (key : rkey) (i : oid) :
  i ∈ bucket key rm -> collected rm key i.
Proof. apply elem_of_bucket. Qed.

Lemma collected_setdefault_update (key key' : rkey) (refs : gset oid)
    (rm : refmap) (i : oid) :
  collected (setdefault_update key' refs rm) key i ->
  collected rm key i \/ (key = key' /\ i ∈ refs).
Proof.
  induction rm as [|[k s] rm IH]; simpl.
  - intros (s0 & Hin & Hi). apply list_elem_of_singleton in Hin as [= -> ->].
    by right.
  - destruct (decide (k = key')) as [->|Hne].
    + intros (s0 & Hin & Hi). apply elem_of_cons in Hin as [[= -> ->]|Hin].
      * apply elem_of_union in Hi as [Hi|Hi]; [left|by right].
        exists s. split; [apply list_elem_of_here|done].
      * left. exists s0. split; [by apply list_elem_of_further|done].
    + intros (s0 & Hin & Hi). apply elem_of_cons in Hin as [[= -> ->]|Hin].
      * left. exists s. split; [apply list_elem_of_here|done].
      * destruct IH as [(s1 & Hin1 & Hi1)|Hnew]; [by exists s0| |by right].
        left. exists s1. split; [by apply list_elem_of_further|done].
Qed.

Lemma collected_merge (field_cls : option doc_class) (references rm : refmap)
    (key : rkey) (i : oid) :
  collected (merge_references field_cls references rm) key i ->
  collected rm key i
  \/ exists key0, collected references key0 i /\ key = rekey field_cls key0.
Proof.
  rewrite merge_references_rekey. revert rm.
  induction references as [|[k s] refs IH]; intros rm; simpl; [by left|].
  intros H. apply IH in H as [H|(key0 & (s0 & Hin & Hi) & ->)].
  - apply collected_setdefault_update in H as [H|[-> Hi]]; [by left|].
    right. exists k. split; [|done]. exists s. split; [apply list_elem_of_here|done].
  - right. exists key0. split; [|done].
    exists s0. split; [by apply list_elem_of_further|done].
Qed.

(** What a loop adds comes from one of its elements. *)
Lemma foldM_collected {A : Type} (step : refmap -> A -> result refmap)
    (Q : A -> Prop) (key : rkey) (i : oid) (xs : list A) :
  (forall acc x acc', x ∈ xs -> step acc x = Ok acc' ->
                      collected acc' key i -> collected acc key i \/ Q x) ->
  forall acc rm, foldM step acc xs = Ok rm -> collected rm key i ->
                 collected acc key i \/ exists x, x ∈ xs /\ Q x.
Proof.
  induction xs as [|x xs IH]; intros Hstep acc rm; simpl.
  - intros [= <-]. by left.
  - intros H Hcol. apply bind_Ok in H as (mid & Hmid & H).
    destruct (IH (fun a y a' Hy => Hstep a y a' (list_elem_of_further _ _ _ Hy))
                 mid rm H Hcol) as [Hm|(y & Hy & HQ)].
    + destruct (Hstep acc x mid (list_elem_of_here _ _) Hmid Hm) as [Ha|HQ].
      * by left.
      * right. exists x. split; [apply list_elem_of_here|done].
    + right. exists y. split; [by apply list_elem_of_further|done].
Qed.

Section ScanSound.
Variable registry : string -> option doc_class.
Variable max_depth : Z.

Lemma collected_at_cons (s : step) (p' : list step) (items : value) (depth : Z) :
  collected_at registry max_depth (s :: p') items depth
  = if (max_depth <=? depth)%Z then None
    else match element s items with
         | Some x => collected_from registry max_depth p' x depth
         | None => None
         end.
Proof.
  simpl. destruct (max_depth <=? depth)%Z; [done|].
  destruct (element s items) as [x|]; [|done]. by destruct x.
Qed.

Lemma tagged_entry_scan (kvs : list (string * value)) (rm : refmap) :
  tagged_entry registry kvs <> None ->
  exists rm', scan_tagged registry kvs rm = Ok rm'.
Proof.
  unfold tagged_entry, scan_tagged.
  destruct (getitem "_cls" kvs) as [cls_name|]; [|done]. simpl.
  destruct (registry_get registry cls_name) as [c|]; [|done]. simpl.
  destruct (getitem "_ref" kvs) as [r|]; [|done]. simpl.
  destruct (attr_id r) as [i|]; [|done]. simpl. eauto.
Qed.

(** The scanner returns on a scannable tree, given a recursion budget
    above its height. *)
Lemma find_references_total (fuel : nat) :
  forall (items : value) (depth : Z),
    is_container items = true ->
    scannable registry items = true ->
    height items < fuel ->
    exists rm, find_references registry max_depth fuel items depth = Ok rm.
Proof.
  induction fuel as [|fuel IH]; intros items depth Hc Hs Hh; [lia|].
  unfold find_references. cbn [find_references_with].
  fold (find_references registry max_depth fuel).
  unfold find_references_body.
  destruct (negb (truthy items) || (max_depth <=? depth)%Z); [eauto|].
  assert (Hiter : exists iterator,
             scan_iterator items = Ok iterator
             /\ forall x, x ∈ iterator ->
                          scannable registry x = true /\ height x < fuel).
  { destruct items as [| | | | |k xs|k kvs| |]; try done.
    - exists xs. split; [done|]. intros x Hx. split.
      + simpl in Hs. by eapply forallb_elem_of.
      + pose proof (height_elem k xs x Hx). lia.
    - exists (map snd kvs). split; [done|]. intros x Hx.
      apply elem_of_values in Hx as [key Hx]. split.
      + simpl in Hs. apply andb_true_iff in Hs as [_ Hs].
        by apply (forallb_elem_of _ _ (key, x) Hs).
      + pose proof (height_entries kvs key x Hx). simpl in Hh. lia. }
  destruct Hiter as (iterator & -> & Hall). cbn [bind].
  apply foldM_total. intros acc x Hx. destruct (Hall x Hx) as [Hsx Hhx].
  unfold scan_item.
  assert (Hnested : is_container x = true ->
            exists acc',
              (if (depth + 1 - 1 <=? max_depth)%Z
               then let* references :=
                      find_references registry max_depth fuel x (depth + 1 - 1)%Z in
                    Ok (merge_references None references acc)
               else Ok acc) = Ok acc').
  { intros Hcx. destruct (depth + 1 - 1 <=? max_depth)%Z; [|eauto].
    destruct (IH x (depth + 1 - 1)%Z Hcx Hsx Hhx) as [refs ->]. simpl. eauto. }
  destruct x as [| | |c j| |k xs|k kvs|h d|]; eauto.
  - (* a mapping *)
    destruct (dict_has "_ref" kvs) eqn:Href; [|by apply Hnested].
    simpl in Hsx. rewrite Href in Hsx. apply andb_true_iff in Hsx as [Hentry _].
    apply tagged_entry_scan. by destruct (tagged_entry registry kvs).
  - (* a record *)
    simpl in Hsx. apply andb_true_iff in Hsx as [Htyped Hvals].
    apply foldM_total. intros a [f fd] Hfd. unfold scan_field.
    pose proof (forallb_elem_of _ _ (f, fd) Htyped Hfd) as Hty. simpl in Hty.
    assert (Hfield : is_container (get_or_None f d) = true ->
              scannable registry (get_or_None f d) = true
              /\ height (get_or_None f d) < fuel).
    { intros Hcv. destruct (get_or_None_elem f d) as [Hn|Hin].
      - by rewrite Hn in Hcv.
      - split.
        + by apply (forallb_elem_of _ _ (f, get_or_None f d) Hvals).
        + pose proof (height_entries d f _ Hin). simpl in Hhx. lia. }
    destruct (get_or_None f d) as [| | |c j| |k xs|k kvs| |]; eauto.
    + destruct (field_document_type fd) as [t|e]; [simpl; eauto|done].
    + destruct (depth + 1 <=? max_depth)%Z; [|eauto].
      destruct Hfield as [Hsv Hhv]; [done|].
      destruct (IH (VList k xs) (depth + 1)%Z eq_refl Hsv Hhv) as [refs ->].
      simpl. eauto.
    + destruct Hfield as [Hsv Hhv]; [done|].
      destruct (dict_has "_ref" kvs) eqn:Href.
      * simpl in Hsv. rewrite Href in Hsv. apply andb_true_iff in Hsv as [Hentry _].
        apply tagged_entry_scan. by destruct (tagged_entry registry kvs).
      * destruct (depth + 1 <=? max_depth)%Z; [|eauto].
        destruct (IH (VDict k kvs) (depth + 1)%Z eq_refl Hsv Hhv) as [refs ->].
        simpl. eauto.
Qed.

Lemma element_of_iterator (items : value) (iterator : list value) (x : value) :
  is_container items = true ->
  distinct_keys items = true ->
  scan_iterator items = Ok iterator ->
  x ∈ iterator ->
  distinct_keys x = true /\ exists s, element s items = Some x.
Proof.
  intros Hc Hd Hiter Hx.
  destruct items as [| | | | |k xs|k kvs| |]; try done; injection Hiter as <-.
  - split; [simpl in Hd; by eapply forallb_elem_of|].
    apply list_elem_of_lookup in Hx as [n Hn]. by exists (Idx n).
  - apply elem_of_values in Hx as [key Hx].
    simpl in Hd. apply andb_true_iff in Hd as [Hnd Hd].
    split; [by apply (forallb_elem_of _ _ (key, x) Hd)|].
    exists (Key key). simpl. apply dict_get_NoDup; [|done].
    by apply bool_decide_eq_true in Hnd.
Qed.

(** The scanner collects nothing but the pointers of [collected_at]. *)
Lemma find_references_sound (fuel : nat) :
  forall (items : value) (depth : Z) (rm : refmap) (key : rkey) (i : oid),
    is_container items = true ->
    distinct_keys items = true ->
    find_references registry max_depth fuel items depth = Ok rm ->
    collected rm key i ->
    exists p, collected_at registry max_depth p items depth = Some (key, i).
Proof.
  induction fuel as [|fuel IH]; intros items depth rm key i Hc Hd Hscan Hcol;
    [done|].
  unfold find_references in Hscan. cbn [find_references_with] in Hscan.
  fold (find_references registry max_depth fuel) in Hscan.
  unfold find_references_body in Hscan.
  destruct (negb (truthy items)).
  { injection Hscan as <-. by apply collected_nil in Hcol. }
  destruct (Z.leb_spec max_depth depth) as [Hge|Hlt]; simpl in Hscan.
  { injection Hscan as <-. by apply collected_nil in Hcol. }
  apply bind_Ok in Hscan as (iterator & Hiter & Hscan).
  assert (Hguard : (max_depth <=? depth)%Z = false) by (apply Z.leb_gt; lia).
  assert (Hle : (depth + 1 <=? max_depth)%Z = true) by (apply Z.leb_le; lia).
  assert (Hitem : forall acc x acc',
            x ∈ iterator ->
            scan_item registry max_depth (scan_field registry max_depth)
                      (find_references registry max_depth fuel) (depth + 1)
                      acc x = Ok acc' ->
            collected acc' key i ->
            collected acc key i
            \/ (fun x => exists p', collected_from registry max_depth p' x depth
                                    = Some (key, i)) x).
  2:{ destruct (foldM_collected _ _ key i iterator Hitem [] rm Hscan Hcol)
        as [Hnil|(x & Hx & p' & Hp')]; [by apply collected_nil in Hnil|].
      destruct (element_of_iterator items iterator x Hc Hd Hiter Hx)
        as (_ & s & Hs).
      exists (s :: p'). rewrite collected_at_cons, Hguard, Hs. exact Hp'. }
  cbv beta.
  intros acc x acc' Hx Hstep Hacc'.
  destruct (element_of_iterator items iterator x Hc Hd Hiter Hx) as (Hdx & _).
  unfold scan_item in Hstep.
  replace (depth + 1 - 1)%Z with depth in Hstep by lia.
  assert (Hle' : (depth <=? max_depth)%Z = true) by (apply Z.leb_le; lia).
  rewrite Hle' in Hstep.
  assert (Hnested : forall refs,
            is_container x = true ->
            find_references registry max_depth fuel x depth = Ok refs ->
            collected (merge_references None refs acc) key i ->
            collected acc key i
            \/ exists p', collected_at registry max_depth p' x depth
                          = Some (key, i)).
  { intros refs Hcx Hrefs Hm.
    apply collected_merge in Hm as [Hm|(key0 & Hk0 & ->)]; [by left|].
    right. by apply (IH x depth refs key0 i Hcx Hdx Hrefs). }
  destruct x as [| | |c j| |k xs|k kvs|h d|];
    try (injection Hstep as <-; by left).
  - (* a bare pointer *)
    injection Hstep as <-.
    apply collected_setdefault_update in Hacc' as [Ha|[-> Hi]]; [by left|].
    apply elem_of_singleton in Hi as ->. right. by exists [].
  - (* a nested list *)
    apply bind_Ok in Hstep as (refs & Hrefs & [= <-]).
    destruct (Hnested refs eq_refl Hrefs Hacc') as [Ha|[p' Hp']]; [by left|].
    right. by exists p'.
  - (* a mapping *)
    destruct (dict_has "_ref" kvs) eqn:Href.
    + apply scan_tagged_entry in Hstep as (c & j & Hentry & ->).
      apply collected_setdefault_update in Hacc' as [Ha|[-> Hi]]; [by left|].
      apply elem_of_singleton in Hi as ->. right. exists [Key "_ref"].
      simpl. by rewrite Href.
    + apply bind_Ok in Hstep as (refs & Hrefs & [= <-]).
      destruct (Hnested refs eq_refl Hrefs Hacc') as [Ha|[p' Hp']]; [by left|].
      right. exists p'. simpl. by rewrite Href.
  - (* a record *)
    simpl in Hdx. apply andb_true_iff in Hdx as [Hnd Hdv].
    apply bool_decide_eq_true in Hnd.
    assert (Hfld : forall a fld a',
              fld ∈ doc_fields h ->
              scan_field registry max_depth
                         (find_references registry max_depth fuel) (depth + 1)
                         d a fld = Ok a' ->
              collected a' key i ->
              collected a key i
              \/ (fun fld : string * field_decl =>
                    exists p'', collected_from registry max_depth
                                  (Field fld.1 :: p'') (VDoc h d) depth
                                = Some (key, i)) fld).
    2:{ destruct (foldM_collected _ _ key i (doc_fields h) Hfld acc acc'
                    Hstep Hacc') as [Ha|([f fd] & Hfd & p'' & Hp'')]; [by left|].
        right. by exists (Field f :: p''). }
    cbv beta.
    clear Hstep Hacc'. intros a [f fd] a' Hfd Hstep Ha'.
    pose proof (dict_get_NoDup f fd (doc_fields h) Hnd Hfd) as Hget.
    unfold scan_field in Hstep. cbn [fst]. cbn [collected_from]. rewrite Hget.
    assert (Hfield : is_container (get_or_None f d) = true ->
                     distinct_keys (get_or_None f d) = true).
    { intros Hcv. destruct (get_or_None_elem f d) as [Hn|Hin].
      - by rewrite Hn in Hcv.
      - by apply (forallb_elem_of _ _ (f, get_or_None f d) Hdv). }
    rewrite Hle in Hstep |- *.
    destruct (get_or_None f d) as [| | |c j| |k xs|k kvs| |];
      try (injection Hstep as <-; by left).
    + apply bind_Ok in Hstep as (t & Ht & [= <-]).
      apply collected_setdefault_update in Ha' as [Ha|[-> Hi]]; [by left|].
      apply elem_of_singleton in Hi as ->. right. exists []. by rewrite Ht.
    + apply bind_Ok in Hstep as (refs & Hrefs & [= <-]).
      apply collected_merge in Ha' as [Ha|(key0 & Hk0 & ->)]; [by left|].
      destruct (IH (VList k xs) (depth + 1)%Z refs key0 i eq_refl
                   (Hfield eq_refl) Hrefs Hk0) as [p'' Hp''].
      right. exists p''. by rewrite Hp''.
    + destruct (dict_has "_ref" kvs) eqn:Href.
      * apply scan_tagged_entry in Hstep as (c & j & Hentry & ->).
        apply collected_setdefault_update in Ha' as [Ha|[-> Hi]]; [by left|].
        apply elem_of_singleton in Hi as ->. right. by exists [Key "_ref"].
      * apply bind_Ok in Hstep as (refs & Hrefs & [= <-]).
        apply collected_merge in Ha' as [Ha|(key0 & Hk0 & ->)]; [by left|].
        destruct (IH (VDict k kvs) (depth + 1)%Z refs key0 i eq_refl
                     (Hfield eq_refl) Hrefs Hk0) as [p'' Hp''].
        right. exists p''. by rewrite Hp''.
Qed.
End ScanSound.
(** ** The asynchronous scanner on trees without deferred proxies *)

Lemma proxy_free_field (f : string) (d : list (string * value)) :
  forallb (fun kv => proxy_free (snd kv)) d = true ->
  proxy_free (get_or_None f d) = true.
Proof.
  intros Hd. destruct (get_or_None_elem f d) as [->|Hin]; [done|].
  by apply (forallb_elem_of _ _ (f, get_or_None f d) Hd).
Qed.

Lemma proxy_free_str_chars (s : string) (x : value) :
  x ∈ str_chars s -> proxy_free x = true.
Proof.
  induction s as [|c s IH]; simpl; intros Hx.
  - by apply elem_of_nil in Hx.
  - apply elem_of_cons in Hx as [->|Hx]; [done|by apply IH].
Qed.

Lemma proxy_free_iterator (items : value) (iterator : list value) (x : value) :
  proxy_free items = true ->
  scan_iterator items = Ok iterator ->
  x ∈ iterator ->
  proxy_free x = true.
Proof.
  intros Hp Hiter Hx.
  destruct items as [|s| | | |k xs|k kvs| |]; try done; injection Hiter as <-.
  - by eapply proxy_free_str_chars.
  - simpl in Hp. by eapply forallb_elem_of.
  - apply elem_of_values in Hx as [key Hx]. simpl in Hp.
    by apply (forallb_elem_of _ _ (key, x) Hp).
Qed.

Section AsyncScan.
Variable registry : string -> option doc_class.
Variable objectid_has_id : bool.
Variable max_depth : Z.

Lemma async_find_references_agrees (fuel : nat) :
  forall (items : value) (depth : Z),
    proxy_free items = true ->
    async_find_references registry objectid_has_id max_depth fuel items depth
    = find_references registry max_depth fuel items depth.
Proof.
  induction fuel as [|fuel IH]; intros items depth Hp; [done|].
  unfold async_find_references, find_references. cbn [find_references_with].
  fold (async_find_references registry objectid_has_id max_depth fuel).
  fold (find_references registry max_depth fuel).
  unfold find_references_body.
  destruct (negb (truthy items) || (max_depth <=? depth)%Z); [done|].
  destruct (scan_iterator items) as [iterator|e] eqn:Hiter; [|done]. cbn [bind].
  apply foldM_ext. intros rm x Hx.
  pose proof (proxy_free_iterator items iterator x Hp Hiter Hx) as Hpx.
  unfold scan_item.
  destruct x as [| | | | |k xs|k kvs|h d|]; try done.
  - by rewrite IH.
  - by rewrite IH.
  - apply foldM_ext. intros a [f fd] _.
    simpl in Hpx. pose proof (proxy_free_field f d Hpx) as Hpv.
    unfold async_scan_field, scan_field.
    destruct (get_or_None f d) as [| | | | |k xs|k kvs| |]; try done.
    + by rewrite IH.
    + by rewrite IH.
Qed.
End AsyncScan.
(** ** The scanner: what a caller can rely on *)

(** X5.  Completeness of the scanner up to its depth bound.  Whenever
    [_find_references] returns a Reference Map, every pointer that lies
    within reach of the scan is in it, under its key: a bare pointer of a
    container under its collection name, the pointer of a tagged mapping
    under the class its ["_cls"] names, a pointer held by a field of a
    record under the field's document type, and the pointers of a
    container held by a field one level deeper, merged under the inner
    document type when that is a top-level class. *)
Theorem scanner_collects_pointers_in_reach
    (registry : string -> option doc_class) (max_depth : Z) (fuel : nat)
    (items : value) (depth : Z) (rm : refmap)
    (p : list step) (key : rkey) (i : oid) :
  find_references registry max_depth fuel items depth = Ok rm ->
  collected_at registry max_depth p items depth = Some (key, i) ->
  i ∈ bucket key rm.
Proof. apply find_references_complete. Qed.

Lemma scanner_collects_pointers_in_reach_witness :
  exists rm,
    find_references Fixture.registry 2 4 (VList PyList [Fixture.post]) 0 = Ok rm
    /\ collected_at Fixture.registry 2 [Idx 0; Field "likes"; Idx 1]
                    (VList PyList [Fixture.post]) 0
       = Some (KClass Fixture.User, 2)
    /\ 2 ∈ bucket (KClass Fixture.User) rm.
Proof.
  destruct (find_references Fixture.registry 2 4 (VList PyList [Fixture.post]) 0)
    as [rm|e] eqn:Hscan; [|by vm_compute in Hscan].
  exists rm. split; [reflexivity|]. split; [reflexivity|].
  apply (scanner_collects_pointers_in_reach Fixture.registry 2 4
           (VList PyList [Fixture.post]) 0 rm [Idx 0; Field "likes"; Idx 1]);
    [exact Hscan | reflexivity].
Defined.

(** X6.  On a list or mapping whose tagged mappings name registered
    classes, whose pointer fields are declared with a document type and
    whose keys and field names are distinct, [_find_references] returns,
    given a recursion budget above the height of the tree, and the
    Reference Map holds exactly the pointers within reach of the scan:
    nothing else is requested from the database. *)
Theorem scanner_returns_exactly_pointers_in_reach
    (registry : string -> option doc_class) (max_depth : Z) (fuel : nat)
    (items : value) (depth : Z) :
  is_container items = true ->
  scannable registry items = true ->
  distinct_keys items = true ->
  height items < fuel ->
  exists rm,
    find_references registry max_depth fuel items depth = Ok rm
    /\ forall key i,
         i ∈ bucket key rm
         <-> exists p, collected_at registry max_depth p items depth
                       = Some (key, i).
Proof.
  intros Hc Hs Hd Hh.
  destruct (find_references_total registry max_depth fuel items depth Hc Hs Hh)
    as [rm Hrm].
  exists rm. split; [exact Hrm|]. intros key i. split.
  - intros Hi. apply collected_bucket in Hi.
    by apply (find_references_sound registry max_depth fuel items depth rm).
  - intros [p Hp].
    by apply (find_references_complete registry max_depth fuel items depth rm p).
Qed.

Lemma scanner_returns_exactly_pointers_in_reach_witness :
  exists rm,
    find_references Fixture.registry 2 4 (VList PyList [Fixture.post]) 0 = Ok rm
    /\ forall key i,
         i ∈ bucket key rm
         <-> exists p, collected_at Fixture.registry 2 p
                         (VList PyList [Fixture.post]) 0
                       = Some (key, i).
Proof.
  apply (scanner_returns_exactly_pointers_in_reach Fixture.registry 2 4
           (VList PyList [Fixture.post]) 0).
  - reflexivity.
  - reflexivity.
  - vm_compute. reflexivity.
  - simpl. lia.
Defined.

(** X7.  On a tree that holds no deferred reference proxy, the scanner of
    [AsyncDeReference] returns what the scanner of [DeReference] returns:
    the same Reference Map or the same exception. *)
Theorem async_scanner_agrees_without_proxies
    (registry : string -> option doc_class) (objectid_has_id : bool)
    (max_depth : Z) (fuel : nat) (items : value) (depth : Z) :
  proxy_free items = true ->
  async_find_references registry objectid_has_id max_depth fuel items depth
  = find_references registry max_depth fuel items depth.
Proof. apply async_find_references_agrees. Qed.

Lemma async_scanner_agrees_without_proxies_witness :
  async_find_references Fixture.registry true 2 4 (VList PyList [Fixture.post]) 0
  = find_references Fixture.registry 2 4 (VList PyList [Fixture.post]) 0.
Proof.
  apply (async_scanner_agrees_without_proxies Fixture.registry true 2 4
           (VList PyList [Fixture.post]) 0).
  reflexivity.
Defined.
(** ** The attacher: the loop over the fields of a record *)

Lemma forallb_get_or_None (P : value -> bool) (f : string)
    (d : list (string * value)) :
  P VNone = true ->
  forallb (fun kv => P (snd kv)) d = true ->
  P (get_or_None f d) = true.
Proof.
  intros Hnone Hd. destruct (get_or_None_elem f d) as [->|Hin]; [done|].
  by apply (forallb_elem_of _ _ (f, get_or_None f d) Hd).
Qed.

Lemma forallb_dict_del {V : Type} (P : string * V -> bool) (key : string)
    (d : list (string * V)) :
  forallb P d = true -> forallb P (dict_del key d) = true.
Proof.
  induction d as [|[k w] d IH]; simpl; [done|].
  intros H. apply andb_true_iff in H as [Hk Hd].
  destruct (String.eqb k key); [done|]. simpl. by rewrite Hk, IH.
Qed.

Lemma str_chars_elem (s : string) (x : value) :
  x ∈ str_chars s -> exists c, x = VStr c.
Proof.
  induction s as [|c s IH]; simpl; intros Hx.
  - by apply elem_of_nil in Hx.
  - apply elem_of_cons in Hx as [->|Hx]; [eauto|by apply IH].
Qed.

(** An element of the attacher's iterator satisfies what every value in
    the container satisfies. *)
Lemma attach_iterator_elem (P : value -> bool) (items : value)
    (iterator : list (string * value)) (k : string) (x : value) :
  (forall c, P (VStr c) = true) ->
  (forall kd xs, items = VList kd xs -> forallb P xs = true) ->
  (forall kd kvs, items = VDict kd kvs ->
                  forallb (fun kv => P (snd kv)) kvs = true) ->
  attach_iterator items = Ok iterator ->
  (k, x) ∈ iterator ->
  P x = true.
Proof.
  intros Hstr Hlist Hdict Hiter Hx.
  destruct items as [|s| | | |kd xs|kd kvs| |]; try done; injection Hiter as <-.
  - apply elem_of_enumerate in Hx. apply str_chars_elem in Hx as [c ->].
    apply Hstr.
  - apply elem_of_enumerate in Hx. by apply (forallb_elem_of _ _ x (Hlist kd xs eq_refl)).
  - by apply (forallb_elem_of _ _ (k, x) (Hdict kd kvs eq_refl)).
Qed.

Lemma attach_field_other (om : objmap) (max_depth : Z) (rec : attach_fn)
    (depth : Z) (inst : option doc_head) (name : option string) (k : string)
    (d d' : list (string * value)) (fld : string * field_decl) :
  attach_field om max_depth rec depth inst name k d fld = Ok d' ->
  forall f', fld.1 ≠ f' -> dict_get f' d' = dict_get f' d.
Proof.
  destruct fld as [f fd]. unfold attach_field. intros H f' Hne. simpl in Hne.
  assert (Hnested :
            (if (depth <=? max_depth)%Z
             then let* r := rec (get_or_None f d) depth inst
                                (Some (fmt_name name ++ "." ++ k ++ "." ++ f)) in
                  Ok (dict_set f r d)
             else Ok d) = Ok d' -> dict_get f' d' = dict_get f' d).
  { destruct (depth <=? max_depth)%Z.
    - intros H'. apply bind_Ok in H' as (r & _ & [= <-]). by apply dict_get_set_ne.
    - by intros [= <-]. }
  destruct (get_or_None f d) as [| | |c i|c i|kd xs|kd kvs| |];
    try (by injection H as <-); try (by apply Hnested).
  - injection H as <-. by apply dict_get_set_ne.
  - injection H as <-. by apply dict_get_set_ne.
  - destruct (dict_has "_ref" kvs); [|by apply Hnested].
    apply bind_Ok in H as (r & _ & H). apply bind_Ok in H as (o & _ & [= <-]).
    by apply dict_get_set_ne.
Qed.

Section FieldLoop.
Variable step :
  list (string * value) -> string * field_decl -> result (list (string * value)).
Hypothesis step_other : forall d fld d',
  step d fld = Ok d' -> forall f', fld.1 ≠ f' -> dict_get f' d' = dict_get f' d.

Lemma foldM_fields_other (fields : list (string * field_decl)) :
  forall d d' f,
    foldM step d fields = Ok d' -> f ∉ fields.*1 -> dict_get f d' = dict_get f d.
Proof.
  induction fields as [|g rest IH]; intros d d' f; simpl.
  - by intros [= <-].
  - intros H Hf. apply bind_Ok in H as (mid & Hmid & H).
    apply not_elem_of_cons in Hf as [Hne Hf].
    rewrite (IH mid d' f H Hf). apply (step_other d g mid Hmid). congruence.
Qed.

(** With distinct field names, the value a field holds after the loop is
    the one its own step wrote, and that step read the field's first
    value. *)
Lemma foldM_fields_at (fields : list (string * field_decl)) :
  NoDup fields.*1 ->
  forall d d' fld,
    foldM step d fields = Ok d' ->
    fld ∈ fields ->
    exists d0 d1,
      dict_get fld.1 d0 = dict_get fld.1 d
      /\ step d0 fld = Ok d1
      /\ dict_get fld.1 d' = dict_get fld.1 d1.
Proof.
  induction fields as [|g rest IH]; intros Hnd d d' fld; simpl.
  - intros _ Hin. by apply elem_of_nil in Hin.
  - intros H Hin. apply bind_Ok in H as (mid & Hmid & H).
    apply NoDup_cons in Hnd as [Hg Hnd].
    apply elem_of_cons in Hin as [->|Hin].
    + exists d, mid. split; [done|]. split; [done|].
      by apply (foldM_fields_other rest mid d' g.1).
    + destruct (IH Hnd mid d' fld H Hin) as (d0 & d1 & H0 & H1 & H2).
      exists d0, d1. split; [|done]. rewrite H0.
      apply (step_other d g mid Hmid). intros Heq. apply Hg. rewrite Heq.
      apply list_elem_of_fmap. by exists fld.
Qed.

(** Two loop bodies that agree on the fields' first values give the same
    loop. *)
Lemma foldM_fields_agree (step' : list (string * value) -> string * field_decl ->
                                  result (list (string * value)))
    (d : list (string * value)) (fields : list (string * field_decl)) :
  NoDup fields.*1 ->
  (forall d_cur fld, fld ∈ fields ->
                     dict_get fld.1 d_cur = dict_get fld.1 d ->
                     step' d_cur fld = step d_cur fld) ->
  forall d_cur,
    (forall fld, fld ∈ fields -> dict_get fld.1 d_cur = dict_get fld.1 d) ->
    foldM step' d_cur fields = foldM step d_cur fields.
Proof.
  induction fields as [|g rest IH]; intros Hnd Hagree d_cur Hcur; simpl; [done|].
  apply NoDup_cons in Hnd as [Hg Hnd].
  rewrite (Hagree d_cur g (list_elem_of_here _ _) (Hcur g (list_elem_of_here _ _))).
  destruct (step d_cur g) as [mid|e] eqn:Hmid; simpl; [|done].
  apply IH; [done| |].
  - intros d2 fld Hin. apply Hagree. by apply list_elem_of_further.
  - intros fld Hin. rewrite (step_other d_cur g mid Hmid).
    + apply Hcur. by apply list_elem_of_further.
    + intros Heq. apply Hg. rewrite Heq. apply list_elem_of_fmap. by exists fld.
Qed.
End FieldLoop.

(** ** The asynchronous attacher on trees without deferred proxies *)

Section AsyncAttach.
Variable registry : string -> option doc_class.
Variable from_son :
  doc_class -> list (string * value) ->
  result (doc_head * list (string * value)).
Variable objectid_has_id : bool.
Variable object_map : objmap.
Variable max_depth : Z.

Hypothesis from_son_plain : forall c son h d,
  forallb (fun kv => proxy_free (snd kv)) son = true ->
  forallb (fun kv => distinct_fields (snd kv)) son = true ->
  from_son c son = Ok (h, d) ->
  forallb (fun kv => proxy_free (snd kv)) d = true
  /\ forallb (fun kv => distinct_fields (snd kv)) d = true.

Lemma async_attach_objects_agrees (fuel : nat) :
  forall (items : value) (depth : Z) (inst : option doc_head)
         (name : option string),
    proxy_free items = true ->
    distinct_fields items = true ->
    async_attach_objects registry from_son objectid_has_id object_map max_depth
                         fuel items depth inst name
    = attach_objects registry from_son object_map max_depth
                     fuel items depth inst name.
Proof.
  induction fuel as [|fuel IH]; intros items depth inst name Hp Hd; [done|].
  unfold async_attach_objects, attach_objects. cbn [attach_objects_with].
  fold (async_attach_objects registry from_son objectid_has_id object_map
          max_depth fuel).
  fold (attach_objects registry from_son object_map max_depth fuel).
  unfold attach_body.
  destruct (attach_falsy items inst name); [done|].
  assert (Htag :
            attach_tagged registry from_son object_map
              (async_attach_objects registry from_son objectid_has_id object_map
                 max_depth fuel) items depth
            = attach_tagged registry from_son object_map
                (attach_objects registry from_son object_map max_depth fuel)
                items depth).
  { unfold attach_tagged. destruct items as [| | | | |kd xs|kd kvs| |]; try done.
    destruct (dict_has "_ref" kvs); [done|].
    destruct (dict_has "_cls" kvs); [|done].
    f_equal. unfold materialise.
    destruct (getitem "_cls" kvs) as [cls_name|e]; [|done]. cbn [bind].
    destruct (registry_get registry cls_name) as [c|e]; [|done]. cbn [bind].
    destruct (from_son c kvs) as [[h d]|e] eqn:Hson; [|done]. cbn [bind].
    destruct (from_son_plain c kvs h d Hp Hd Hson) as [Hpd Hdd].
    rewrite IH; [done| |].
    - exact (forallb_dict_del (fun kv => proxy_free (snd kv)) "_cls" d Hpd).
    - exact (forallb_dict_del (fun kv => distinct_fields (snd kv)) "_cls" d Hdd). }
  rewrite Htag.
  destruct (attach_tagged registry from_son object_map
              (attach_objects registry from_son object_map max_depth fuel)
              items depth); [done|].
  destruct (attach_iterator items) as [iterator|e] eqn:Hiter; [|done]. cbn [bind].
  unfold attach_loop.
  rewrite (mapM_r_ext
             (fun kv =>
                let* v := attach_item object_map max_depth
                            (async_attach_field objectid_has_id object_map max_depth)
                            (async_attach_objects registry from_son objectid_has_id
                               object_map max_depth fuel)
                            (depth + 1) inst name kv in
                Ok (kv.1, v))
             (fun kv =>
                let* v := attach_item object_map max_depth
                            (attach_field object_map max_depth)
                            (attach_objects registry from_son object_map
                               max_depth fuel)
                            (depth + 1) inst name kv in
                Ok (kv.1, v))); [done|].
  intros [k x] Hx. f_equal.
  assert (Hpx : proxy_free x = true).
  { apply (attach_iterator_elem proxy_free items iterator k x); try done.
    - by intros kd xs ->.
    - by intros kd kvs ->. }
  assert (Hdx : distinct_fields x = true).
  { apply (attach_iterator_elem distinct_fields items iterator k x); try done.
    - by intros kd xs ->.
    - by intros kd kvs ->. }
  unfold attach_item.
  destruct x as [| | | | |kd xs|kd kvs|h d|]; try done.
  - destruct (depth + 1 <=? max_depth)%Z; [|done]. by apply IH.
  - destruct (depth + 1 <=? max_depth)%Z; [|done]. by apply IH.
  - simpl in Hpx, Hdx. apply andb_true_iff in Hdx as [Hnd Hdv].
    apply bool_decide_eq_true in Hnd.
    rewrite (foldM_fields_agree
               (attach_field object_map max_depth
                  (attach_objects registry from_son object_map max_depth fuel)
                  (depth + 1) inst name k)
               (fun d0 fld d1 => attach_field_other _ _ _ _ _ _ _ d0 d1 fld)
               (async_attach_field objectid_has_id object_map max_depth
                  (async_attach_objects registry from_son objectid_has_id
                     object_map max_depth fuel)
                  (depth + 1) inst name k)
               d (doc_fields h) Hnd); [done| |done].
    intros d_cur [f fd] _ Hcur. simpl in Hcur.
    unfold async_attach_field, attach_field, get_or_None. rewrite Hcur.
    fold (get_or_None f d).
    pose proof (forallb_get_or_None proxy_free f d eq_refl Hpx) as Hpv.
    pose proof (forallb_get_or_None distinct_fields f d eq_refl Hdv) as Hdv'.
    destruct (get_or_None f d) as [| | | | |kd xs|kd kvs| |]; try done.
    + destruct (depth + 1 <=? max_depth)%Z; [|done]. by rewrite IH.
    + destruct (dict_has "_ref" kvs); [done|].
      destruct (depth + 1 <=? max_depth)%Z; [|done]. by rewrite IH.
Qed.
End AsyncAttach.
(** ** The attacher: what it writes, and where *)

Lemma is_ref_step_eq (p : list step) : is_ref_step p = true -> p = [Key "_ref"].
Proof.
  destruct p as [|[j|key|f] [|s p']]; simpl; try done.
  intros H. by apply String.eqb_eq in H as ->.
Qed.

Lemma site_cons (s : step) (p' : list step) :
  s ≠ Key "_ref" -> site (s :: p') = s :: site p'.
Proof.
  intros Hs. destruct s as [j|key|f], p' as [|s' p'']; simpl; try done.
  destruct (String.eqb_spec key "_ref") as [->|Hne]; [done|done].
Qed.

Lemma value_at_element (s : step) (q : list step) (v y : value) :
  element s v = Some y -> value_at (s :: q) v = value_at q y.
Proof.
  destruct s as [j|key|f], v; simpl; try done; by intros ->.
Qed.

Lemma element_not_ref (s : step) (items x : value) :
  is_tagged items = false -> element s items = Some x -> s ≠ Key "_ref".
Proof.
  intros Htag Hx ->. destruct items; simpl in *; try done.
  unfold dict_has in Htag. by rewrite Hx in Htag.
Qed.

Lemma element_container (s : step) (items x : value) :
  element s items = Some x -> is_container items = true /\ truthy items = true.
Proof.
  destruct s as [j|key|f], items as [| | | | |kd xs|kd kvs| |]; simpl; try done.
  - by destruct xs.
  - by destruct kvs.
Qed.

Lemma element_forallb (P : value -> bool) (s : step) (items x : value) :
  (forall kd xs, items = VList kd xs -> forallb P xs = true) ->
  (forall kd kvs, items = VDict kd kvs ->
                  forallb (fun kv => P (snd kv)) kvs = true) ->
  element s items = Some x -> P x = true.
Proof.
  intros Hlist Hdict.
  destruct s as [j|key|f], items as [| | | | |kd xs|kd kvs| |]; simpl; try done.
  - intros Hx. apply (forallb_elem_of _ _ x (Hlist kd xs eq_refl)).
    apply list_elem_of_lookup. eauto.
  - intros Hx. apply dict_get_elem_of in Hx.
    by apply (forallb_elem_of _ _ (key, x) (Hdict kd kvs eq_refl)).
Qed.

Lemma mapM_r_dict_get (f : string * value -> result value)
    (kvs data : list (string * value)) (key : string) (x : value) :
  mapM_r (fun kv => let* v := f kv in Ok (kv.1, v)) kvs = Ok data ->
  dict_get key kvs = Some x ->
  exists y, f (key, x) = Ok y /\ dict_get key data = Some y.
Proof.
  revert data. induction kvs as [|[k w] kvs IH]; intros data; simpl; [done|].
  intros H. apply bind_Ok in H as (y0 & Hy0 & H).
  apply bind_Ok in Hy0 as (y & Hy & [= <-]).
  apply bind_Ok in H as (rest & Hrest & [= <-]). simpl.
  destruct (String.eqb_spec k key) as [->|Hne].
  - intros [= <-]. eauto.
  - intros Hx. by apply IH.
Qed.

Section AttachReach.
Variable registry : string -> option doc_class.
Variable from_son :
  doc_class -> list (string * value) ->
  result (doc_head * list (string * value)).
Variable object_map : objmap.
Variable max_depth : Z.

(** The element of the result at a step is what the loop body returned
    for the element of the input at that step. *)
Lemma attach_loop_element (field_step : attach_field_step) (rec : attach_fn)
    (depth : Z) (inst : option doc_head) (name : option string)
    (items : value) (s : step) (x : value)
    (iterator data : list (string * value)) :
  element s items = Some x ->
  attach_iterator items = Ok iterator ->
  attach_loop object_map max_depth field_step rec depth inst name iterator
  = Ok data ->
  exists k y,
    attach_item object_map max_depth field_step rec depth inst name (k, x) = Ok y
    /\ element s (rewrap items data inst name) = Some y.
Proof.
  intros Hx Hiter Hloop. unfold attach_loop in Hloop.
  destruct s as [j|key|f], items as [| | | | |kd xs|kd kvs| |]; simpl in Hx;
    try done; injection Hiter as <-.
  - apply mapM_r_Ok in Hloop as [_ Hall].
    destruct (Hall j (pretty j, x)) as (y0 & Hy0 & Hf).
    { unfold enumerate. by rewrite list_lookup_imap, Hx. }
    apply bind_Ok in Hf as (y & Hy & [= <-]).
    exists (pretty j), y. split; [done|].
    destruct (rewrap_list kd xs data inst name) as [k' ->]. simpl.
    change (map snd data) with (snd <$> data).
    by rewrite list_lookup_fmap, Hy0.
  - destruct (mapM_r_dict_get _ kvs data key x Hloop Hx) as (y & Hy & Hget).
    exists key, y. split; [done|].
    by destruct (rewrap_dict kd kvs data inst name) as [k' ->].
Qed.

Lemma attached_at_tagged (p : list step) (items : value) (depth : Z) :
  is_tagged items = true ->
  attached_at object_map max_depth p items depth
  = if is_ref_step p then substitute object_map items else None.
Proof. intros Htag. destruct p; simpl; by rewrite Htag. Qed.

Lemma attach_objects_attached (fuel : nat) :
  forall (items : value) (depth : Z) (inst : option doc_head)
         (name : option string) (out : value) (p : list step) (o : value),
    distinct_fields items = true ->
    attach_objects registry from_son object_map max_depth
                   fuel items depth inst name = Ok out ->
    attached_at object_map max_depth p items depth = Some o ->
    value_at (site p) out = Some o.
Proof.
  induction fuel as [|fuel IH]; intros items depth inst name out p o Hd Hatt Hspec;
    [done|].
  unfold attach_objects in Hatt. cbn [attach_objects_with] in Hatt.
  fold (attach_objects registry from_son object_map max_depth fuel) in Hatt.
  unfold attach_body in Hatt.
  destruct (is_tagged items) eqn:Htag.
  - (* a tagged mapping is replaced as a whole *)
    rewrite attached_at_tagged in Hspec by done.
    destruct (is_ref_step p) eqn:Hp; [|done].
    apply is_ref_step_eq in Hp as ->. simpl.
    destruct items as [| | | | |kd xs|kd kvs| |]; try done.
    simpl in Htag, Hspec.
    destruct (dict_get "_ref" kvs) as [r|] eqn:Hr; [|done].
    assert (Hfalsy : attach_falsy (VDict kd kvs) inst name = None).
    { unfold attach_falsy. by destruct kvs. }
    rewrite Hfalsy in Hatt. unfold attach_tagged in Hatt. rewrite Htag in Hatt.
    unfold getitem in Hatt. rewrite Hr in Hatt. cbn [bind] in Hatt.
    rewrite Hatt in Hspec. exact Hspec.
  - (* the loop *)
    destruct p as [|s p']; simpl in Hspec; rewrite Htag in Hspec.
    { by destruct (is_discriminated items). }
    destruct (is_discriminated items) eqn:Hdisc; [done|].
    destruct (element s items) as [x|] eqn:Hx; [|done].
    destruct (element_container s items x Hx) as [Hc Htruthy].
    pose proof (element_not_ref s items x Htag Hx) as Hs.
    assert (Hdx : distinct_fields x = true).
    { apply (element_forallb distinct_fields s items x); try done.
      - by intros kd xs ->.
      - by intros kd kvs ->. }
    assert (Hfalsy : attach_falsy items inst name = None).
    { unfold attach_falsy. by rewrite Htruthy. }
    assert (Htagged : attach_tagged registry from_son object_map
                        (attach_objects registry from_son object_map max_depth fuel)
                        items depth = None).
    { unfold attach_tagged. destruct items; try done.
      simpl in Htag, Hdisc. rewrite Htag in Hdisc |- *. simpl in Hdisc.
      by rewrite Hdisc. }
    rewrite Hfalsy, Htagged in Hatt.
    apply bind_Ok in Hatt as (iterator & Hiter & Hatt).
    apply bind_Ok in Hatt as (data & Hloop & [= <-]).
    destruct (attach_loop_element _ _ _ inst name items s x iterator data
                Hx Hiter Hloop) as (k & y & Hy & Hout).
    rewrite (site_cons s p' Hs), (value_at_element s _ _ y Hout).
    unfold attach_item in Hy.
    destruct x as [| | |c i|c i|kd xs|kd kvs|h d|]; try done.
    + (* a pointer *)
      destruct p'; [|done]. injection Hy as <-. exact Hspec.
    + destruct p'; [|done]. injection Hy as <-. exact Hspec.
    + (* a nested list *)
      destruct (depth + 1 <=? max_depth)%Z; [|done].
      replace (depth + 1 - 1)%Z with depth in Hy by lia.
      by apply (IH _ _ _ _ _ _ _ Hdx Hy).
    + (* a nested mapping *)
      destruct (depth + 1 <=? max_depth)%Z; [|done].
      replace (depth + 1 - 1)%Z with depth in Hy by lia.
      by apply (IH _ _ _ _ _ _ _ Hdx Hy).
    + (* a record *)
      destruct p' as [|[|?|f] p'']; try done.
      destruct (dict_has f (doc_fields h)) eqn:Hhas; [|done].
      apply dict_has_get in Hhas as [fd Hfd]. apply dict_get_elem_of in Hfd.
      apply bind_Ok in Hy as (d' & Hfold & [= <-]).
      simpl in Hdx. apply andb_true_iff in Hdx as [Hnd Hdv].
      apply bool_decide_eq_true in Hnd.
      destruct (foldM_fields_at _
                  (fun d0 fld d1 => attach_field_other _ _ _ _ _ _ _ d0 d1 fld)
                  (doc_fields h) Hnd d d' (f, fd) Hfold Hfd)
        as (d0 & d1 & H0 & Hstep & H1).
      simpl in H0, H1.
      change (site (Field f :: p'')) with (Field f :: site p'').
      cbn [value_at]. rewrite H1. clear H1 Hfold.
      unfold attach_field, get_or_None in Hstep. rewrite H0 in Hstep.
      fold (get_or_None f d) in Hstep.
      pose proof (forallb_get_or_None distinct_fields f d eq_refl Hdv) as Hdf.
      destruct (get_or_None f d) as [| | |c i|c i|kd xs|kd kvs| |]; try done.
      * destruct p''; [|done]. injection Hstep as <-.
        rewrite dict_get_set_eq. exact Hspec.
      * destruct p''; [|done]. injection Hstep as <-.
        rewrite dict_get_set_eq. exact Hspec.
      * destruct (depth + 1 <=? max_depth)%Z; [|done].
        apply bind_Ok in Hstep as (r & Hr & [= <-]).
        rewrite dict_get_set_eq. by apply (IH _ _ _ _ _ _ _ Hdf Hr).
      * destruct (dict_has "_ref" kvs) eqn:Href.
        -- destruct (is_ref_step p'') eqn:Hp; [|done].
           apply is_ref_step_eq in Hp as ->. simpl. simpl in Hspec.
           apply bind_Ok in Hstep as (r & Hr & Hstep).
           apply bind_Ok in Hstep as (o' & Ho' & [= <-]).
           rewrite dict_get_set_eq. unfold getitem in Hr.
           destruct (dict_get "_ref" kvs) as [r'|]; [|done].
           injection Hr as ->. by rewrite Ho' in Hspec.
        -- destruct (depth + 1 <=? max_depth)%Z; [|done].
           apply bind_Ok in Hstep as (r & Hr & [= <-]).
           rewrite dict_get_set_eq. by apply (IH _ _ _ _ _ _ _ Hdf Hr).
Qed.
End AttachReach.
(** ** From the scan to the attached result *)

Lemma nonempty_setdefault_update (key : rkey) (refs : gset oid) (rm : refmap) :
  nonempty_buckets rm -> (exists i, i ∈ refs) ->
  nonempty_buckets (setdefault_update key refs rm).
Proof.
  intros Hrm [i Hi]. induction rm as [|[k s] rm IH]; simpl.
  - intros key' s' Hin. apply list_elem_of_singleton in Hin as [= -> ->]. eauto.
  - assert (Hrest : nonempty_buckets rm).
    { intros key' s' Hin. apply (Hrm key' s'). by apply list_elem_of_further. }
    destruct (decide (k = key)) as [->|Hne]; intros key' s' Hin;
      apply elem_of_cons in Hin as [[= -> ->]|Hin].
    + exists i. set_solver.
    + by apply (Hrest key' s').
    + apply (Hrm k s). apply list_elem_of_here.
    + by apply (IH Hrest key' s').
Qed.

Lemma nonempty_merge (field_cls : option doc_class) (references rm : refmap) :
  nonempty_buckets references -> nonempty_buckets rm ->
  nonempty_buckets (merge_references field_cls references rm).
Proof.
  rewrite merge_references_rekey. revert rm.
  induction references as [|[k s] refs IH]; intros rm Hrefs Hrm; simpl; [done|].
  apply IH.
  - intros key' s' Hin. apply (Hrefs key' s'). by apply list_elem_of_further.
  - apply nonempty_setdefault_update; [done|]. apply (Hrefs k s).
    apply list_elem_of_here.
Qed.

Lemma foldM_invariant {A S : Type} (P : S -> Prop) (step : S -> A -> result S)
    (xs : list A) :
  (forall acc x acc', P acc -> step acc x = Ok acc' -> P acc') ->
  forall acc r, P acc -> foldM step acc xs = Ok r -> P r.
Proof.
  intros Hstep. induction xs as [|x xs IH]; intros acc r Hacc; simpl.
  - by intros [= <-].
  - intros H. apply bind_Ok in H as (mid & Hmid & H).
    apply (IH mid r); [by eapply Hstep | done].
Qed.

Lemma forallb_impl {A : Type} (P Q : A -> bool) (xs : list A) :
  (forall x, x ∈ xs -> P x = true -> Q x = true) ->
  forallb P xs = true -> forallb Q xs = true.
Proof.
  induction xs as [|x xs IH]; simpl; intros Himp H; [done|].
  apply andb_true_iff in H as [Hx Hxs]. apply andb_true_iff. split.
  - apply Himp; [apply list_elem_of_here | done].
  - apply IH; [|done]. intros y Hy. apply Himp. by apply list_elem_of_further.
Qed.

Lemma distinct_keys_fields (n : nat) :
  forall v, height v < n -> distinct_keys v = true -> distinct_fields v = true.
Proof.
  induction n as [|n IH]; intros v Hh Hd; [lia|].
  destruct v as [| | | | |kd xs|kd kvs|h d|]; try done; simpl in *.
  - revert Hd. apply forallb_impl. intros x Hx. apply IH.
    pose proof (height_elem kd xs x Hx). simpl in *. lia.
  - apply andb_true_iff in Hd as [_ Hd]. revert Hd.
    apply forallb_impl. intros [k x] Hx. apply IH.
    pose proof (height_entries kvs k x Hx). simpl. lia.
  - apply andb_true_iff in Hd as [Hnd Hd]. rewrite Hnd. simpl. revert Hd.
    apply forallb_impl. intros [k x] Hx. apply IH.
    pose proof (height_entries d k x Hx). simpl. lia.
Qed.

Lemma get_or_None_container (f : string) (d : list (string * value)) :
  is_container (get_or_None f d) = true \/ is_DBRef (get_or_None f d) = true ->
  dict_get f d = Some (get_or_None f d).
Proof.
  unfold get_or_None. destruct (dict_get f d); [done|]. simpl. by intros [|].
Qed.

Section ScanNonempty.
Variable registry : string -> option doc_class.
Variable max_depth : Z.

Lemma scan_tagged_nonempty (kvs : list (string * value)) (rm rm' : refmap) :
  nonempty_buckets rm -> scan_tagged registry kvs rm = Ok rm' ->
  nonempty_buckets rm'.
Proof.
  intros Hrm H. apply scan_tagged_entry in H as (c & i & _ & ->).
  apply nonempty_setdefault_update; [done|]. exists i. set_solver.
Qed.

Lemma find_references_nonempty (fuel : nat) :
  forall (items : value) (depth : Z) (rm : refmap),
    find_references registry max_depth fuel items depth = Ok rm ->
    nonempty_buckets rm.
Proof.
  induction fuel as [|fuel IH]; intros items depth rm Hscan; [done|].
  unfold find_references in Hscan. cbn [find_references_with] in Hscan.
  fold (find_references registry max_depth fuel) in Hscan.
  unfold find_references_body in Hscan.
  assert (Hnil : nonempty_buckets []).
  { intros key s Hin. by apply elem_of_nil in Hin. }
  destruct (negb (truthy items) || (max_depth <=? depth)%Z).
  { by injection Hscan as <-. }
  apply bind_Ok in Hscan as (iterator & _ & Hscan).
  revert Hscan. apply foldM_invariant; [|done].
  intros acc x acc' Hacc Hstep. unfold scan_item in Hstep.
  assert (Hnested :
            (if (depth + 1 - 1 <=? max_depth)%Z
             then let* references :=
                    find_references registry max_depth fuel x (depth + 1 - 1)%Z in
                  Ok (merge_references None references acc)
             else Ok acc) = Ok acc' -> nonempty_buckets acc').
  { destruct (depth + 1 - 1 <=? max_depth)%Z; [|by intros [= <-]].
    intros H. apply bind_Ok in H as (refs & Hrefs & [= <-]).
    apply nonempty_merge; [by eapply IH | done]. }
  destruct x as [| | |c j| |kd xs|kd kvs|h d|];
    try (by injection Hstep as <-); try (by apply Hnested).
  - injection Hstep as <-. apply nonempty_setdefault_update; [done|].
    exists j. set_solver.
  - destruct (dict_has "_ref" kvs); [|by apply Hnested].
    by eapply scan_tagged_nonempty.
  - revert Hstep. apply foldM_invariant; [|done].
    intros a [f fd] a' Ha Hfield. unfold scan_field in Hfield.
    assert (Hfnested :
              (if (depth + 1 <=? max_depth)%Z
               then let* references :=
                      find_references registry max_depth fuel (get_or_None f d)
                                      (depth + 1)%Z in
                    Ok (merge_references (field_cls_of fd) references a)
               else Ok a) = Ok a' -> nonempty_buckets a').
    { destruct (depth + 1 <=? max_depth)%Z; [|by intros [= <-]].
      intros H. apply bind_Ok in H as (refs & Hrefs & [= <-]).
      apply nonempty_merge; [by eapply IH | done]. }
    destruct (get_or_None f d) as [| | |c j| |kd xs|kd kvs| |];
      try (by injection Hfield as <-); try (by apply Hfnested).
    + apply bind_Ok in Hfield as (t & _ & [= <-]).
      apply nonempty_setdefault_update; [done|]. exists j. set_solver.
    + destruct (dict_has "_ref" kvs); [|by apply Hfnested].
      by eapply scan_tagged_nonempty.
Qed.
End ScanNonempty.

Section ScanToAttach.
Variable registry : string -> option doc_class.
Variable object_map : objmap.
Variable max_depth : Z.

Lemma tagged_entry_pointer (k : dict_kind) (kvs : list (string * value))
    (key : rkey) (i : oid) :
  dict_has "_ref" kvs = true ->
  well_formed (VDict k kvs) = true ->
  tagged_entry registry kvs = Some (key, i) ->
  exists ptr c,
    pointer_at [Key "_ref"] (VDict k kvs) = Some ptr
    /\ attr_collection ptr = Ok c /\ attr_id ptr = Ok i
    /\ substitute object_map (VDict k kvs)
       = Some (om_get object_map c i (VDict k kvs)).
Proof.
  intros Href Hwf Hentry. simpl in Hwf. simpl. rewrite Href. simpl.
  unfold tagged_entry, getitem in Hentry.
  destruct (dict_get "_cls" kvs) as [cls_name|]; [|done].
  destruct (registry_get registry cls_name) as [c0|]; [|done].
  destruct (dict_get "_ref" kvs) as [r|]; [|done].
  destruct r as [| | |c j|c j| | | |]; try done; simpl in Hentry;
    injection Hentry as <- <-.
  - by exists (DBRef c j), c.
  - by exists (LazyReference c j), c.
Qed.

(** Every pointer the scanner collects is at a position the attacher
    writes. *)
Lemma scan_reach_attached (n : nat) :
  forall (p : list step) (items : value) (depth : Z) (key : rkey) (i : oid),
    length p <= n ->
    is_tagged items = false ->
    well_formed items = true ->
    collected_at registry max_depth p items depth = Some (key, i) ->
    exists ptr c orig,
      pointer_at p items = Some ptr
      /\ attr_collection ptr = Ok c /\ attr_id ptr = Ok i
      /\ value_at (site p) items = Some orig
      /\ attached_at object_map max_depth p items depth
         = Some (om_get object_map c i orig).
Proof.
  induction n as [|n IH]; intros p items depth key i Hlen Htag Hwf Hcol.
  { destruct p; [|simpl in Hlen; lia]. simpl in Hcol.
    by destruct (max_depth <=? depth)%Z. }
  destruct p as [|s p']; [simpl in Hcol; by destruct (max_depth <=? depth)%Z|].
  simpl in Hlen. rewrite collected_at_cons in Hcol.
  destruct (Z.leb_spec max_depth depth) as [Hge|Hlt]; [done|].
  destruct (element s items) as [x|] eqn:Hx; [|done].
  pose proof (element_not_ref s items x Htag Hx) as Hs.
  assert (Hle : (depth + 1 <=? max_depth)%Z = true) by (apply Z.leb_le; lia).
  assert (Hdisc : is_discriminated items = false).
  { destruct items as [| | | | |kd xs|kd kvs| |]; try done.
    simpl in Htag, Hwf |- *. rewrite Htag. simpl.
    unfold dict_has in Htag. destruct (dict_get "_ref" kvs); [done|].
    apply andb_true_iff in Hwf as [Hcls _]. by apply negb_true_iff in Hcls. }
  assert (Hwx : well_formed x = true).
  { destruct s as [j|k|f], items as [| | | | |kd xs|kd kvs| |]; simpl in Hx;
      try done.
    - simpl in Hwf. apply (forallb_elem_of _ _ x Hwf).
      apply list_elem_of_lookup. eauto.
    - simpl in Htag, Hwf. unfold dict_has in Htag.
      destruct (dict_get "_ref" kvs); [done|].
      apply andb_true_iff in Hwf as [_ Hwf]. apply dict_get_elem_of in Hx.
      by apply (forallb_elem_of _ _ (k, x) Hwf). }
  assert (Hptr : forall q, pointer_at (s :: q) items = pointer_at q x).
  { intros q.
    destruct s as [j|k|f], items as [| | | | |kd xs|kd kvs| |]; simpl in Hx;
      try done; simpl.
    - by rewrite Hx.
    - simpl in Htag. by rewrite Htag, Hx. }
  rewrite (site_cons s p' Hs), (value_at_element s _ items x Hx), Hptr.
  cbn [attached_at]. rewrite Htag, Hdisc, Hx, Hle.
  unfold collected_from in Hcol.
  destruct x as [| | |c j| |kd xs|kd kvs|h d|]; try done.
  - (* a bare pointer *)
    destruct p'; [|done]. injection Hcol as <- <-.
    exists (DBRef c j), c, (DBRef c j). done.
  - (* a nested list *)
    apply (IH p' (VList kd xs) depth key i); [lia|done|done|done].
  - (* a mapping *)
    destruct (dict_has "_ref" kvs) eqn:Href.
    + destruct (is_ref_step p') eqn:Hp; [|done].
      apply is_ref_step_eq in Hp as ->.
      destruct (tagged_entry_pointer kd kvs key i Href Hwx Hcol)
        as (ptr & c & Hp & Hc & Hi & Hsub).
      exists ptr, c, (VDict kd kvs). split; [done|]. split; [done|].
      split; [done|]. split; [done|].
      rewrite attached_at_tagged by done. done.
    + apply (IH p' (VDict kd kvs) depth key i); [lia|done|done|done].
  - (* a record *)
    destruct p' as [|[|?|f] p'']; try done.
    destruct (dict_get f (doc_fields h)) as [fd|] eqn:Hfd; [|done].
    assert (Hhas : dict_has f (doc_fields h) = true).
    { unfold dict_has. by rewrite Hfd. }
    rewrite Hhas. change (site (Field f :: p'')) with (Field f :: site p'').
    cbn [pointer_at value_at].
    simpl in Hwx. apply andb_true_iff in Hwx as [_ Hwd].
    pose proof (forallb_get_or_None well_formed f d eq_refl Hwd) as Hwv.
    pose proof (get_or_None_container f d) as Hget.
    simpl in Hlen. rewrite Hle in Hcol.
    destruct (get_or_None f d) as [| | |c j| |kd xs|kd kvs| |] eqn:Hv; try done.
    + rewrite Hget by (by right).
      destruct p''; [|done].
      destruct (field_document_type fd) as [t|e]; [|done].
      injection Hcol as <- <-. exists (DBRef c j), c, (DBRef c j). done.
    + rewrite Hget by (by left).
      destruct (collected_at registry max_depth p'' (VList kd xs) (depth + 1))
        as [[key0 i0]|] eqn:Hnested; [|done].
      injection Hcol as <- <-.
      apply (IH p'' (VList kd xs) (depth + 1)%Z key0 i0); [lia|done|done|done].
    + rewrite Hget by (by left).
      destruct (dict_has "_ref" kvs) eqn:Href.
      * destruct (is_ref_step p'') eqn:Hp; [|done].
        apply is_ref_step_eq in Hp as ->.
        destruct (tagged_entry_pointer kd kvs key i Href Hwv Hcol)
          as (ptr & c & Hp & Hc & Hi & Hsub).
        exists ptr, c, (VDict kd kvs). done.
      * destruct (collected_at registry max_depth p'' (VDict kd kvs) (depth + 1))
          as [[key0 i0]|] eqn:Hnested; [|done].
        injection Hcol as <- <-.
        apply (IH p'' (VDict kd kvs) (depth + 1)%Z key0 i0); [lia|done|done|done].
Qed.
End ScanToAttach.
(** ** The attacher and the whole call: what a caller can rely on *)

(** X8.  On a tree that holds no deferred reference proxy and whose
    records have distinct field names, the attacher of [AsyncDeReference]
    returns what the attacher of [DeReference] returns, the same tree or
    the same exception, provided [_from_son] builds such data from such
    data. *)
Theorem async_attacher_agrees_without_proxies
    (registry : string -> option doc_class)
    (from_son : doc_class -> list (string * value) ->
                result (doc_head * list (string * value)))
    (objectid_has_id : bool) (object_map : objmap) (max_depth : Z)
    (fuel : nat) (items : value) (depth : Z)
    (inst : option doc_head) (name : option string) :
  (forall c son h d,
     forallb (fun kv => proxy_free (snd kv)) son = true ->
     forallb (fun kv => distinct_fields (snd kv)) son = true ->
     from_son c son = Ok (h, d) ->
     forallb (fun kv => proxy_free (snd kv)) d = true
     /\ forallb (fun kv => distinct_fields (snd kv)) d = true) ->
  proxy_free items = true ->
  distinct_fields items = true ->
  async_attach_objects registry from_son objectid_has_id object_map max_depth
                       fuel items depth inst name
  = attach_objects registry from_son object_map max_depth
                   fuel items depth inst name.
Proof. intros Hson. by apply async_attach_objects_agrees. Qed.

Lemma fixture_from_son_plain (P : value -> bool) (c : doc_class)
    (son : list (string * value)) (h : doc_head) (d : list (string * value)) :
  forallb (fun kv => P (snd kv)) son = true ->
  Fixture.from_son c son = Ok (h, d) ->
  forallb (fun kv => P (snd kv)) d = true.
Proof.
  intros Hson [= _ <-]. induction son as [|[k v] son IH]; simpl in *; [done|].
  apply andb_true_iff in Hson as [Hv Hson]. by rewrite Hv, IH.
Qed.

Lemma async_attacher_agrees_without_proxies_witness :
  async_attach_objects Fixture.registry Fixture.from_son true
                       Fixture.object_map 1 4 (VList PyList [Fixture.post]) 0
                       None None
  = attach_objects Fixture.registry Fixture.from_son Fixture.object_map 1 4
                   (VList PyList [Fixture.post]) 0 None None.
Proof.
  apply (async_attacher_agrees_without_proxies Fixture.registry Fixture.from_son
           true Fixture.object_map 1 4 (VList PyList [Fixture.post]) 0 None None).
  - intros c son h d Hp Hd Hson. split.
    + exact (fixture_from_son_plain proxy_free c son h d Hp Hson).
    + exact (fixture_from_son_plain distinct_fields c son h d Hd Hson).
  - reflexivity.
  - vm_compute. reflexivity.
Defined.

(** X9.  What [_attach_objects] writes.  Whenever it returns on a tree
    whose records have distinct field names, the result holds, at the
    position of every pointer within reach of the call, the object the
    Object Map has for the pointer's collection and identifier, and the
    pointer itself (or the tagged mapping itself) when the map has none:
    a tagged mapping is replaced as a whole; pointers that are elements of
    the container and pointers and tagged mappings held by declared
    fields of its records are replaced at any depth; nested containers
    and containers held by fields are entered while
    [depth + 1 <= max_depth]. *)
Theorem attacher_writes_pointers_in_reach
    (registry : string -> option doc_class)
    (from_son : doc_class -> list (string * value) ->
                result (doc_head * list (string * value)))
    (object_map : objmap) (max_depth : Z) (fuel : nat)
    (items : value) (depth : Z) (inst : option doc_head) (name : option string)
    (out : value) (p : list step) (o : value) :
  distinct_fields items = true ->
  attach_objects registry from_son object_map max_depth
                 fuel items depth inst name = Ok out ->
  attached_at object_map max_depth p items depth = Some o ->
  value_at (site p) out = Some o.
Proof. apply attach_objects_attached. Qed.

Lemma attacher_writes_pointers_in_reach_witness :
  exists out,
    attach_objects Fixture.registry Fixture.from_son Fixture.object_map 1 4
                   (VList PyList [Fixture.post]) 0 None None = Ok out
    /\ attached_at Fixture.object_map 1 [Idx 0; Field "likes"; Idx 0]
                   (VList PyList [Fixture.post]) 0 = Some Fixture.alice
    /\ value_at (site [Idx 0; Field "likes"; Idx 0]) out = Some Fixture.alice.
Proof.
  destruct (attach_objects Fixture.registry Fixture.from_son Fixture.object_map
              1 4 (VList PyList [Fixture.post]) 0 None None)
    as [out|e] eqn:Hout; [|by vm_compute in Hout].
  exists out. split; [reflexivity|]. split; [vm_compute; reflexivity|].
  apply (attacher_writes_pointers_in_reach Fixture.registry Fixture.from_son
           Fixture.object_map 1 4 (VList PyList [Fixture.post]) 0 None None out
           [Idx 0; Field "likes"; Idx 0] Fixture.alice).
  - vm_compute. reflexivity.
  - exact Hout.
  - vm_compute. reflexivity.
Defined.

Section Resolve.
Variable registry : string -> option doc_class.
Variable from_son :
  doc_class -> list (string * value) ->
  result (doc_head * list (string * value)).
Variable in_bulk : doc_class -> list oid -> result (list (oid * value)).
Variable find : db_handle -> string -> list oid -> result (list (list (string * value))).
Variable to_python : doc_class -> bool -> value -> result value.

(** The documents of a collection, by identifier *)
Variable stored : string -> oid -> option value.

Hypothesis in_bulk_answers : forall c refs,
  NoDup refs ->
  exists res, in_bulk c refs = Ok res /\ NoDup res.*1 /\
    forall i d, (i, d) ∈ res <-> i ∈ refs /\ stored (cls_collection c) i = Some d.

(** X10.  The whole call, without an owner.  Let [items] be a list or an
    untagged mapping the scanner and the attacher take (registered
    classes, declared pointer fields, distinct keys and field names,
    pointers under ["_ref"], no mapping with a discriminator alone), let
    every pointer within reach of the scan be keyed by a document class
    that has [objects], and let [in_bulk] answer from the stored data.
    Then [DeReference.__call__] returns, given a recursion budget above
    the height of the tree, and for every pointer within reach of the scan
    whose collection is that of its class the result holds, at the
    pointer's position, the stored document, or what was there when no
    document is stored under the identifier. *)
Theorem dereference_resolves_pointers_in_reach
    (fuel : nat) (items : value) (max_depth : Z) :
  is_container items = true ->
  is_tagged items = false ->
  well_formed items = true ->
  scannable registry items = true ->
  distinct_keys items = true ->
  height items < fuel ->
  (forall q key j,
     collected_at registry max_depth q items 0 = Some (key, j) ->
     exists c, key = KClass c /\ cls_objects c = true) ->
  exists out,
    dereference registry from_son in_bulk find to_python
                fuel items max_depth None None = Ok out
    /\ forall p t i ptr,
         collected_at registry max_depth p items 0 = Some (KClass t, i) ->
         pointer_at p items = Some ptr ->
         attr_collection ptr = Ok (cls_collection t) ->
         exists orig,
           value_at (site p) items = Some orig
           /\ value_at (site p) out
              = Some (match stored (cls_collection t) i with
                      | Some doc => doc
                      | None => orig
                      end).
Proof.
  intros Hc Htag Hwf Hs Hdk Hh Htyped.
  destruct (find_references_total registry max_depth fuel items 0 Hc Hs Hh)
    as [rm Hrm].
  assert (Htb : typed_buckets rm).
  { intros key ids Hin.
    destruct (find_references_nonempty registry max_depth fuel items 0 rm Hrm
                key ids Hin) as [j Hj].
    destruct (find_references_sound registry max_depth fuel items 0 rm key j
                Hc Hdk Hrm) as [q Hq]; [by exists ids|].
    by apply (Htyped q key j). }
  destruct (fetch_buckets_fetched registry from_son in_bulk find stored
              in_bulk_answers None rm Htb [] ∅ [])
    as (om & calls & Hfetch & Hdone & _).
  { split; [intros c ids i H; by apply elem_of_nil in H|].
    intros col i o H. by rewrite lookup_empty in H. }
  destruct (attach_objects_ok registry from_son om max_depth fuel
              items 0%Z None None Hc Hwf Hh) as (out & Hout & _).
  exists out. split.
  { unfold dereference.
    assert (Hresolve :
              (let* reference_map :=
                 find_references registry max_depth fuel items 0 in
               let* (object_map, _) :=
                 fetch_objects registry from_son in_bulk find reference_map None in
               attach_objects registry from_son object_map max_depth
                              fuel items 0 None None) = Ok out).
    { rewrite Hrm. cbn [bind]. unfold fetch_objects. rewrite Hfetch. exact Hout. }
    by destruct items. }
  intros p t i ptr Hcol Hptr Hcoll.
  destruct (scan_reach_attached registry om max_depth (length p) p items 0
              (KClass t) i (le_n _) Htag Hwf Hcol)
    as (ptr' & c & orig & Hptr' & Hc' & Hi' & Horig & Hatt).
  rewrite Hptr in Hptr'. injection Hptr' as <-.
  rewrite Hcoll in Hc'. injection Hc' as <-.
  exists orig. split; [done|].
  rewrite (attach_objects_attached registry from_son om max_depth fuel items 0
             None None out p _
             (distinct_keys_fields (S (height items)) items (Nat.lt_succ_diag_r _) Hdk)
             Hout Hatt).
  pose proof (find_references_complete registry max_depth fuel items 0 rm p
                (KClass t) i Hrm Hcol) as Hin.
  apply elem_of_bucket in Hin as (ids & Hin & Hi).
  unfold om_get. by rewrite (Hdone t ids i Hin Hi).
Qed.
End Resolve.

Lemma fixture_post_typed (q : list step) (key : rkey) (j : oid) :
  collected_at Fixture.registry 2 q (VList PyList [Fixture.post]) 0
  = Some (key, j) ->
  exists c, key = KClass c /\ cls_objects c = true.
Proof.
  intros Hq.
  destruct (find_references Fixture.registry 2 4 (VList PyList [Fixture.post]) 0)
    as [rm|e] eqn:Hrm; [|by vm_compute in Hrm].
  pose proof (find_references_complete Fixture.registry 2 4 _ 0 rm q key j
                Hrm Hq) as Hin.
  apply elem_of_bucket in Hin as (s & Hin & _).
  vm_compute in Hrm. injection Hrm as <-.
  apply list_elem_of_singleton in Hin as [= -> _].
  eexists. split; reflexivity.
Qed.

Lemma dereference_resolves_pointers_in_reach_witness :
  exists out,
    dereference Fixture.registry Fixture.from_son Fixture.in_bulk Fixture.find
                Fixture.to_python 4 (VList PyList [Fixture.post]) 2 None None
    = Ok out
    /\ forall p t i ptr,
         collected_at Fixture.registry 2 p (VList PyList [Fixture.post]) 0
         = Some (KClass t, i) ->
         pointer_at p (VList PyList [Fixture.post]) = Some ptr ->
         attr_collection ptr = Ok (cls_collection t) ->
         exists orig,
           value_at (site p) (VList PyList [Fixture.post]) = Some orig
           /\ value_at (site p) out
              = Some (match stored_by_collection (cls_collection t) i with
                      | Some doc => doc
                      | None => orig
                      end).
Proof.
  apply (dereference_resolves_pointers_in_reach
           Fixture.registry Fixture.from_son Fixture.in_bulk Fixture.find
           Fixture.to_python stored_by_collection).
  - intros c refs. apply (fixture_in_bulk_stored c refs).
  - reflexivity.
  - reflexivity.
  - vm_compute. reflexivity.
  - reflexivity.
  - vm_compute. reflexivity.
  - simpl. lia.
  - apply fixture_post_typed.
Defined.
(** ** The conversion of bare identifiers *)

Section GetItems.
Variable to_python : doc_class -> bool -> value -> result value.
Variable t : doc_class.
Variable dbref : bool.

Lemma get_items_from_leaf (fuel : nat) :
  forall (v v' : value) (p : list step) (x : value),
    get_items_from to_python fuel t dbref v = Ok v' ->
    leaf_at p v = Some x ->
    exists w, converted to_python t dbref x = Ok w /\ value_at p v' = Some w.
Proof.
  induction fuel as [|fuel IH]; intros v v' p x Hget Hleaf; [done|].
  cbn [get_items_from] in Hget.
  assert (Hself : forall y,
            (if is_DBRef_or_Document y then Ok y else to_python t dbref y) = Ok v' ->
            leaf_at p y = Some x -> leaf_at [] y = Some y ->
            (forall s q, leaf_at (s :: q) y = None) ->
            exists w, converted to_python t dbref x = Ok w
                      /\ value_at p v' = Some w).
  { intros y Hy Hp Hnil Hcons. destruct p as [|s q].
    - rewrite Hnil in Hp. injection Hp as <-. by exists v'.
    - by rewrite Hcons in Hp. }
  assert (Hlist : forall kd xs,
            kd ≠ PyTuple ->
            (let* new_items := mapM_r (get_items_from to_python fuel t dbref) xs in
             Ok (VList PyList new_items)) = Ok v' ->
            leaf_at p (VList kd xs) = Some x ->
            exists w, converted to_python t dbref x = Ok w
                      /\ value_at p v' = Some w).
  { intros kd xs Hkd H Hp. apply bind_Ok in H as (new_items & Hnew & [= <-]).
    apply mapM_r_Ok in Hnew as [_ Hall].
    destruct p as [|[k|key|f] p']; simpl in Hp; try by destruct kd.
    assert (Hp' : match xs !! k with
                  | Some y => leaf_at p' y
                  | None => None
                  end = Some x) by (by destruct kd).
    destruct (xs !! k) as [y|] eqn:Hy; [|done].
    destruct (Hall k y Hy) as (y' & Hy' & Hconv).
    destruct (IH y y' p' x Hconv Hp') as (w & Hw & Hat).
    exists w. split; [done|]. simpl. by rewrite Hy'. }
  destruct v as [| | | | |kd xs|kd kvs|h d|];
    try (match type of Hleaf with
         | leaf_at p ?y = Some x =>
             apply (Hself y Hget Hleaf); [done|by intros [] ?]
         end).
  - destruct kd as [| |inst name|inst name].
    + by apply (Hlist PyList xs).
    + apply (Hself (VList PyTuple xs) Hget Hleaf); [done|by intros [] ?].
    + by apply (Hlist (BaseList inst name) xs).
    + by apply (Hlist (EmbeddedDocumentList inst name) xs).
  - apply bind_Ok in Hget as (new_items & Hnew & [= <-]).
    destruct p as [|[k|key|f] p']; simpl in Hleaf; try done.
    destruct (dict_get key kvs) as [y|] eqn:Hy; [|done].
    destruct (mapM_r_dict_get
                (fun kv => get_items_from to_python fuel t dbref (snd kv))
                kvs new_items key y Hnew Hy) as (y' & Hconv & Hy').
    destruct (IH y y' p' x Hconv Hleaf) as (w & Hw & Hat).
    exists w. split; [done|]. simpl. by rewrite Hy'.
Qed.
End GetItems.

(** X11.  The conversion of bare identifiers, [_get_items_from_list] and
    [_get_items_from_dict] applied to [items]: whenever it returns, every
    value below [items] that is reached through lists and mappings and is
    neither of them is, at the same position of the result, itself when
    it is a pointer or a Document, and [field.to_python] of it otherwise.
    A tuple below the top level is converted as a whole. *)
Theorem get_items_converts_leaves
    (to_python : doc_class -> bool -> value -> result value)
    (fuel : nat) (t : doc_class) (dbref : bool) (items items' : value)
    (s : step) (y : value) (p : list step) (x : value) :
  get_items to_python fuel t dbref items = Ok items' ->
  element s items = Some y ->
  leaf_at p y = Some x ->
  exists w, converted to_python t dbref x = Ok w
            /\ value_at (s :: p) items' = Some w.
Proof.
  intros Hget Hy Hleaf. unfold get_items in Hget.
  destruct s as [k|key|f], items as [| | | | |kd xs|kd kvs| |]; simpl in Hy;
    try done.
  - simpl in Hget. apply bind_Ok in Hget as (new_items & Hnew & [= <-]).
    apply mapM_r_Ok in Hnew as [_ Hall].
    destruct (Hall k y Hy) as (y' & Hy' & Hconv).
    destruct (get_items_from_leaf to_python t dbref fuel y y' p x Hconv Hleaf)
      as (w & Hw & Hat).
    exists w. split; [done|]. simpl. by rewrite Hy'.
  - apply (get_items_from_leaf to_python t dbref fuel (VDict kd kvs) items'
             (Key key :: p) x Hget).
    simpl. by rewrite Hy.
Qed.

Lemma get_items_converts_leaves_witness :
  exists w,
    converted Fixture.to_python Fixture.User false (ObjectId 3) = Ok w
    /\ value_at [Idx 2; Idx 0]
         (VList PyList [DBRef "users" 1; DBRef "users" 2;
                        VList PyList [DBRef "users" 3]])
       = Some w.
Proof.
  apply (get_items_converts_leaves Fixture.to_python 3 Fixture.User false
           (VList PyTuple [ObjectId 1; DBRef "users" 2; VList PyList [ObjectId 3]])
           (VList PyList [DBRef "users" 1; DBRef "users" 2;
                          VList PyList [DBRef "users" 3]])
           (Idx 2) (VList PyList [ObjectId 3]) [Idx 0] (ObjectId 3)).
  - reflexivity.
  - reflexivity.
  - reflexivity.
Defined.

(** ** The asynchronous entry point against the blocking one *)

Lemma forallb_lookup {A : Type} (P : A -> bool) (xs : list A) :
  (forall k x, xs !! k = Some x -> P x = true) -> forallb P xs = true.
Proof.
  induction xs as [|x xs IH]; intros H; simpl; [done|].
  rewrite (H 0 x eq_refl). simpl. apply IH. intros k y Hy. by apply (H (S k)).
Qed.

Section AsyncEntry.
Variable registry : string -> option doc_class.
Variable from_son :
  doc_class -> list (string * value) ->
  result (doc_head * list (string * value)).
Variable in_bulk : doc_class -> list oid -> result (list (oid * value)).
Variable async_in_bulk : doc_class -> list oid -> result (list (oid * value)).
Variable async_get : doc_class -> oid -> result value.
Variable find : db_handle -> string -> list oid -> result (list (list (string * value))).
Variable to_python : doc_class -> bool -> value -> result value.
Variable objectid_has_id : bool.

(** The stored data, from which every query primitive answers *)
Variable stored : doc_class -> oid -> option value.

Hypothesis in_bulk_stored : forall c refs,
  NoDup refs ->
  exists res, in_bulk c refs = Ok res /\ NoDup res.*1 /\
    forall i d, (i, d) ∈ res <-> i ∈ refs /\ stored c i = Some d.
Hypothesis async_in_bulk_stored : forall c refs,
  NoDup refs ->
  exists res, async_in_bulk c refs = Ok res /\ NoDup res.*1 /\
    forall i d, (i, d) ∈ res <-> i ∈ refs /\ stored c i = Some d.
Hypothesis async_get_stored : forall c i d,
  async_get c i = Ok d <-> stored c i = Some d.
Hypothesis find_class_db : forall t collection refs,
  find (ClassDb t) collection refs
  = find (AsyncDb (meta_db_alias t)) collection refs.
Hypothesis find_default_db : forall collection refs,
  find (SyncDb DEFAULT_CONNECTION_NAME) collection refs
  = find (AsyncDb DEFAULT_CONNECTION_NAME) collection refs.

(** [_from_son] and [to_python] build data without proxies and with
    distinct field names from such data. *)
Hypothesis from_son_plain : forall c son h d,
  forallb (fun kv => proxy_free (snd kv)) son = true ->
  forallb (fun kv => distinct_fields (snd kv)) son = true ->
  from_son c son = Ok (h, d) ->
  forallb (fun kv => proxy_free (snd kv)) d = true
  /\ forallb (fun kv => distinct_fields (snd kv)) d = true.
Hypothesis to_python_plain : forall t dbref v w,
  proxy_free v = true -> distinct_fields v = true ->
  to_python t dbref v = Ok w ->
  proxy_free w = true /\ distinct_fields w = true.

Lemma get_items_from_plain (t : doc_class) (dbref : bool) (fuel : nat) :
  forall v v',
    proxy_free v = true -> distinct_fields v = true ->
    get_items_from to_python fuel t dbref v = Ok v' ->
    proxy_free v' = true /\ distinct_fields v' = true.
Proof.
  induction fuel as [|fuel IH]; intros v v' Hp Hd Hget; [done|].
  cbn [get_items_from] in Hget.
  assert (Hself :
            (if is_DBRef_or_Document v then Ok v else to_python t dbref v) = Ok v' ->
            proxy_free v' = true /\ distinct_fields v' = true).
  { destruct (is_DBRef_or_Document v); [by intros [= <-]|].
    by apply to_python_plain. }
  assert (Hlist : forall kd xs,
            v = VList kd xs ->
            (let* new_items := mapM_r (get_items_from to_python fuel t dbref) xs in
             Ok (VList PyList new_items)) = Ok v' ->
            proxy_free v' = true /\ distinct_fields v' = true).
  { intros kd xs -> H. apply bind_Ok in H as (new_items & Hnew & [= <-]).
    apply mapM_r_Ok in Hnew as [Hlen Hall]. simpl in Hp, Hd.
    assert (Hboth : forall k y', new_items !! k = Some y' ->
                      proxy_free y' = true /\ distinct_fields y' = true).
    { intros k y' Hy'.
      destruct (xs !! k) as [y|] eqn:Hy.
      - destruct (Hall k y Hy) as (y2 & Hy2 & Hconv).
        rewrite Hy' in Hy2. injection Hy2 as <-.
        assert (Hin : y ∈ xs) by (apply list_elem_of_lookup; eauto).
        apply (IH y y'); [by eapply forallb_elem_of|by eapply forallb_elem_of|done].
      - apply lookup_ge_None in Hy. apply lookup_lt_Some in Hy'. lia. }
    split; simpl; apply forallb_lookup; intros k y' Hy'; by apply (Hboth k y'). }
  destruct v as [| | | | |kd xs|kd kvs|h d|]; try by apply Hself.
  - destruct kd as [| |inst name|inst name].
    + by apply (Hlist PyList xs).
    + by apply Hself.
    + by apply (Hlist (BaseList inst name) xs).
    + by apply (Hlist (EmbeddedDocumentList inst name) xs).
  - apply bind_Ok in Hget as (new_items & Hnew & [= <-]).
    apply mapM_r_Ok in Hnew as [Hlen Hall]. simpl in Hp, Hd.
    assert (Hboth : forall k kv', new_items !! k = Some kv' ->
                      proxy_free (snd kv') = true
                      /\ distinct_fields (snd kv') = true).
    { intros k kv' Hkv'.
      destruct (kvs !! k) as [kv|] eqn:Hkv.
      - destruct (Hall k kv Hkv) as (kv2 & Hkv2 & Hconv).
        rewrite Hkv' in Hkv2. injection Hkv2 as <-.
        apply bind_Ok in Hconv as (w & Hw & [= <-]). simpl.
        assert (Hin : kv ∈ kvs) by (apply list_elem_of_lookup; eauto).
        apply (IH (snd kv) w); [|  |done].
        + by apply (forallb_elem_of _ _ kv Hp).
        + by apply (forallb_elem_of _ _ kv Hd).
      - apply lookup_ge_None in Hkv. apply lookup_lt_Some in Hkv'. lia. }
    split; simpl; apply forallb_lookup; intros k kv' Hkv'; by apply (Hboth k kv').
Qed.

Lemma get_items_plain (t : doc_class) (dbref : bool) (fuel : nat)
    (items items' : value) :
  proxy_free items = true -> distinct_fields items = true ->
  get_items to_python fuel t dbref items = Ok items' ->
  proxy_free items' = true /\ distinct_fields items' = true.
Proof.
  intros Hp Hd Hget. unfold get_items in Hget.
  assert (Hlist : forall xs,
            forallb proxy_free xs = true -> forallb distinct_fields xs = true ->
            (let* new_items := mapM_r (get_items_from to_python fuel t dbref) xs in
             Ok (VList PyList new_items)) = Ok items' ->
            proxy_free items' = true /\ distinct_fields items' = true).
  { intros xs Hpx Hdx H. apply bind_Ok in H as (new_items & Hnew & [= <-]).
    apply mapM_r_Ok in Hnew as [Hlen Hall].
    assert (Hboth : forall k y', new_items !! k = Some y' ->
                      proxy_free y' = true /\ distinct_fields y' = true).
    { intros k y' Hy'.
      destruct (xs !! k) as [y|] eqn:Hy.
      - destruct (Hall k y Hy) as (y2 & Hy2 & Hconv).
        rewrite Hy' in Hy2. injection Hy2 as <-.
        assert (Hin : y ∈ xs) by (apply list_elem_of_lookup; eauto).
        apply (get_items_from_plain t dbref fuel y y');
          [by eapply forallb_elem_of|by eapply forallb_elem_of|done].
      - apply lookup_ge_None in Hy. apply lookup_lt_Some in Hy'. lia. }
    split; simpl; apply forallb_lookup; intros k y' Hy'; by apply (Hboth k y'). }
  destruct items as [|s| | | |kd xs|kd kvs| |]; try done.
  - simpl in Hget. apply (Hlist (str_chars s)); [| |done].
    + apply forallb_lookup. intros k x Hx.
      assert (Hin : x ∈ str_chars s) by (apply list_elem_of_lookup; eauto).
      by apply str_chars_elem in Hin as [c ->].
    + apply forallb_lookup. intros k x Hx.
      assert (Hin : x ∈ str_chars s) by (apply list_elem_of_lookup; eauto).
      by apply str_chars_elem in Hin as [c ->].
  - by apply (Hlist xs).
  - by apply (get_items_from_plain t dbref fuel (VDict kd kvs) items').
Qed.

(** The last three lines of the two entry points *)
Lemma resolve_agrees (fuel : nat) (items : value) (max_depth : Z)
    (doc_type : option dtype) (inst : option doc_head) (name : option string) :
  proxy_free items = true -> distinct_fields items = true ->
  (let* reference_map :=
     async_find_references registry objectid_has_id max_depth fuel items 0%Z in
   let* (object_map, _) :=
     async_fetch_objects registry from_son async_in_bulk async_get find
                         reference_map doc_type in
   async_attach_objects registry from_son objectid_has_id object_map
                        max_depth fuel items 0%Z inst name)
  = (let* reference_map := find_references registry max_depth fuel items 0%Z in
     let* (object_map, _) :=
       fetch_objects registry from_son in_bulk find reference_map doc_type in
     attach_objects registry from_son object_map max_depth
                    fuel items 0%Z inst name).
Proof.
  intros Hp Hd. rewrite async_find_references_agrees by done.
  destruct (find_references registry max_depth fuel items 0) as [rm|e]; [|done].
  cbn [bind].
  pose proof (fetch_buckets_same registry from_son in_bulk async_in_bulk
                async_get find stored in_bulk_stored async_in_bulk_stored
                async_get_stored find_class_db find_default_db
                doc_type rm ∅ [] []) as Hsame.
  unfold fetch_objects, async_fetch_objects.
  destruct (foldM (fetch_bucket registry from_son in_bulk find doc_type) (∅, []) rm)
    as [[om1 calls1]|e1];
    destruct (foldM (async_fetch_bucket registry from_son async_in_bulk async_get
                       find doc_type) (∅, []) rm) as [[om2 calls2]|e2];
    simpl in Hsame; try done.
  - subst om2. cbn [bind]. by apply async_attach_objects_agrees.
  - by subst e2.
Qed.

(** X12.  On [items] that is no QuerySet, holds no deferred reference
    proxy and whose records have distinct field names,
    [AsyncDeReference.__call__] returns what [DeReference.__call__]
    returns, the same tree or the same exception, when the asynchronous
    query primitives answer from the same stored data as the blocking
    ones. *)
Theorem async_call_agrees_without_proxies
    (fuel : nat) (items : value) (max_depth : Z)
    (inst : option doc_head) (name : option string) :
  proxy_free items = true ->
  distinct_fields items = true ->
  async_dereference registry from_son async_in_bulk async_get find to_python
                    objectid_has_id fuel items max_depth inst name
  = dereference registry from_son in_bulk find to_python
                fuel items max_depth inst name.
Proof.
  intros Hp Hd. unfold async_dereference, dereference.
  assert (Hres := fun items' dt Hp' Hd' =>
            resolve_agrees fuel items' max_depth dt inst name Hp' Hd').
  destruct items eqn:Hitems; try done; rewrite <- Hitems in *; clear Hitems;
    (destruct inst as [owner|]; [|by apply Hres]);
    (destruct (match name with
               | Some n =>
                   match dict_get n (doc_fields owner) with
                   | Some f => unwrap_field f
                   | None => None
                   end
               | None => None
               end) as [[t dbref| | |]|]; try by apply Hres);
    (destruct (scan_iterator items) as [its|err]; [|done]); cbn [bind];
    (destruct (forallb (has_class t) its); [done|]);
    (destruct (negb dbref); [|by apply Hres]);
    (destruct (get_items to_python fuel t dbref items) as [items'|err] eqn:Hget;
       [|done]);
    cbn [bind];
    destruct (get_items_plain t dbref fuel items items' Hp Hd Hget) as [Hp' Hd'];
    by apply Hres.
Qed.
End AsyncEntry.

Lemma fixture_to_python_plain (t : doc_class) (dbref : bool) (v w : value) :
  proxy_free v = true -> distinct_fields v = true ->
  Fixture.to_python t dbref v = Ok w ->
  proxy_free w = true /\ distinct_fields w = true.
Proof. intros Hp Hd. destruct v; intros [= <-]; done. Qed.

Lemma async_call_agrees_without_proxies_witness :
  async_dereference Fixture.registry Fixture.from_son Fixture.in_bulk
                    Fixture.async_get Fixture.find Fixture.to_python true
                    4 (VList PyList [Fixture.post]) 1 None None
  = dereference Fixture.registry Fixture.from_son Fixture.in_bulk Fixture.find
                Fixture.to_python 4 (VList PyList [Fixture.post]) 1 None None.
Proof.
  apply (async_call_agrees_without_proxies
           Fixture.registry Fixture.from_son Fixture.in_bulk Fixture.in_bulk
           Fixture.async_get Fixture.find Fixture.to_python true Fixture.stored).
  - apply fixture_in_bulk_stored.
  - apply fixture_in_bulk_stored.
  - apply fixture_async_get_stored.
  - reflexivity.
  - reflexivity.
  - intros c son h d Hp Hd Hson. split.
    + exact (fixture_from_son_plain proxy_free c son h d Hp Hson).
    + exact (fixture_from_son_plain distinct_fields c son h d Hd Hson).
  - apply fixture_to_python_plain.
  - reflexivity.
  - vm_compute. reflexivity.
Defined.
(** ** The generic branch of the fetcher against the stored rows *)

Section GenericFetch.
Variable registry : string -> option doc_class.
Variable from_son :
  doc_class -> list (string * value) ->
  result (doc_head * list (string * value)).
Variable in_bulk : doc_class -> list oid -> result (list (oid * value)).
Variable find : db_handle -> string -> list oid -> result (list (list (string * value))).

(** The raw rows of a collection, by identifier *)
Variable rows_of : string -> oid -> option (list (string * value)).
Variable doc_type : option dtype.

Hypothesis simple_doc_type :
  doc_type = None \/ exists t, doc_type = Some (DTClass t).
Hypothesis find_answers : forall name refs,
  NoDup refs ->
  exists rows, find (generic_db doc_type) name refs = Ok rows /\
    forall row, row ∈ rows <-> exists i, i ∈ refs /\ rows_of name i = Some row.
Hypothesis from_son_id : forall name i row,
  rows_of name i = Some row ->
  exists c h d,
    row_class registry doc_type name row = Ok c
    /\ from_son c row = Ok (h, d)
    /\ attr_id (VDoc h d) = Ok i.

(** The two loops over the rows, lines 195-197 and 202-211, as one *)
Lemma store_rows_unfold (name : string) (rows : list (list (string * value)))
    (om : objmap) :
  match doc_type with
  | Some (DTClass t) => store_typed_rows from_son t name rows om
  | _ => store_untyped_rows registry from_son name rows om
  end
  = foldM (fun om row =>
             let* c := row_class registry doc_type name row in
             let* doc := materialise_row from_son c row in
             store_doc name doc om) om rows.
Proof. by destruct simple_doc_type as [->|[t ->]]. Qed.

Lemma rows_same_id (name : string) (i j : oid) (row : list (string * value)) :
  rows_of name i = Some row -> rows_of name j = Some row -> i = j.
Proof.
  intros Hi Hj.
  destruct (from_son_id name i row Hi) as (c & h & d & Hc & Hson & Hid).
  destruct (from_son_id name j row Hj) as (c' & h' & d' & Hc' & Hson' & Hid').
  rewrite Hc in Hc'. injection Hc' as <-. rewrite Hson in Hson'.
  injection Hson' as <- <-. congruence.
Qed.

Lemma store_rows_step (name : string) (row : list (string * value)) (om : objmap)
    (i : oid) :
  rows_of name i = Some row ->
  exists doc,
    (let* c := row_class registry doc_type name row in
     let* doc := materialise_row from_son c row in
     store_doc name doc om) = Ok (<[(name, i) := doc]> om)
    /\ doc_of registry from_son rows_of doc_type name i = Some doc.
Proof.
  intros Hi.
  destruct (from_son_id name i row Hi) as (c & h & d & Hc & Hson & Hid).
  exists (VDoc h d). unfold doc_of. rewrite Hi, Hc. cbn [bind].
  unfold materialise_row. rewrite Hson. cbn [bind]. unfold store_doc.
  by rewrite Hid.
Qed.

(** Each key of the Object Map is as before the loop, or holds the
    document of a row of the loop. *)
Lemma store_rows_either (name : string) (rows : list (list (string * value))) :
  (forall row, row ∈ rows -> exists i, rows_of name i = Some row) ->
  forall om, exists om',
    foldM (fun om row =>
             let* c := row_class registry doc_type name row in
             let* doc := materialise_row from_son c row in
             store_doc name doc om) om rows = Ok om'
    /\ forall key,
         om' !! key = om !! key
         \/ (key.1 = name
             /\ om' !! key = doc_of registry from_son rows_of doc_type name key.2
             /\ exists row, row ∈ rows /\ rows_of name key.2 = Some row).
Proof.
  induction rows as [|row rows IH]; intros Hrows om.
  - exists om. split; [done|]. by left.
  - destruct (Hrows row (list_elem_of_here _ _)) as [j Hj].
    destruct (store_rows_step name row om j Hj) as (doc & Hstep & Hdoc).
    destruct (IH (fun r Hr => Hrows r (list_elem_of_further _ _ _ Hr))
                 (<[(name, j) := doc]> om)) as (om' & Hfold & Hkeys).
    exists om'. split.
    { cbn [foldM]. rewrite Hstep. exact Hfold. }
    intros key. destruct (Hkeys key) as [Hsame|(Hname & Hnew & row' & Hin & Hrow')].
    + destruct (decide ((name, j) = key)) as [<-|Hne].
      * right. simpl. split; [done|]. split.
        -- by rewrite Hsame, lookup_insert_eq.
        -- exists row. split; [apply list_elem_of_here|done].
      * left. by rewrite Hsame, lookup_insert_ne.
    + right. split; [done|]. split; [done|].
      exists row'. split; [by apply list_elem_of_further|done].
Qed.

(** After the loop, the identifier of every row holds its document. *)
Lemma store_rows_holds (name : string) (rows : list (list (string * value))) :
  (forall row, row ∈ rows -> exists i, rows_of name i = Some row) ->
  forall om om',
    foldM (fun om row =>
             let* c := row_class registry doc_type name row in
             let* doc := materialise_row from_son c row in
             store_doc name doc om) om rows = Ok om' ->
    forall i row, row ∈ rows -> rows_of name i = Some row ->
      om' !! (name, i) = doc_of registry from_son rows_of doc_type name i.
Proof.
  induction rows as [|row rows IH]; intros Hrows om om' Hfold i row' Hin Hi.
  - by apply elem_of_nil in Hin.
  - destruct (Hrows row (list_elem_of_here _ _)) as [j Hj].
    destruct (store_rows_step name row om j Hj) as (doc & Hstep & Hdoc).
    cbn [foldM] in Hfold. rewrite Hstep in Hfold. cbn [bind] in Hfold.
    assert (Hrest : forall r, r ∈ rows -> exists k, rows_of name k = Some r).
    { intros r Hr. apply Hrows. by apply list_elem_of_further. }
    apply elem_of_cons in Hin as [->|Hin]; [|by apply (IH Hrest _ _ Hfold i row')].
    assert (i = j) as -> by (by eapply rows_same_id).
    destruct (store_rows_either name rows Hrest (<[(name, j) := doc]> om))
      as (om2 & Hfold2 & Hkeys).
    rewrite Hfold in Hfold2. injection Hfold2 as <-.
    destruct (Hkeys (name, j)) as [Hsame|(_ & Hnew & _)]; [|done].
    by rewrite Hsame, lookup_insert_eq.
Qed.

Lemma fetch_buckets_rows (rm : refmap) :
  named_buckets rm ->
  forall (done_ : refmap) (om : objmap) (calls : list io_call),
    fetched_rows (doc_of registry from_son rows_of doc_type) done_ om ->
    exists om' calls',
      foldM (fetch_bucket registry from_son in_bulk find doc_type) (om, calls) rm
      = Ok (om', calls')
      /\ fetched_rows (doc_of registry from_son rows_of doc_type)
                      (done_ ++ rm)%list om'.
Proof.
  induction rm as [|[key ids] rm IH]; intros Hnamed done_ om calls Hinv.
  - exists om, calls. split; [done|]. by rewrite app_nil_r.
  - destruct (Hnamed key ids) as (name & ->); [apply list_elem_of_here|].
    cbn [foldM]. unfold fetch_bucket at 1. cbn [ref_document_cls_exists].
    set (refs := pending name ids om).
    destruct (find_answers name refs (NoDup_pending _ _ _)) as (rows & Hfind & Hrows).
    assert (Hall : forall row, row ∈ rows -> exists i, rows_of name i = Some row).
    { intros row Hin. apply Hrows in Hin as (i & _ & Hi). eauto. }
    destruct (store_rows_either name rows Hall om) as (om1 & Hstore & Hkeys).
    pose proof (store_rows_holds name rows Hall om om1 Hstore) as Hholds.
    rewrite <- store_rows_unfold in Hstore.
    assert (Hstep :
              fetch_generic registry from_son find ClassDb
                            (SyncDb DEFAULT_CONNECTION_NAME) doc_type (om, calls)
                            (KName name) ids
              = Ok (om1, (calls ++ [Find (generic_db doc_type) name refs])%list)).
    { unfold fetch_generic.
      destruct simple_doc_type as [Hdt|[t Hdt]]; rewrite Hdt in *; simpl in *;
        fold refs; rewrite Hfind; cbn [bind]; by rewrite Hstore. }
    rewrite Hstep. cbn [bind].
    destruct Hinv as [Hdone Honly].
    destruct (IH (fun k s Hin => Hnamed k s (list_elem_of_further _ _ _ Hin))
                 (done_ ++ [(KName name, ids)])%list om1
                 (calls ++ [Find (generic_db doc_type) name refs])%list)
      as (om' & calls' & Hfold & Hinv').
    { split.
      - intros nm ids0 i Hin Hi. apply elem_of_app in Hin as [Hin|Hin].
        + destruct (Hkeys (nm, i)) as [Hsame|(Hnm & Hnew & _)].
          * rewrite Hsame. by apply (Hdone nm ids0).
          * simpl in Hnm, Hnew. by subst nm.
        + apply list_elem_of_singleton in Hin as [= -> ->].
          destruct (Hkeys (name, i)) as [Hsame|(_ & Hnew & _)]; [|done].
          rewrite Hsame.
          destruct (om !! (name, i)) as [o|] eqn:Hom.
          * symmetry. by apply Honly.
          * destruct (rows_of name i) as [row|] eqn:Hrow.
            -- rewrite <- Hsame. apply (Hholds i row); [|done].
               apply Hrows. exists i. split; [|done]. by apply elem_of_pending.
            -- unfold doc_of. by rewrite Hrow.
      - intros col i o Hom1.
        destruct (Hkeys (col, i)) as [Hsame|(Hcol & Hnew & row & Hin & Hrow)].
        + rewrite Hsame in Hom1. destruct (Honly col i o Hom1) as [Hdoc (ids0 & Hin & Hi)].
          split; [done|]. exists ids0. split; [|done]. apply elem_of_app. by left.
        + simpl in Hcol, Hnew, Hrow. subst col. rewrite Hnew in Hom1.
          split; [done|]. exists ids.
          split; [apply elem_of_app; right; apply list_elem_of_here|].
          apply Hrows in Hin as (j & Hj & Hrowj).
          assert (i = j) as -> by (by eapply rows_same_id).
          by apply elem_of_pending in Hj as [Hj _]. }
    exists om', calls'. split; [exact Hfold|].
    by rewrite <- app_assoc in Hinv'.
Qed.

(** X13.  The generic branch of the fetcher.  When every bucket is keyed
    by a collection name, [doc_type] is a document class or absent,
    [find] returns the stored rows of the identifiers it is asked for and
    [_from_son] gives each row's document with the row's identifier, the
    blocking fetcher returns and its Object Map holds, for every
    requested identifier, the document of its stored row, built with
    [doc_type], or else the class its ["_cls"] names, or else the class
    named after the collection; it holds nothing else. *)
Theorem fetch_generic_stores_rows (rm : refmap) :
  named_buckets rm ->
  exists om calls,
    fetch_objects registry from_son in_bulk find rm doc_type = Ok (om, calls)
    /\ (forall name ids i, (KName name, ids) ∈ rm -> i ∈ ids ->
          om !! (name, i) = doc_of registry from_son rows_of doc_type name i)
    /\ (forall col i o, om !! (col, i) = Some o ->
          doc_of registry from_son rows_of doc_type col i = Some o
          /\ requested_by_name rm col i).
Proof.
  intros Hnamed.
  destruct (fetch_buckets_rows rm Hnamed [] ∅ [])
    as (om & calls & Hfold & Hinv).
  { split; [intros name ids i H; by apply elem_of_nil in H|].
    intros col i o H. by rewrite lookup_empty in H. }
  exists om, calls. split; [exact Hfold|]. exact Hinv.
Qed.
End GenericFetch.

Lemma fixture_find_answers (db : db_handle) (name : string) (refs : list oid) :
  exists rows, fixture_find_rows db name refs = Ok rows /\
    forall row, row ∈ rows <-> exists i, i ∈ refs /\ fixture_rows name i = Some row.
Proof.
  eexists. split; [reflexivity|]. intros row. by rewrite list_elem_of_omap.
Qed.

Lemma fixture_from_son_id (name : string) (i : oid) (row : list (string * value)) :
  fixture_rows name i = Some row ->
  exists c h d,
    row_class Fixture.registry None name row = Ok c
    /\ Fixture.from_son c row = Ok (h, d)
    /\ attr_id (VDoc h d) = Ok i.
Proof.
  unfold fixture_rows.
  destruct (String.eqb_spec name "users") as [->|Hne]; [|done].
  destruct (Nat.eqb_spec i 1) as [->|Hne]; [|done].
  intros [= <-]. by eexists _, _, _.
Qed.

Lemma fetch_generic_stores_rows_witness :
  exists om calls,
    fetch_objects Fixture.registry Fixture.from_son Fixture.in_bulk fixture_find_rows
                  [(KName "users", {[ 1; 2 ]})] None = Ok (om, calls)
    /\ (forall name ids i,
          (KName name, ids) ∈ [(KName "users", ({[ 1; 2 ]} : gset oid))] ->
          i ∈ ids ->
          om !! (name, i)
          = doc_of Fixture.registry Fixture.from_son fixture_rows None name i)
    /\ (forall col i o, om !! (col, i) = Some o ->
          doc_of Fixture.registry Fixture.from_son fixture_rows None col i = Some o
          /\ requested_by_name [(KName "users", {[ 1; 2 ]})] col i).
Proof.
  apply (fetch_generic_stores_rows Fixture.registry Fixture.from_son
           Fixture.in_bulk fixture_find_rows fixture_rows None).
  - by left.
  - intros name refs _. apply fixture_find_answers.
  - apply fixture_from_son_id.
  - intros key ids Hin. apply list_elem_of_singleton in Hin as [= -> _]. eauto.
Defined.
(** ** A list of bare identifiers held by a reference field *)

Lemma mapM_r_map {A B : Type} (f : A -> result B) (g : A -> B) (xs : list A) :
  (forall x, x ∈ xs -> f x = Ok (g x)) -> mapM_r f xs = Ok (map g xs).
Proof.
  induction xs as [|x xs IH]; intros Hf; simpl; [done|].
  rewrite (Hf x (list_elem_of_here _ _)). cbn [bind].
  rewrite IH; [done|]. intros y Hy. apply Hf. by apply list_elem_of_further.
Qed.

Lemma lookup_map {A B : Type} (g : A -> B) (xs : list A) (k : nat) :
  map g xs !! k = g <$> xs !! k.
Proof. apply (list_lookup_fmap g xs k). Qed.

Lemma forallb_map_const {A B : Type} (P : B -> bool) (g : A -> B) (xs : list A) :
  (forall x, P (g x) = true) -> forallb P (map g xs) = true.
Proof. intros HP. induction xs as [|x xs IH]; simpl; [done|]. by rewrite HP, IH. Qed.

Lemma height_pointers (kd : list_kind) (c : string) (ids : list oid) :
  height (VList kd (map (DBRef c) ids)) = 1.
Proof. simpl. f_equal. induction ids as [|i ids IH]; simpl; [done|]. by rewrite IH. Qed.

Lemma collected_at_pointers (registry : string -> option doc_class)
    (max_depth : Z) (kd : list_kind) (c : string) (ids : list oid)
    (p : list step) (key : rkey) (j : oid) :
  collected_at registry max_depth p (VList kd (map (DBRef c) ids)) 0
  = Some (key, j) ->
  key = KName c.
Proof.
  destruct p as [|s p']; simpl; destruct (max_depth <=? 0)%Z; try done.
  destruct s as [k|?|?]; simpl; try done.
  rewrite lookup_map. destruct (ids !! k) as [i|]; simpl; [|done].
  destruct p'; [|done]. by intros [= <- _].
Qed.

Section ReferenceList.
Variable registry : string -> option doc_class.
Variable from_son :
  doc_class -> list (string * value) ->
  result (doc_head * list (string * value)).
Variable in_bulk : doc_class -> list oid -> result (list (oid * value)).
Variable find : db_handle -> string -> list oid -> result (list (list (string * value))).
Variable to_python : doc_class -> bool -> value -> result value.

(** The raw rows of a collection, by identifier, and the document type
    of the field *)
Variable rows_of : string -> oid -> option (list (string * value)).
Variable t : doc_class.

Hypothesis to_python_id : forall i,
  to_python t false (ObjectId i) = Ok (DBRef (cls_collection t) i).
Hypothesis find_answers : forall name refs,
  NoDup refs ->
  exists rows, find (ClassDb t) name refs = Ok rows /\
    forall row, row ∈ rows <-> exists i, i ∈ refs /\ rows_of name i = Some row.
Hypothesis from_son_id : forall name i row,
  rows_of name i = Some row ->
  exists h d, from_son t row = Ok (h, d) /\ attr_id (VDoc h d) = Ok i.

(** X14.  A list of bare identifiers held by a field declared (directly
    or inside complex fields) as [ReferenceField(t, dbref=False)].  When
    [to_python] turns an identifier into a pointer to the collection of
    [t], [find] returns the stored rows of the identifiers it is asked
    for and [_from_son] gives each row's document, [DeReference.__call__]
    with [max_depth >= 1] returns a list that holds, at the position of
    each identifier, the document of its stored row, or the pointer made
    from the identifier when no row is stored. *)
Theorem dereference_resolves_reference_list
    (fuel : nat) (kd : list_kind) (ids : list oid) (max_depth : Z)
    (inst : doc_head) (n : string) (f : field_decl) :
  dict_get n (doc_fields inst) = Some f ->
  unwrap_field f = Some (ReferenceField t false) ->
  ids <> [] ->
  (1 <= max_depth)%Z ->
  2 <= fuel ->
  exists out,
    dereference registry from_son in_bulk find to_python fuel
                (VList kd (map ObjectId ids)) max_depth (Some inst) (Some n)
    = Ok out
    /\ forall k i, ids !! k = Some i ->
         value_at [Idx k] out
         = Some (match doc_of registry from_son rows_of (Some (DTClass t))
                              (cls_collection t) i with
                 | Some doc => doc
                 | None => DBRef (cls_collection t) i
                 end).
Proof.
  intros Hf Hunwrap Hids Hmax Hfuel.
  set (c := cls_collection t).
  set (items' := VList PyList (map (DBRef c) ids)).
  assert (Hget : get_items to_python fuel t false (VList kd (map ObjectId ids))
                 = Ok items').
  { unfold get_items. cbn [scan_iterator bind].
    rewrite (mapM_r_map _ (fun x => match x with
                                    | ObjectId i => DBRef c i
                                    | _ => x
                                    end)).
    - cbn [bind]. unfold items'. by rewrite map_map.
    - intros x Hx. apply list_elem_of_fmap in Hx as (i & -> & _).
      destruct fuel as [|fuel']; [lia|]. simpl. apply to_python_id. }
  assert (Hc : is_container items' = true) by done.
  assert (Hs : scannable registry items' = true).
  { simpl. by apply forallb_map_const. }
  assert (Hdk : distinct_keys items' = true).
  { simpl. by apply forallb_map_const. }
  assert (Hwf : well_formed items' = true).
  { simpl. by apply forallb_map_const. }
  assert (Hh : height items' < fuel).
  { unfold items'. rewrite height_pointers. lia. }
  destruct (find_references_total registry max_depth fuel items' 0 Hc Hs Hh)
    as [rm Hrm].
  assert (Hnamed : named_buckets rm).
  { intros key s Hin.
    destruct (find_references_nonempty registry max_depth fuel items' 0 rm Hrm
                key s Hin) as [j Hj].
    destruct (find_references_sound registry max_depth fuel items' 0 rm key j
                Hc Hdk Hrm) as [q Hq]; [by exists s|].
    exists c. by apply (collected_at_pointers registry max_depth PyList c ids q key j). }
  destruct (fetch_buckets_rows registry from_son in_bulk find rows_of
              (Some (DTClass t))
              (or_intror (ex_intro _ t eq_refl))
              find_answers
              (fun name i row Hrow =>
                 match from_son_id name i row Hrow with
                 | ex_intro _ h (ex_intro _ d (conj Hson Hid)) =>
                     ex_intro _ t (ex_intro _ h (ex_intro _ d
                       (conj eq_refl (conj Hson Hid))))
                 end)
              rm Hnamed [] ∅ [])
    as (om & calls & Hfetch & Hdone & _).
  { split; [intros name s i H; by apply elem_of_nil in H|].
    intros col i o H. by rewrite lookup_empty in H. }
  destruct (attach_objects_ok registry from_son om max_depth fuel
              items' 0%Z (Some inst) (Some n) Hc Hwf Hh) as (out & Hout & _).
  exists out. split.
  { unfold dereference. rewrite Hf, Hunwrap. cbn [scan_iterator bind].
    assert (Hcls : forallb (has_class t) (map ObjectId ids) = false).
    { destruct ids; [done|]. done. }
    rewrite Hcls. cbn [negb]. rewrite Hget. cbn [bind].
    rewrite Hrm. cbn [bind]. unfold fetch_objects. rewrite Hfetch. exact Hout. }
  intros k i Hk.
  assert (Hcol : collected_at registry max_depth [Idx k] items' 0
                 = Some (KName c, i)).
  { simpl. destruct (Z.leb_spec max_depth 0) as [|_]; [lia|].
    by rewrite lookup_map, Hk. }
  assert (Hatt : attached_at om max_depth [Idx k] items' 0
                 = Some (om_get om c i (DBRef c i))).
  { simpl. by rewrite lookup_map, Hk. }
  assert (Hdf : distinct_fields items' = true).
  { simpl. by apply forallb_map_const. }
  pose proof (attach_objects_attached registry from_son om max_depth fuel items'
                0%Z (Some inst) (Some n) out [Idx k] _ Hdf Hout Hatt) as Hval.
  simpl in Hval. simpl. rewrite Hval. f_equal.
  pose proof (find_references_complete registry max_depth fuel items' 0 rm
                [Idx k] (KName c) i Hrm Hcol) as Hin.
  apply elem_of_bucket in Hin as (s & Hin & Hi).
  unfold om_get. by rewrite (Hdone c s i Hin Hi).
Qed.
End ReferenceList.

Lemma fixture_rows_from_son (name : string) (i : oid) (row : list (string * value)) :
  fixture_rows name i = Some row ->
  exists h d, Fixture.from_son Fixture.User row = Ok (h, d)
              /\ attr_id (VDoc h d) = Ok i.
Proof.
  unfold fixture_rows.
  destruct (String.eqb_spec name "users") as [->|Hne]; [|done].
  destruct (Nat.eqb_spec i 1) as [->|Hne]; [|done].
  intros [= <-]. by eexists _, _.
Qed.

Lemma dereference_resolves_reference_list_witness :
  exists out,
    dereference Fixture.registry Fixture.from_son Fixture.in_bulk
                fixture_find_rows Fixture.to_python 2
                (VList PyList (map ObjectId [1; 2])) 1
                (Some album_head) (Some "fans")
    = Ok out
    /\ forall k i, [1; 2] !! k = Some i ->
         value_at [Idx k] out
         = Some (match doc_of Fixture.registry Fixture.from_son fixture_rows
                              (Some (DTClass Fixture.User))
                              (cls_collection Fixture.User) i with
                 | Some doc => doc
                 | None => DBRef (cls_collection Fixture.User) i
                 end).
Proof.
  apply (dereference_resolves_reference_list
           Fixture.registry Fixture.from_son Fixture.in_bulk fixture_find_rows
           Fixture.to_python fixture_rows Fixture.User)
    with (f := ComplexField ListField (Some (ReferenceField Fixture.User false))).
  - reflexivity.
  - intros name refs _. apply fixture_find_answers.
  - apply fixture_rows_from_son.
  - reflexivity.
  - reflexivity.
  - discriminate.
  - lia.
  - lia.
Defined.
(** ** The suspending fetcher against the stored data *)

Section AsyncStoreByCollection.
Variable registry : string -> option doc_class.
Variable from_son :
  doc_class -> list (string * value) ->
  result (doc_head * list (string * value)).
Variable async_in_bulk : doc_class -> list oid -> result (list (oid * value)).
Variable async_get : doc_class -> oid -> result value.
Variable find : db_handle -> string -> list oid -> result (list (list (string * value))).

(** The documents of a collection, by identifier *)
Variable stored : string -> oid -> option value.

Hypothesis async_in_bulk_answers : forall c refs,
  cls_async_in_bulk c = true ->
  NoDup refs ->
  exists res, async_in_bulk c refs = Ok res /\ NoDup res.*1 /\
    forall i d, (i, d) ∈ res <-> i ∈ refs /\ stored (cls_collection c) i = Some d.
Hypothesis async_get_answers : forall c i d,
  cls_async_in_bulk c = false ->
  async_get c i = Ok d <-> stored (cls_collection c) i = Some d.

Lemma async_fetch_buckets_fetched (doc_type : option dtype) (rm : refmap) :
  typed_buckets rm ->
  forall (done_ : refmap) (om : objmap) (calls : list io_call),
    fetched stored done_ om ->
    exists om' calls',
      foldM (async_fetch_bucket registry from_son async_in_bulk async_get find
                                doc_type) (om, calls) rm
      = Ok (om', calls')
      /\ fetched stored (done_ ++ rm)%list om'.
Proof.
  induction rm as [|[key ids] rm IH]; intros Htyped done_ om calls Hinv.
  - exists om, calls. split; [done|]. by rewrite app_nil_r.
  - destruct (Htyped key ids) as (c & -> & Hobj); [apply list_elem_of_here|].
    set (col := cls_collection c). set (refs := pending col ids om).
    assert (Hbucket : exists res calls1,
              async_fetch_bucket registry from_son async_in_bulk async_get find
                                 doc_type (om, calls) (KClass c, ids)
              = Ok (store_references col res om, calls1)
              /\ NoDup res.*1
              /\ forall i d, (i, d) ∈ res <-> i ∈ refs /\ stored col i = Some d).
    { unfold async_fetch_bucket, ref_document_cls_exists. rewrite Hobj.
      fold col. fold refs.
      destruct (cls_async_in_bulk c) eqn:Hbulk.
      - destruct (async_in_bulk_answers c refs Hbulk (NoDup_pending _ _ _))
          as (res & -> & Hnd & Hres).
        exists res, (calls ++ [AsyncInBulk c refs])%list. done.
      - exists (fetch_individually async_get c refs),
               (calls ++ map (AsyncGet c) refs)%list.
        split; [done|]. split.
        + apply NoDup_fetch_individually, NoDup_pending.
        + intros i d. rewrite elem_of_fetch_individually.
          by rewrite (async_get_answers c i d Hbulk). }
    destruct Hbucket as (res & calls1 & Hstep & Hnd & Hres).
    cbn [foldM]. rewrite Hstep. cbn [bind].
    assert (Hlook := fun key => store_references_lookup stored col refs res om key
                                  Hnd Hres).
    destruct Hinv as [Hdone Honly].
    destruct (IH (fun k s Hin => Htyped k s (list_elem_of_further _ _ _ Hin))
                 (done_ ++ [(KClass c, ids)])%list
                 (store_references col res om) calls1)
      as (om' & calls' & Hfold & Hinv').
    { split.
      - intros c0 ids0 i Hin Hi. apply elem_of_app in Hin as [Hin|Hin].
        + rewrite Hlook. simpl. specialize (Hdone c0 ids0 i Hin Hi).
          destruct (decide _) as [(Hcol & _ & _)|_]; [by rewrite Hcol|done].
        + apply list_elem_of_singleton in Hin as [= <- <-].
          rewrite Hlook. simpl. fold col.
          destruct (decide _) as [_|Hno]; [done|].
          destruct (om !! (col, i)) as [o|] eqn:Hom.
          * symmetry. by apply Honly.
          * destruct (stored col i) eqn:Hst; [|done].
            exfalso. apply Hno. split; [done|]. split; [|eauto].
            by apply elem_of_pending.
      - intros col0 i o. rewrite Hlook. simpl.
        destruct (decide _) as [(-> & Hin & _)|_].
        + intros Hst. split; [done|].
          exists c, ids. split; [apply elem_of_app; right; apply list_elem_of_here|].
          split; [done|]. by apply elem_of_pending in Hin as [Hin _].
        + intros Hom.
          destruct (Honly col0 i o Hom) as [Hst (c0 & ids0 & Hin & Hc & Hi)].
          split; [done|]. exists c0, ids0. split; [|done].
          apply elem_of_app. by left. }
    exists om', calls'. split; [exact Hfold|].
    by rewrite <- app_assoc in Hinv'.
Qed.

(** X15.  When every bucket is keyed by a document class with [objects],
    [async_in_bulk] answers from the stored data for the classes that
    have it, and [async_get] returns a document exactly when one is
    stored for the classes that do not, the suspending fetcher returns,
    and its Object Map holds exactly the requested identifiers that are
    stored, each with its stored document; an identifier whose
    [async_get] raises is absent. *)
Theorem async_fetch_stores_what_is_stored (rm : refmap) (doc_type : option dtype) :
  typed_buckets rm ->
  exists om calls,
    async_fetch_objects registry from_son async_in_bulk async_get find rm doc_type
    = Ok (om, calls)
    /\ (forall c ids i, (KClass c, ids) ∈ rm -> i ∈ ids ->
          om !! (cls_collection c, i) = stored (cls_collection c) i)
    /\ (forall col i o, om !! (col, i) = Some o ->
          stored col i = Some o /\ requested_in rm col i).
Proof.
  intros Htyped.
  destruct (async_fetch_buckets_fetched doc_type rm Htyped [] ∅ [])
    as (om & calls & Hfold & Hinv).
  { split; [intros c ids i H; by apply elem_of_nil in H|]. intros col i o H.
    by rewrite lookup_empty in H. }
  exists om, calls. split; [exact Hfold|]. exact Hinv.
Qed.
End AsyncStoreByCollection.

Lemma async_fetch_stores_what_is_stored_witness :
  exists om calls,
    async_fetch_objects Fixture.registry Fixture.from_son Fixture.in_bulk
                        Fixture.async_get Fixture.find
                        [(KClass Fixture.User, {[ 1; 2 ]});
                         (KClass Fixture.Member, {[ 1; 3 ]})] None
    = Ok (om, calls)
    /\ (forall c ids i,
          (KClass c, ids)
            ∈ [(KClass Fixture.User, ({[ 1; 2 ]} : gset oid));
               (KClass Fixture.Member, {[ 1; 3 ]})] ->
          i ∈ ids ->
          om !! (cls_collection c, i) = stored_by_collection (cls_collection c) i)
    /\ (forall col i o, om !! (col, i) = Some o ->
          stored_by_collection col i = Some o
          /\ requested_in [(KClass Fixture.User, {[ 1; 2 ]});
                           (KClass Fixture.Member, {[ 1; 3 ]})] col i).
Proof.
  apply (async_fetch_stores_what_is_stored
           Fixture.registry Fixture.from_son Fixture.in_bulk Fixture.async_get
           Fixture.find stored_by_collection).
  - intros c refs _. apply (fixture_in_bulk_stored c refs).
  - intros c i d _. apply (fixture_async_get_stored c i d).
  - intros key ids Hin. apply elem_of_cons in Hin as [[= -> ->]|Hin]; [eauto|].
    apply list_elem_of_singleton in Hin as [= -> ->]. eauto.
Defined.
(** ** Depth accounting: the entry point and the bound *)

Section Beyond.
Variable registry : string -> option doc_class.
Variable from_son :
  doc_class -> list (string * value) ->
  result (doc_head * list (string * value)).
Variable object_map : objmap.
Variable max_depth : Z.

(** A well-formed tagged mapping has its entry of the Object Map, or
    itself, as substitute. *)
Lemma substitute_tagged (k : dict_kind) (kvs : list (string * value)) :
  dict_has "_ref" kvs = true ->
  well_formed (VDict k kvs) = true ->
  exists r o,
    getitem "_ref" kvs = Ok r
    /\ lookup_ref object_map r (VDict k kvs) = Ok o
    /\ substitute object_map (VDict k kvs) = Some o.
Proof.
  intros Href Hwf. apply dict_has_get in Href as [r Hr]. simpl in Hwf.
  destruct (tagged_ref_pointer object_map kvs r Hr Hwf) as (c & i & _ & Hlookup).
  exists r, (om_get object_map c i (VDict k kvs)). simpl. unfold getitem.
  rewrite Hr. by rewrite Hlookup.
Qed.

(** The loop body over the fields beyond the bound: no recursive call. *)
Lemma attach_field_beyond (rec : attach_fn) (depth : Z)
    (inst : option doc_head) (name : option string) (k : string)
    (d : list (string * value)) (f : string) (fd : field_decl) :
  (max_depth < depth)%Z ->
  (forall v, dict_get f d = Some v -> well_formed v = true) ->
  exists d',
    attach_field object_map max_depth rec depth inst name k d (f, fd) = Ok d'
    /\ dict_get f d' = field_after object_map true <$> dict_get f d
    /\ forall f', f ≠ f' -> dict_get f' d' = dict_get f' d.
Proof.
  intros Hdepth Hwf. unfold attach_field, get_or_None.
  assert (Hguard : (depth <=? max_depth)%Z = false) by (apply Z.leb_gt; lia).
  rewrite Hguard.
  destruct (dict_get f d) as [v|] eqn:Hv.
  2:{ exists d. by rewrite Hv. }
  assert (Hsame : substitute object_map v = None ->
            exists d', Ok d = Ok d'
              /\ dict_get f d' = Some (field_after object_map true v)
              /\ forall f', f ≠ f' -> dict_get f' d' = dict_get f' d).
  { intros Hsub. exists d. unfold field_after. by rewrite Hsub, Hv. }
  assert (Hwrite : forall o, substitute object_map v = Some o ->
            exists d', Ok (dict_set f o d) = Ok d'
              /\ dict_get f d' = Some (field_after object_map true v)
              /\ forall f', f ≠ f' -> dict_get f' d' = dict_get f' d).
  { intros o Hsub. exists (dict_set f o d). unfold field_after. rewrite Hsub.
    split; [done|]. split; [apply dict_get_set_eq|].
    intros f' Hne. by apply dict_get_set_ne. }
  destruct v as [| | |c i|c i|kd xs|kd kvs|h0 d0|]; try by apply Hsame.
  - by apply Hwrite.
  - by apply Hwrite.
  - destruct (dict_has "_ref" kvs) eqn:Href.
    + destruct (substitute_tagged kd kvs Href (Hwf _ eq_refl))
        as (r & o & Hr & Hrun & Hsub).
      rewrite Hr. cbn [bind]. rewrite Hrun. cbn [bind]. by apply Hwrite.
    + apply Hsame. simpl. unfold dict_has in Href.
      by destruct (dict_get "_ref" kvs).
Qed.

Lemma attach_fields_beyond (rec : attach_fn) (depth : Z)
    (inst : option doc_head) (name : option string) (k : string)
    (d : list (string * value)) (fields : list (string * field_decl)) :
  (max_depth < depth)%Z ->
  (forall f v, dict_get f d = Some v -> well_formed v = true) ->
  NoDup fields.*1 ->
  forall d_cur : list (string * value),
    (forall f, f ∈ fields.*1 -> dict_get f d_cur = dict_get f d) ->
    exists d',
      foldM (attach_field object_map max_depth rec depth inst name k) d_cur fields
      = Ok d'
      /\ (forall f, f ∈ fields.*1 ->
            dict_get f d' = field_after object_map true <$> dict_get f d)
      /\ (forall f, f ∉ fields.*1 -> dict_get f d' = dict_get f d_cur).
Proof.
  intros Hdepth Hwf.
  induction fields as [|[g gd] rest IH]; intros Hnd d_cur Htodo.
  - exists d_cur. split; [done|]. split; [|done].
    intros f Hf. by apply elem_of_nil in Hf.
  - simpl in Hnd. apply NoDup_cons in Hnd as [Hnotin Hnd].
    assert (Hg : dict_get g d_cur = dict_get g d).
    { apply Htodo. simpl. apply list_elem_of_here. }
    destruct (attach_field_beyond rec depth inst name k d_cur g gd Hdepth)
      as (mid & Hstep & Hat & Hother).
    { intros v Hv. apply (Hwf g). by rewrite <- Hg. }
    destruct (IH Hnd mid) as (d' & Hfold & Hin & Hout).
    { intros f Hf. rewrite Hother.
      - apply Htodo. simpl. by apply list_elem_of_further.
      - intros ->. done. }
    exists d'. split.
    { cbn [foldM]. rewrite Hstep. exact Hfold. }
    split.
    + intros f Hf. simpl in Hf. apply elem_of_cons in Hf as [->|Hf].
      * rewrite (Hout g Hnotin), Hat. by rewrite Hg.
      * by apply Hin.
    + intros f Hf. simpl in Hf. apply not_elem_of_cons in Hf as [Hne Hf].
      rewrite (Hout f Hf). apply Hother. congruence.
Qed.

Lemma dict_has_elem_of {V : Type} (f : string) (d : list (string * V)) :
  dict_has f d = true <-> f ∈ d.*1.
Proof.
  unfold dict_has. induction d as [|[k v] d IH]; simpl.
  - split; [done|]. intros H. by apply elem_of_nil in H.
  - destruct (String.eqb_spec k f) as [->|Hne].
    + split; [|done]. intros _. apply list_elem_of_here.
    + rewrite IH. split.
      * intros H. by apply list_elem_of_further.
      * intros H. apply elem_of_cons in H as [->|H]; [done|exact H].
Qed.

(** The loop body over the elements beyond the bound *)
Lemma attach_item_beyond (rec : attach_fn) (depth : Z)
    (inst : option doc_head) (name : option string) (k : string) (x : value) :
  (max_depth < depth)%Z ->
  well_formed x = true ->
  exists y,
    attach_item object_map max_depth (attach_field object_map max_depth)
                rec depth inst name (k, x) = Ok y
    /\ item_after object_map x y.
Proof.
  intros Hdepth Hwf. unfold attach_item.
  assert (Hguard : (depth <=? max_depth)%Z = false) by (apply Z.leb_gt; lia).
  rewrite Hguard.
  destruct x as [| | |c i|c i|kd xs|kd kvs|h d|]; try (by eexists).
  simpl in Hwf. apply andb_true_iff in Hwf as [Hnd Hwd].
  apply bool_decide_eq_true in Hnd.
  destruct (attach_fields_beyond rec depth inst name k d (doc_fields h) Hdepth)
    with (d_cur := d) as (d' & Hfold & Hin & Hout); [|done|done|].
  { intros f v Hv. apply dict_get_elem_of in Hv.
    by apply (forallb_elem_of _ _ (f, v) Hwd). }
  exists (VDoc h d'). rewrite Hfold. split; [done|].
  exists d'. split; [done|]. intros f.
  destruct (dict_has f (doc_fields h)) eqn:Hdecl.
  - apply Hin. by apply dict_has_elem_of.
  - rewrite Hout.
    + unfold field_after. by destruct (dict_get f d).
    + intros Hf. apply dict_has_elem_of in Hf. congruence.
Qed.

(** At or beyond the bound the attacher makes no recursive call on a
    container that is neither tagged nor carries a discriminator alone:
    it returns with a recursion budget of one, the result has the size of
    the input, and each element is as [item_after] says. *)
Lemma attach_objects_beyond (fuel : nat) (items : value) (depth : Z)
    (inst : option doc_head) (name : option string) :
  (max_depth <= depth)%Z ->
  is_container items = true ->
  is_tagged items = false ->
  is_discriminated items = false ->
  well_formed items = true ->
  exists out,
    attach_objects registry from_son object_map max_depth
                   (S fuel) items depth inst name = Ok out
    /\ container_size out = container_size items
    /\ forall s x, element s items = Some x ->
         exists y, element s out = Some y /\ item_after object_map x y.
Proof.
  intros Hdepth Hc Htag Hdisc Hwf.
  destruct (truthy items) eqn:Htruthy.
  2:{ unfold attach_objects. cbn [attach_objects_with].
      unfold attach_body, attach_falsy. rewrite Htruthy.
      destruct items as [| | | | |kd [|x0 xs]|kd [|kv0 kvs]| |]; try done.
      - destruct kd, inst; simpl; eexists; (split; [reflexivity|]);
          (split; [reflexivity|]); by intros [] x Hx.
      - destruct kd, inst; simpl; eexists; (split; [reflexivity|]);
          (split; [reflexivity|]); by intros [] x Hx. }
  unfold attach_objects. cbn [attach_objects_with].
  fold (attach_objects registry from_son object_map max_depth fuel).
  assert (Hloop : exists iterator data,
            attach_iterator items = Ok iterator
            /\ attach_loop object_map max_depth (attach_field object_map max_depth)
                 (attach_objects registry from_son object_map max_depth fuel)
                 (depth + 1) inst name iterator = Ok data).
  { assert (Hiter : exists iterator,
              attach_iterator items = Ok iterator
              /\ forall k x, (k, x) ∈ iterator -> well_formed x = true).
    { destruct items as [| | | | |kd xs|kd kvs| |]; try done.
      - exists (enumerate xs). split; [done|]. intros k x Hx.
        apply elem_of_enumerate in Hx. simpl in Hwf.
        by apply (forallb_elem_of _ _ x Hwf).
      - exists kvs. split; [done|]. intros k x Hx.
        simpl in Htag, Hwf. unfold dict_has in Htag.
        destruct (dict_get "_ref" kvs); [done|].
        apply andb_true_iff in Hwf as [_ Hwf].
        by apply (forallb_elem_of _ _ (k, x) Hwf). }
    destruct Hiter as (iterator & Hiter & Hall).
    destruct (mapM_r_total
                (fun kv =>
                   let* v := attach_item object_map max_depth
                               (attach_field object_map max_depth)
                               (attach_objects registry from_son object_map
                                  max_depth fuel)
                               (depth + 1) inst name kv in
                   Ok (kv.1, v)) iterator) as [data Hdata].
    { intros [k x] Hx.
      destruct (attach_item_beyond
                  (attach_objects registry from_son object_map max_depth fuel)
                  (depth + 1) inst name k x) as (y & Hy & _);
        [lia|by apply (Hall k x)|].
      exists (k, y). by rewrite Hy. }
    by exists iterator, data. }
  destruct Hloop as (iterator & data & Hiter & Hloop).
  assert (Hbody :
            attach_body registry from_son object_map max_depth
              (attach_field object_map max_depth)
              (attach_objects registry from_son object_map max_depth fuel)
              items depth inst name = Ok (rewrap items data inst name)).
  { unfold attach_body, attach_falsy. rewrite Htruthy.
    assert (Htagged : attach_tagged registry from_son object_map
                        (attach_objects registry from_son object_map max_depth fuel)
                        items depth = None).
    { unfold attach_tagged. destruct items; try done.
      simpl in Htag, Hdisc. rewrite Htag in Hdisc |- *. simpl in Hdisc.
      by rewrite Hdisc. }
    rewrite Htagged, Hiter. cbn [bind]. by rewrite Hloop. }
  exists (rewrap items data inst name). split; [exact Hbody|]. split.
  - by destruct (attach_body_shape registry from_son object_map max_depth _ _
                   items depth inst name _ Hbody Hc) as [Hshape _];
      destruct (Hshape Htruthy Htag Hdisc).
  - intros s x Hx.
    destruct (attach_loop_element object_map max_depth _ _ (depth + 1) inst name
                items s x iterator data Hx Hiter Hloop) as (k & y & Hy & Hout).
    exists y. split; [exact Hout|].
    destruct (attach_item_beyond
                (attach_objects registry from_son object_map max_depth fuel)
                (depth + 1) inst name k x) as (y' & Hy' & Hafter); [lia| |].
    { apply (element_forallb well_formed s items x); [| |done].
      - intros kd xs ->. done.
      - intros kd kvs ->. simpl in Htag, Hwf. unfold dict_has in Htag.
        destruct (dict_get "_ref" kvs); [done|].
        by apply andb_true_iff in Hwf as [_ Hwf]. }
    rewrite Hy in Hy'. by injection Hy' as <-.
Qed.

(** A tagged mapping is replaced as a whole, at any depth. *)
Lemma attach_objects_own_pointer (fuel : nat) (items : value) (depth : Z)
    (inst : option doc_head) (name : option string) :
  is_tagged items = true ->
  well_formed items = true ->
  exists o,
    substitute object_map items = Some o
    /\ attach_objects registry from_son object_map max_depth
                      (S fuel) items depth inst name = Ok o.
Proof.
  intros Htag Hwf. destruct items as [| | | | |kd xs|kd kvs| |]; try done.
  simpl in Htag.
  destruct (substitute_tagged kd kvs Htag Hwf) as (r & o & Hr & Hrun & Hsub).
  exists o. split; [exact Hsub|].
  unfold attach_objects. cbn [attach_objects_with]. unfold attach_body.
  assert (Hfalsy : attach_falsy (VDict kd kvs) inst name = None).
  { unfold attach_falsy. unfold getitem in Hr. by destruct kvs. }
  rewrite Hfalsy. unfold attach_tagged. rewrite Htag, Hr. exact Hrun.
Qed.
End Beyond.

(** Every call of the entry point that returns either returns [items] as
    it is, or has run the scanner at depth 0 and then the attacher at
    depth 0, with the owner and the name of the call, on [items] or on
    its conversion. *)
Lemma dereference_starts_at_zero
    (registry : string -> option doc_class)
    (from_son : doc_class -> list (string * value) ->
                result (doc_head * list (string * value)))
    (in_bulk : doc_class -> list oid -> result (list (oid * value)))
    (find : db_handle -> string -> list oid -> result (list (list (string * value))))
    (to_python : doc_class -> bool -> value -> result value)
    (fuel : nat) (items : value) (max_depth : Z)
    (inst : option doc_head) (name : option string) (out : value) :
  dereference registry from_son in_bulk find to_python
              fuel items max_depth inst name = Ok out ->
  out = items
  \/ exists items' doc_type rm om calls,
       (items' = items
        \/ exists t dbref, get_items to_python fuel t dbref items = Ok items')
       /\ find_references registry max_depth fuel items' 0 = Ok rm
       /\ fetch_objects registry from_son in_bulk find rm doc_type = Ok (om, calls)
       /\ attach_objects registry from_son om max_depth fuel items' 0 inst name
          = Ok out.
Proof.
  intros Hcall. unfold dereference in Hcall.
  assert (Hres : forall items' doc_type,
            (items' = items
             \/ exists t dbref, get_items to_python fuel t dbref items = Ok items') ->
            (let* reference_map :=
               find_references registry max_depth fuel items' 0%Z in
             let* (object_map, _) :=
               fetch_objects registry from_son in_bulk find reference_map
                             doc_type in
             attach_objects registry from_son object_map max_depth
                            fuel items' 0%Z inst name) = Ok out ->
            out = items
            \/ exists items' doc_type rm om calls,
                 (items' = items
                  \/ exists t dbref,
                       get_items to_python fuel t dbref items = Ok items')
                 /\ find_references registry max_depth fuel items' 0 = Ok rm
                 /\ fetch_objects registry from_son in_bulk find rm doc_type
                    = Ok (om, calls)
                 /\ attach_objects registry from_son om max_depth fuel items' 0
                                   inst name = Ok out).
  { intros items' doc_type Hitems' H. right.
    apply bind_Ok in H as (rm & Hrm & H).
    apply bind_Ok in H as ([om calls] & Hfetch & Hatt).
    by exists items', doc_type, rm, om, calls. }
  destruct items eqn:Hitems; try (injection Hcall as <-; by left);
    rewrite <- Hitems in *; clear Hitems;
    (destruct inst as [owner|]; [|by apply (Hres items None); [left|]]);
    (destruct (match name with
               | Some n =>
                   match dict_get n (doc_fields owner) with
                   | Some f => unwrap_field f
                   | None => None
                   end
               | None => None
               end) as [[t dbref|kind inner|t|]|];
     try (by eapply Hres; [left|exact Hcall]));
    (apply bind_Ok in Hcall as (its & _ & Hcall));
    (destruct (forallb (has_class t) its); [injection Hcall as <-; by left|]);
    (destruct (negb dbref); [|by eapply Hres; [left|exact Hcall]]);
    (apply bind_Ok in Hcall as (items' & Hget & Hcall));
    (eapply Hres; [right; by exists t, dbref|exact Hcall]).
Qed.

(** C1, as amended.
    - The entry point starts both passes at depth 0: a call that returns
      either returns [items] as it is or has run the scanner and the
      attacher at depth 0 on [items] or its conversion, whoever the owner.
    - Depth never decreases: the body of either pass at [depth] depends
      on its recursive calls at [depth] and [depth + 1] only.
    - At [depth >= max_depth] the scanner returns the empty Reference
      Map.
    - The attacher has no test of the depth on entry.  At
      [depth >= max_depth], on a list or mapping that is neither tagged
      nor carries a discriminator alone, it returns with a recursion
      budget of one, the result has the size of the input, and every
      element is
      as [item_after] says: a nested container, tagged or not, is
      returned as it is, a container held by a field of a record is
      returned as it is, but a pointer of the node and a pointer or
      tagged mapping held by a declared field of one of its records is
      replaced by its entry in the Object Map, when there is one.
    - A tagged mapping is replaced as a whole at any depth. *)
Theorem depth_discipline
    (registry : string -> option doc_class)
    (from_son : doc_class -> list (string * value) ->
                result (doc_head * list (string * value)))
    (object_map : objmap) (max_depth : Z)
    (items : value) (depth : Z)
    (inst : option doc_head) (name : option string) :
  (forall in_bulk find to_python fuel out,
     dereference registry from_son in_bulk find to_python
                 fuel items max_depth inst name = Ok out ->
     out = items
     \/ exists items' doc_type rm om calls,
          (items' = items
           \/ exists t dbref, get_items to_python fuel t dbref items = Ok items')
          /\ find_references registry max_depth fuel items' 0 = Ok rm
          /\ fetch_objects registry from_son in_bulk find rm doc_type
             = Ok (om, calls)
          /\ attach_objects registry from_son om max_depth fuel items' 0 inst name
             = Ok out)
  /\ (forall scan1 scan2 : value -> Z -> result refmap,
     (forall v d, (depth <= d <= depth + 1)%Z -> (d <= max_depth)%Z ->
                  scan1 v d = scan2 v d) ->
     find_references_body registry max_depth (scan_field registry max_depth)
                          scan1 items depth
     = find_references_body registry max_depth (scan_field registry max_depth)
                            scan2 items depth)
  /\ (forall att1 att2 : attach_fn,
        (forall v d i n, (depth <= d <= depth + 1)%Z -> att1 v d i n = att2 v d i n) ->
        attach_body registry from_son object_map max_depth
                    (attach_field object_map max_depth) att1 items depth inst name
        = attach_body registry from_son object_map max_depth
                      (attach_field object_map max_depth) att2 items depth inst name)
  /\ ((max_depth <= depth)%Z ->
      (forall fuel, find_references registry max_depth (S fuel) items depth = Ok [])
      /\ (is_container items = true -> is_tagged items = false ->
          is_discriminated items = false -> well_formed items = true ->
          forall fuel,
          exists out,
            attach_objects registry from_son object_map max_depth
                           (S fuel) items depth inst name = Ok out
            /\ container_size out = container_size items
            /\ forall s x, element s items = Some x ->
                 exists y, element s out = Some y
                           /\ item_after object_map x y))
  /\ (is_tagged items = true -> well_formed items = true ->
      forall fuel,
      exists o,
        substitute object_map items = Some o
        /\ attach_objects registry from_son object_map max_depth
                          (S fuel) items depth inst name = Ok o).
Proof.
  split; [|split; [|split; [|split]]].
  - intros in_bulk find to_python fuel out. apply dereference_starts_at_zero.
  - intros scan1 scan2 Hagree. by apply find_references_body_ext.
  - intros att1 att2 Hagree. apply attach_body_ext.
    + intros _ v i n. apply Hagree. lia.
    + intros _. exact Hagree.
  - intros Hdepth. split.
    + intros fuel. unfold find_references. cbn [find_references_with].
      unfold find_references_body.
      destruct (Z.leb_spec max_depth depth) as [_|Hlt]; [|lia].
      by rewrite orb_true_r.
    + intros Hc Htag Hdisc Hwf fuel.
      by apply attach_objects_beyond.
  - intros Htag Hwf fuel. by apply attach_objects_own_pointer.
Qed.

(** At the bound: [max_depth = 1] and a list reached at depth 1 that
    holds a nested list, a bare pointer and the fixture's post *)
Lemma depth_discipline_witness :
  (forall fuel,
     find_references Fixture.registry 1 (S fuel) bound_tree 1 = Ok [])
  /\ (forall fuel,
      exists out,
        attach_objects Fixture.registry Fixture.from_son Fixture.object_map 1
                       (S fuel) bound_tree 1 None None = Ok out
        /\ container_size out = container_size bound_tree
        /\ forall s x, element s bound_tree = Some x ->
             exists y, element s out = Some y
                       /\ item_after Fixture.object_map x y).
Proof.
  destruct (depth_discipline Fixture.registry Fixture.from_son Fixture.object_map
              1 bound_tree 1 None None) as (_ & _ & _ & Hbound & _).
  destruct Hbound as [Hscan Hattach]; [lia|].
  split; [exact Hscan|].
  apply Hattach.
  - reflexivity.
  - reflexivity.
  - reflexivity.
  - vm_compute. reflexivity.
Defined.

(** C1 as stated fails: with [max_depth = 1] the list under [likes] is
    reached at depth 1, where the scanner takes nothing from it, and the
    attacher replaces its first pointer by the user fetched for the field
    [author]. *)
Lemma attacher_substitutes_at_max_depth :
  (1 <= 1)%Z
  /\ find_references Fixture.registry 1 3
                     (VList PyList [DBRef "users" 1; DBRef "users" 2]) 1 = Ok []
  /\ attach_objects Fixture.registry Fixture.from_son Fixture.object_map 1 3
                    (VList PyList [DBRef "users" 1; DBRef "users" 2]) 1
                    None (Some "None.0.likes")
     = Ok (VList PyList [Fixture.alice; DBRef "users" 2])
  /\ VList PyList [Fixture.alice; DBRef "users" 2]
     <> VList PyList [DBRef "users" 1; DBRef "users" 2].
Proof.
  split; [lia|]. split; [reflexivity|]. split; [vm_compute; reflexivity|].
  discriminate.
Qed.
